(** * FlatBuffers Python runtime: Builder and Table

    A shallow embedding of [python/flatbuffers/number_types.py],
    [python/flatbuffers/builder.py] and [python/flatbuffers/table.py].

    Python integers are [Z]; a Python float is an IEEE-754 binary64 value,
    a [spec_float]; a [bytearray] / [bytes] value is a [list byte]; an
    exception is the [Raise] branch of [result].  Builder methods mutate
    [self], so they are functions in a state-and-error monad over the record
    of the Builder's slots. *)

From Stdlib Require Import String ZArith List Lia Bool SpecFloat.
From coqutil Require Import Byte Word.LittleEndianList.
Import ListNotations.
Local Open Scope Z_scope.

(** ** Exceptions and results *)

(** Modelled from the spec: [exceptions.py] is not among the sources.  These
    are the error kinds of spec 7 that [builder.py] imports and raises,
    with the errors the host raises on the runtime's behalf ([struct.error],
    [IndexError], [ValueError], [TypeError], [OverflowError]). *)
Inductive exn : Set :=
| OffsetArithmeticError
| NotInObjectError
| ObjectIsNestedError
| StructIsNotInlineError
| BuilderSizeError
| TypeError
| StructError
| IndexError
| ValueError
| OverflowError.

(** What a call does: it returns a value or raises. *)
Inductive result (A : Type) : Type :=
| Ok (a : A)
| Raise (e : exn).
Arguments Ok {A} a.
Arguments Raise {A} e.

(** Sequencing: an exception ends the computation. *)
Definition rbind {A B} (r : result A) (k : A -> result B) : result B :=
  match r with
  | Ok a => k a
  | Raise e => Raise e
  end.

Declare Scope py_scope.
Delimit Scope py_scope with py.
Notation "'let!' x ':=' r 'in' k" := (rbind r (fun x => k))
  (at level 10, x pattern, r at level 100, k at level 200) : py_scope.
Local Open Scope py_scope.

(** ** Python sequences *)

(** [len(l)] *)
Definition len {A} (l : list A) : Z := Z.of_nat (length l).

(** [bytearray(n)]: [n] zero bytes. *)
Definition bytearray (n : Z) : list byte := repeat Byte.x00 (Z.to_nat n).

(** How a slice bound is clipped against a sequence of length [n]. *)
Definition slice_index (n i : Z) : Z :=
  if i <? 0 then Z.max 0 (i + n) else Z.min i n.

(** [l[lo:hi]] *)
Definition getslice {A} (l : list A) (lo hi : Z) : list A :=
  let a := slice_index (len l) lo in
  let b := slice_index (len l) hi in
  firstn (Z.to_nat (b - a)) (skipn (Z.to_nat a) l).

(** [l[lo:]] *)
Definition getslice_from {A} (l : list A) (lo : Z) : list A :=
  skipn (Z.to_nat (slice_index (len l) lo)) l.

(** [l[lo:hi] = x] on a bytearray. *)
Definition setslice {A} (l : list A) (lo hi : Z) (x : list A) : list A :=
  let a := slice_index (len l) lo in
  let b := Z.max a (slice_index (len l) hi) in
  firstn (Z.to_nat a) l ++ x ++ skipn (Z.to_nat b) l.

(** [l[lo:] = x] *)
Definition setslice_from {A} (l : list A) (lo : Z) (x : list A) : list A :=
  firstn (Z.to_nat (slice_index (len l) lo)) l ++ x.

(** [l[i] = v]: a negative index counts from the end, an index outside the
    sequence raises [IndexError]. *)
Definition setitem {A} (l : list A) (i : Z) (v : A) : result (list A) :=
  let j := if i <? 0 then i + len l else i in
  if (0 <=? j) && (j <? len l)
  then Ok (firstn (Z.to_nat j) l ++ v :: skipn (S (Z.to_nat j)) l)
  else Raise IndexError.

(** [b[i] = x] on a bytearray: the value must be in [range(256)]. *)
Definition setbyte (l : list byte) (i : Z) (x : Z) : result (list byte) :=
  let j := if i <? 0 then i + len l else i in
  if (0 <=? j) && (j <? len l)
  then if (0 <=? x) && (x <? 256) then setitem l i (byte.of_Z x) else Raise ValueError
  else Raise IndexError.

(** [range(lo, hi)] *)
Definition range (lo hi : Z) : list Z :=
  map (fun k => lo + Z.of_nat k) (seq 0 (Z.to_nat (hi - lo))).

(** ** The byte codec *)

Module packer.

(** Modelled from the spec: [packer.py] is not among the sources.  It holds
    one fixed-width little-endian codec per scalar kind (spec 3 and 4.2).
    These are the codecs of the integer kinds and of the boolean, whose
    values are integers; the two floating kinds follow as [float_t]. *)
Inductive t : Set :=
| boolean | uint8 | uint16 | uint32 | uint64 | int8 | int16 | int32 | int64.

(** Modelled from the spec: the byte width of each kind (spec 3: integer
    kinds of 1, 2, 4 and 8 bytes; a boolean is 1 byte). *)
Definition size (p : t) : nat :=
  match p with
  | boolean | uint8 | int8 => 1
  | uint16 | int16 => 2
  | uint32 | int32 => 4
  | uint64 | int64 => 8
  end%nat.

(** Modelled from the spec: which kinds are signed (spec 3). *)
Definition signed (p : t) : bool :=
  match p with
  | int8 | int16 | int32 | int64 => true
  | _ => false
  end.

(** Modelled from the spec: the width of a kind in bits. *)
Definition bits (p : t) : Z := 8 * Z.of_nat (size p).

(** Modelled from the spec: the least value of a kind (spec 4.1, inclusive
    minimum). *)
Definition min_value (p : t) : Z :=
  if signed p then - 2 ^ (bits p - 1) else 0.

(** Modelled from the spec: the greatest value of a kind (spec 4.1,
    inclusive maximum). *)
Definition max_value (p : t) : Z :=
  if signed p then 2 ^ (bits p - 1) - 1 else 2 ^ bits p - 1.

(** Modelled from the spec: the little-endian bytes of a value (spec 4.2),
    signed kinds in two's complement, a boolean as one byte 0 / 1.  [None]
    stands for the host refusing a value outside the range of the kind
    (spec 4.1, inclusive minimum and maximum): a value that [size p] bytes
    cannot hold is not written. *)
Definition pack (p : t) (n : Z) : option (list byte) :=
  match p with
  | boolean => Some [if n =? 0 then Byte.x00 else Byte.x01]
  | _ => if (min_value p <=? n) && (n <=? max_value p)
         then Some (le_split (size p) n)
         else None
  end.

(** Modelled from the spec: the value of [size p] little-endian bytes
    (spec 4.2). *)
Definition unpack (p : t) (bs : list byte) : Z :=
  let u := le_combine bs in
  match p with
  | boolean => if u =? 0 then 0 else 1
  | _ => if signed p && (2 ^ (bits p - 1) <=? u) then u - 2 ^ bits p else u
  end.

(** Modelled from the spec: the codecs of the three offset kinds (spec 3:
    VOffset unsigned 16-bit, SOffset signed 32-bit, UOffset unsigned
    32-bit). *)
Definition voffset : t := uint16.
(** Modelled from the spec: the codec of SOffset (spec 3). *)
Definition soffset : t := int32.
(** Modelled from the spec: the codec of UOffset (spec 3). *)
Definition uoffset : t := uint32.

(** Modelled from the spec: the codecs of the two floating kinds of
    [packer.py], IEEE-754 single and double (spec 3 and 4.2).  The value
    they pack is a Python float; the payload and the sign of a NaN are not
    told apart. *)
Inductive float_t : Set :=
| float32 | float64.

(** Modelled from the spec: the byte width of a floating kind (spec 3). *)
Definition float_size (p : float_t) : nat :=
  match p with
  | float32 => 4
  | float64 => 8
  end%nat.

(** Modelled from the spec: the precision of a floating kind, in bits, the
    implicit leading bit counted (IEEE-754 single and double). *)
Definition float_prec (p : float_t) : Z :=
  match p with
  | float32 => 24
  | float64 => 53
  end.

(** Modelled from the spec: the exponent of the infinities of a floating
    kind (IEEE-754 single and double). *)
Definition float_emax (p : float_t) : Z :=
  match p with
  | float32 => 128
  | float64 => 1024
  end.

(** Modelled from the spec: a float as the nearest value of the kind, ties
    to even; a finite value too large for the kind becomes an infinity. *)
Definition float_round (p : float_t) (x : spec_float) : spec_float :=
  match x with
  | S754_finite s m e => binary_round (float_prec p) (float_emax p) s m e
  | _ => x
  end.

(** Modelled from the spec: the IEEE-754 bit pattern of a value of the
    kind: the sign, the biased exponent, the mantissa without its leading
    bit.  A NaN is the quiet NaN of [float('nan')]. *)
Definition float_bits (p : float_t) (x : spec_float) : Z :=
  let mw := float_prec p - 1 in
  let ew := 8 * Z.of_nat (float_size p) - float_prec p in
  let emin := 3 - float_emax p - float_prec p in
  let sign (s : bool) := if s then 2 ^ (mw + ew) else 0 in
  match x with
  | S754_zero s => sign s
  | S754_infinity s => sign s + (2 ^ ew - 1) * 2 ^ mw
  | S754_nan => (2 ^ ew - 1) * 2 ^ mw + 2 ^ (mw - 1)
  | S754_finite s m e =>
      if Zpos m <? 2 ^ mw then sign s + Zpos m
      else sign s + (e - emin + 1) * 2 ^ mw + (Zpos m - 2 ^ mw)
  end.

(** Modelled from the spec: the value of an IEEE-754 bit pattern of the
    kind. *)
Definition float_of_bits (p : float_t) (u : Z) : spec_float :=
  let mw := float_prec p - 1 in
  let ew := 8 * Z.of_nat (float_size p) - float_prec p in
  let emin := 3 - float_emax p - float_prec p in
  let s := Z.testbit u (mw + ew) in
  let ex := (u / 2 ^ mw) mod 2 ^ ew in
  let frac := u mod 2 ^ mw in
  if ex =? 0 then
    match frac with
    | Zpos m => S754_finite s m emin
    | _ => S754_zero s
    end
  else if ex =? 2 ^ ew - 1 then
    if frac =? 0 then S754_infinity s else S754_nan
  else
    match frac + 2 ^ mw with
    | Zpos m => S754_finite s m (ex + emin - 1)
    | _ => S754_nan
    end.

(** Modelled from the spec: the little-endian bytes of a float (spec 4.2),
    rounded to the kind first.  [None] stands for the host refusing a finite
    value too large for the kind. *)
Definition pack_float (p : float_t) (x : spec_float) : option (list byte) :=
  let y := float_round p x in
  match x, y with
  | S754_finite _ _ _, S754_infinity _ => None
  | _, _ => Some (le_split (float_size p) (float_bits p y))
  end.

(** Modelled from the spec: the float that [float_size p] little-endian
    bytes hold (spec 4.2), as a Python float. *)
Definition unpack_float (p : float_t) (bs : list byte) : spec_float :=
  float_round float64 (float_of_bits p (le_combine bs)).

End packer.

Module encode.

(** Modelled from the spec: [encode.py] is not among the sources.  Where the
    [size p] bytes at byte index [head] lie in the buffer.  Spec 4.2: no
    bounds checking beyond what the host buffer provides; the host raises
    when the bytes do not lie inside the buffer, and takes a negative index
    from the end of the buffer (no property below reads or writes at a
    negative index). *)
Definition locate (p : packer.t) (buf : list byte) (head : Z) : option nat :=
  let off := if head <? 0 then head + len buf else head in
  if (0 <=? off) && (off + Z.of_nat (packer.size p) <=? len buf)
  then Some (Z.to_nat off)
  else None.

(** Modelled from the spec: [read(kind, buf, i)] reads [kind.byte_width]
    bytes little-endian at byte index [i] (spec 4.2). *)
Definition Get (p : packer.t) (buf : list byte) (head : Z) : result Z :=
  match locate p buf head with
  | Some off => Ok (packer.unpack p (firstn (packer.size p) (skipn off buf)))
  | None => Raise StructError
  end.

(** Modelled from the spec: [write(kind, buf, i, value)] writes
    [kind.byte_width] little-endian bytes at byte index [i] (spec 4.2). *)
Definition Write (p : packer.t) (buf : list byte) (head : Z) (n : Z)
  : result (list byte) :=
  match locate p buf head, packer.pack p n with
  | Some off, Some bs =>
      Ok (firstn off buf ++ bs ++ skipn (off + packer.size p) buf)
  | _, _ => Raise StructError
  end.

(** Modelled from the spec: [locate] for a floating kind. *)
Definition locate_float (p : packer.float_t) (buf : list byte) (head : Z)
  : option nat :=
  let off := if head <? 0 then head + len buf else head in
  if (0 <=? off) && (off + Z.of_nat (packer.float_size p) <=? len buf)
  then Some (Z.to_nat off)
  else None.

(** Modelled from the spec: [read(kind, buf, i)] for a floating kind
    (spec 4.2). *)
Definition Get_float (p : packer.float_t) (buf : list byte) (head : Z)
  : result spec_float :=
  match locate_float p buf head with
  | Some off =>
      Ok (packer.unpack_float p (firstn (packer.float_size p) (skipn off buf)))
  | None => Raise StructError
  end.

(** Modelled from the spec: [write(kind, buf, i, value)] for a floating
    kind (spec 4.2).  The host refuses a float too large for the kind with
    an [OverflowError]. *)
Definition Write_float (p : packer.float_t) (buf : list byte) (head : Z)
    (x : spec_float) : result (list byte) :=
  match locate_float p buf head, packer.pack_float p x with
  | Some off, Some bs =>
      Ok (firstn off buf ++ bs ++ skipn (off + packer.float_size p) buf)
  | Some _, None => Raise OverflowError
  | None, _ => Raise StructError
  end.

End encode.

(** ** number_types.py *)

(** The descriptor of a scalar kind.  [py_type], the Python type the
    descriptor casts to, has no counterpart here: every value of these
    kinds is a [Z], a boolean being 0 or 1.  The descriptors of the two
    floating kinds, whose bounds are floats, are [FloatFlags] below. *)
Record TypeFlags : Set := mkTypeFlags {
  bytewidth : Z;
  min_val : option Z;
  max_val : option Z;
  name : string;
  packer_type : packer.t
}.

Definition valid_number (self : TypeFlags) (n : Z) : result bool :=
  match min_val self, max_val self with
  | None, None => Ok true
  | Some lo, Some hi => Ok ((lo <=? n) && (n <=? hi))
  | _, _ => Raise TypeError
  end.

Definition enforce_number (self : TypeFlags) (n : Z) : result unit :=
  match min_val self, max_val self with
  | None, None => Ok tt
  | Some lo, Some hi =>
      if negb ((lo <=? n) && (n <=? hi)) then Raise TypeError else Ok tt
  | _, _ => Raise TypeError
  end.

Definition BoolFlags := mkTypeFlags 1 (Some 0) (Some 1) "bool" packer.boolean.
Definition Uint8Flags := mkTypeFlags 1 (Some 0) (Some (2 ^ 8 - 1)) "uint8" packer.uint8.
Definition Uint16Flags := mkTypeFlags 2 (Some 0) (Some (2 ^ 16 - 1)) "uint16" packer.uint16.
Definition Uint32Flags := mkTypeFlags 4 (Some 0) (Some (2 ^ 32 - 1)) "uint32" packer.uint32.
Definition Uint64Flags := mkTypeFlags 8 (Some 0) (Some (2 ^ 64 - 1)) "uint64" packer.uint64.
Definition Int8Flags := mkTypeFlags 1 (Some (- 2 ^ 7)) (Some (2 ^ 7 - 1)) "int8" packer.int8.
Definition Int16Flags := mkTypeFlags 2 (Some (- 2 ^ 15)) (Some (2 ^ 15 - 1)) "int16" packer.int16.
Definition Int32Flags := mkTypeFlags 4 (Some (- 2 ^ 31)) (Some (2 ^ 31 - 1)) "int32" packer.int32.
Definition Int64Flags := mkTypeFlags 8 (Some (- 2 ^ 63)) (Some (2 ^ 63 - 1)) "int64" packer.int64.

(** The descriptor of a floating kind: the same class, its bounds and its
    codec being those of floats. *)
Record FloatFlags : Set := mkFloatFlags {
  float_bytewidth : Z;
  float_min_val : spec_float;
  float_max_val : spec_float;
  float_name : string;
  float_packer_type : packer.float_t
}.

(** The float [3.40282347e+38] of the source, as the binary64 value the
    literal denotes. *)
Definition float32_bound : spec_float := S754_finite false 9007198727438141 75.

(** The float [1.7976931348623157e+308] of the source. *)
Definition float64_bound : spec_float := S754_finite false 9007199254740991 971.

Definition Float32Flags :=
  mkFloatFlags 4 (SFopp float32_bound) float32_bound "float32" packer.float32.
Definition Float64Flags :=
  mkFloatFlags 8 (SFopp float64_bound) float64_bound "float64" packer.float64.

Definition SOffsetTFlags := Int32Flags.
Definition UOffsetTFlags := Uint32Flags.
Definition VOffsetTFlags := Uint16Flags.

(** ** builder.py *)

Module Builder.

(** The slots of a Builder.  [current_vtable] and [objectEnd] are [None]
    while no object is being written. *)
Record t := mk {
  Bytes : list byte;
  current_vtable : option (list Z);
  head : Z;
  minalign : Z;
  objectEnd : option Z;
  vtables : list Z
}.

Definition set_Bytes (x : list byte) (b : t) : t :=
  mk x (current_vtable b) (head b) (minalign b) (objectEnd b) (vtables b).
Definition set_current_vtable (x : option (list Z)) (b : t) : t :=
  mk (Bytes b) x (head b) (minalign b) (objectEnd b) (vtables b).
Definition set_head (x : Z) (b : t) : t :=
  mk (Bytes b) (current_vtable b) x (minalign b) (objectEnd b) (vtables b).
Definition set_minalign (x : Z) (b : t) : t :=
  mk (Bytes b) (current_vtable b) (head b) x (objectEnd b) (vtables b).
Definition set_objectEnd (x : option Z) (b : t) : t :=
  mk (Bytes b) (current_vtable b) (head b) (minalign b) x (vtables b).
Definition set_vtables (x : list Z) (b : t) : t :=
  mk (Bytes b) (current_vtable b) (head b) (minalign b) (objectEnd b) x.

(** A method of the Builder: it reads and updates [self] and either
    returns a value or raises. *)
Definition M (A : Type) : Type := t -> result (A * t).

Definition ret {A} (a : A) : M A := fun self => Ok (a, self).
Definition bind {A B} (m : M A) (k : A -> M B) : M B :=
  fun self =>
    match m self with
    | Ok (a, self') => k a self'
    | Raise e => Raise e
    end.
Definition raise {A} (e : exn) : M A := fun _ => Raise e.
Definition gets {A} (f : t -> A) : M A := fun self => Ok (f self, self).
Definition modify (f : t -> t) : M unit := fun self => Ok (tt, f self).
Definition lift {A} (r : result A) : M A :=
  fun self =>
    match r with
    | Ok a => Ok (a, self)
    | Raise e => Raise e
    end.

Declare Scope builder_scope.
Delimit Scope builder_scope with builder.
Notation "x <- m ;; k" := (bind m (fun x => k))
  (at level 61, m at next level, right associativity) : builder_scope.
Notation "m ;; k" := (bind m (fun _ => k))
  (at level 61, right associativity) : builder_scope.
Local Open Scope builder_scope.

(** [VtableMetadataFields] is the count of metadata fields in each vtable. *)
Definition VtableMetadataFields : Z := 2.

Definition MAX_BUFFER_SIZE : Z := 2 ^ 31.

Definition __init__ (initialSize : Z) : result t :=
  if negb ((0 <=? initialSize) && (initialSize <=? MAX_BUFFER_SIZE))
  then Raise BuilderSizeError
  else
    let bytes := bytearray initialSize in
    Ok (mk bytes None (len bytes) 1 None []).

Definition Output (self : t) : list byte :=
  getslice_from (Bytes self) (head self).

Definition Reset : M unit :=
  modify (fun self => mk (Bytes self) None (len (Bytes self)) 1 None []).

Definition Head (self : t) : Z := head self.

Definition Offset (self : t) : Z := len (Bytes self) - head self.

Definition assertNotNested : M unit :=
  fun self =>
    match current_vtable self with
    | Some _ => Raise ObjectIsNestedError
    | None => Ok (tt, self)
    end.

Definition assertNested (obj : Z) : M unit :=
  fun self =>
    if negb (obj =? Offset self) then Raise StructIsNotInlineError
    else Ok (tt, self).

Definition StartObject (numfields : Z) : M unit :=
  assertNotNested ;;
  modify (fun self =>
    mk (Bytes self) (Some (repeat 0 (Z.to_nat numfields))) (head self)
       1 (Some (Offset self)) (vtables self)).

Definition growByteBuffer (freeSize : Z) : M unit :=
  fun self =>
    let oldSize := len (Bytes self) in
    let newSize :=
      Z.max 1024 (Z.max (oldSize * 2) (oldSize + freeSize - head self)) in
    if newSize >=? MAX_BUFFER_SIZE then Raise BuilderSizeError
    else
      let newBytes := bytearray newSize in
      let newBytes := setslice_from newBytes (newSize - oldSize) (Bytes self) in
      Ok (tt, set_head (head self + (newSize - oldSize)) (set_Bytes newBytes self)).

Fixpoint Pad_loop (indices : list Z) : M unit :=
  match indices with
  | [] => ret tt
  | index :: rest =>
      (fun self =>
         let! bytes := setbyte (Bytes self) index 0 in
         Ok (tt, set_Bytes bytes self)) ;;
      Pad_loop rest
  end.

Definition Pad (n : Z) : M unit :=
  h <- gets head ;;
  Pad_loop (range (h - n) h) ;;
  modify (fun self => set_head (head self - n) self).

Definition Prep (size additionalBytes : Z) : M unit :=
  modify (fun self =>
    if size >? minalign self then set_minalign size self else self) ;;
  alignSize <- gets (fun self =>
    Z.land (Z.lnot (len (Bytes self) - head self + additionalBytes) + 1)
           (size - 1)) ;;
  let totalSize := alignSize + size + additionalBytes in
  h <- gets head ;;
  (if h <? totalSize then growByteBuffer totalSize else ret tt) ;;
  modify (fun self => set_head (head self - alignSize) self).

Definition Place (x : Z) (flags : TypeFlags) : M unit :=
  fun self =>
    let head' := head self - bytewidth flags in
    let! bytes := encode.Write (packer_type flags) (Bytes self) head' x in
    Ok (tt, set_head head' (set_Bytes bytes self)).

Definition PlaceBool (x : Z) : M unit :=
  fun self =>
    let head' := head self - 1 in
    let! bytes := setbyte (Bytes self) head' x in
    Ok (tt, set_head head' (set_Bytes bytes self)).

Definition PlaceUint8 (x : Z) : M unit :=
  fun self =>
    let head' := head self - 1 in
    let! bytes := setbyte (Bytes self) head' x in
    Ok (tt, set_head head' (set_Bytes bytes self)).

Definition PlaceInt8 (x : Z) : M unit :=
  fun self =>
    let head' := head self - 1 in
    let! bytes := setbyte (Bytes self) head' (Z.land x 255) in
    Ok (tt, set_head head' (set_Bytes bytes self)).

Definition PrependSOffsetTRelative (off : Z) : M unit :=
  Prep (bytewidth SOffsetTFlags) 0 ;;
  off2 <- gets (fun self => Offset self - off) ;;
  if negb (off2 >=? 0) then raise OffsetArithmeticError
  else Place (off2 + bytewidth SOffsetTFlags) SOffsetTFlags.

Definition PrependUOffsetTRelative (off : Z) : M unit :=
  Prep (bytewidth UOffsetTFlags) 0 ;;
  off2 <- gets (fun self => Offset self - off) ;;
  if negb (off2 >=? 0) then raise OffsetArithmeticError
  else Place (off2 + bytewidth UOffsetTFlags) UOffsetTFlags.

Definition StartVector (elemSize numElems alignment : Z) : M Z :=
  assertNotNested ;;
  Prep (bytewidth Uint32Flags) (elemSize * numElems) ;;
  Prep alignment (elemSize * numElems) ;;
  gets Offset.

Definition EndVector (vectorNumElems : Z) : M Z :=
  Place vectorNumElems UOffsetTFlags ;;
  gets Offset.

(** [CreateString] on a byte string ([binary_type]). *)
Definition CreateString (s : list byte) : M Z :=
  assertNotNested ;;
  let x := s in
  let l := len x in
  Prep (bytewidth UOffsetTFlags) (l + 1) ;;
  Pad 1 ;;
  modify (fun self => set_head (head self - l) self) ;;
  modify (fun self =>
    set_Bytes (setslice (Bytes self) (head self) (head self + l) x) self) ;;
  EndVector l.

Definition Slot (slotnum : Z) : M unit :=
  fun self =>
    match current_vtable self with
    | None => Raise NotInObjectError
    | Some vt =>
        let! vt' := setitem vt slotnum (Offset self) in
        Ok (tt, set_current_vtable (Some vt') self)
    end.

Definition Finish (rootTable : Z) : M Z :=
  ma <- gets minalign ;;
  Prep ma (bytewidth UOffsetTFlags) ;;
  PrependUOffsetTRelative rootTable ;;
  gets head.

Definition Prepend (flags : TypeFlags) (off : Z) : M unit :=
  Prep (bytewidth flags) 0 ;;
  Place off flags.

Definition PrependBool (x : Z) : M unit :=
  Prep (bytewidth BoolFlags) 0 ;; PlaceBool x.
Definition PrependByte (x : Z) : M unit :=
  Prep (bytewidth Uint8Flags) 0 ;; PlaceUint8 x.
Definition PrependUint8 (x : Z) : M unit :=
  Prep (bytewidth Uint8Flags) 0 ;; PlaceUint8 x.
Definition PrependUint16 (x : Z) : M unit := Prepend Uint16Flags x.
Definition PrependUint32 (x : Z) : M unit := Prepend Uint32Flags x.
Definition PrependUint64 (x : Z) : M unit := Prepend Uint64Flags x.
Definition PrependInt8 (x : Z) : M unit :=
  Prep (bytewidth Int8Flags) 0 ;; PlaceInt8 x.
Definition PrependInt16 (x : Z) : M unit := Prepend Int16Flags x.
Definition PrependInt32 (x : Z) : M unit := Prepend Int32Flags x.
Definition PrependInt64 (x : Z) : M unit := Prepend Int64Flags x.
Definition PrependVOffsetT (x : Z) : M unit := Prepend VOffsetTFlags x.

(** [Place] and [Prepend] at a floating kind.  Python's one definition
    serves every kind; here the value is typed, an integer above and a
    float in these. *)
Definition Place_float (x : spec_float) (flags : FloatFlags) : M unit :=
  fun self =>
    let head' := head self - float_bytewidth flags in
    let! bytes :=
      encode.Write_float (float_packer_type flags) (Bytes self) head' x in
    Ok (tt, set_head head' (set_Bytes bytes self)).

Definition Prepend_float (flags : FloatFlags) (off : spec_float) : M unit :=
  Prep (float_bytewidth flags) 0 ;;
  Place_float off flags.

Definition PrependFloat32 (x : spec_float) : M unit := Prepend_float Float32Flags x.
Definition PrependFloat64 (x : spec_float) : M unit := Prepend_float Float64Flags x.

Definition PrependSlot (flags : TypeFlags) (o x d : Z) : M unit :=
  if negb (x =? d) then Prepend flags x ;; Slot o else ret tt.

Definition PrependBoolSlot (o x d : Z) : M unit :=
  if negb (x =? d) then PrependBool x ;; Slot o else ret tt.
Definition PrependByteSlot (o x d : Z) : M unit :=
  if negb (x =? d) then PrependByte x ;; Slot o else ret tt.
Definition PrependUint8Slot (o x d : Z) : M unit :=
  if negb (x =? d) then PrependUint8 x ;; Slot o else ret tt.
Definition PrependUint16Slot (o x d : Z) : M unit := PrependSlot Uint16Flags o x d.
Definition PrependUint32Slot (o x d : Z) : M unit := PrependSlot Uint32Flags o x d.
Definition PrependUint64Slot (o x d : Z) : M unit := PrependSlot Uint64Flags o x d.
Definition PrependInt8Slot (o x d : Z) : M unit :=
  if negb (x =? d) then PrependInt8 x ;; Slot o else ret tt.
Definition PrependInt16Slot (o x d : Z) : M unit := PrependSlot Int16Flags o x d.
Definition PrependInt32Slot (o x d : Z) : M unit := PrependSlot Int32Flags o x d.
Definition PrependInt64Slot (o x d : Z) : M unit := PrependSlot Int64Flags o x d.

(** [PrependSlot] at a floating kind: [x != d] on floats is IEEE
    inequality, which holds of a NaN and itself. *)
Definition PrependSlot_float (flags : FloatFlags) (o : Z) (x d : spec_float)
  : M unit :=
  if negb (SFeqb x d) then Prepend_float flags x ;; Slot o else ret tt.

Definition PrependFloat32Slot (o : Z) (x d : spec_float) : M unit :=
  PrependSlot_float Float32Flags o x d.
Definition PrependFloat64Slot (o : Z) (x d : spec_float) : M unit :=
  PrependSlot_float Float64Flags o x d.

Definition PrependUOffsetTRelativeSlot (o x d : Z) : M unit :=
  if negb (x =? d) then PrependUOffsetTRelative x ;; Slot o else ret tt.

Definition PrependStructSlot (v x d : Z) : M unit :=
  if negb (x =? d) then assertNested x ;; Slot v else ret tt.

(** The body of the [for i, elem in enumerate(a)] loop of [vtableEqual],
    from index [i] on. *)
Fixpoint vtableEqual_loop (i : Z) (a : list Z) (objectStart : Z) (b : list byte)
  : result bool :=
  match a with
  | [] => Ok true
  | elem :: a' =>
      let! x := encode.Get packer.voffset b (i * bytewidth VOffsetTFlags) in
      if (x =? 0) && (elem =? 0) then vtableEqual_loop (i + 1) a' objectStart b
      else
        let y := objectStart - elem in
        if negb (x =? y) then Ok false
        else vtableEqual_loop (i + 1) a' objectStart b
  end.

(** [vtableEqual] compares an unwritten vtable to a written vtable. *)
Definition vtableEqual (a : list Z) (objectStart : Z) (b : list byte)
  : result bool :=
  if negb (len a * bytewidth VOffsetTFlags =? len b) then Ok false
  else vtableEqual_loop 0 a objectStart b.

(** The search loop of [WriteVtable] over [reversed(self.vtables)]: the
    first vtable equal to the current one, if any. *)
Fixpoint find_existing (candidates : list Z) (bytes : list byte)
    (cur : option (list Z)) (objectOffset : Z) : result (option Z) :=
  match candidates with
  | [] => Ok None
  | vt2Offset :: rest =>
      let vt2Start := len bytes - vt2Offset in
      let! vt2Len := encode.Get packer.voffset bytes vt2Start in
      let metadata := VtableMetadataFields * bytewidth VOffsetTFlags in
      let vt2End := vt2Start + vt2Len in
      let vt2 := getslice bytes (vt2Start + metadata) vt2End in
      match cur with
      | None => Raise TypeError
      | Some a =>
          let! eq := vtableEqual a objectOffset vt2 in
          if eq then Ok (Some vt2Offset)
          else find_existing rest bytes cur objectOffset
      end
  end.

(** The loop of [WriteVtable] that writes the field entries, over
    [reversed(self.current_vtable)]. *)
Fixpoint write_fields (offs : list Z) (objectOffset : Z) : M unit :=
  match offs with
  | [] => ret tt
  | off :: rest =>
      PrependVOffsetT (if negb (off =? 0) then objectOffset - off else off) ;;
      write_fields rest objectOffset
  end.

Definition WriteVtable : M Z :=
  PrependSOffsetTRelative 0 ;;
  objectOffset <- gets Offset ;;
  existingVtable <- (fun self =>
    let! r := find_existing (rev (vtables self)) (Bytes self)
                (current_vtable self) objectOffset in
    Ok (r, self)) ;;
  match existingVtable with
  | None =>
      cur <- (fun self =>
        match current_vtable self with
        | Some cur => Ok (cur, self)
        | None => Raise TypeError
        end) ;;
      write_fields (rev cur) objectOffset ;;
      oe <- (fun self =>
        match objectEnd self with
        | Some oe => Ok (oe, self)
        | None => Raise TypeError
        end) ;;
      PrependVOffsetT (objectOffset - oe) ;;
      let vBytes := len cur + VtableMetadataFields in
      let vBytes := vBytes * bytewidth VOffsetTFlags in
      PrependVOffsetT vBytes ;;
      (fun self =>
         let! bytes := encode.Write packer.soffset (Bytes self)
                         (len (Bytes self) - objectOffset)
                         (Offset self - objectOffset) in
         Ok (tt, set_Bytes bytes self)) ;;
      modify (fun self => set_vtables (vtables self ++ [Offset self]) self)
  | Some existingVtable =>
      modify (fun self => set_head (len (Bytes self) - objectOffset) self) ;;
      (fun self =>
         let! bytes := encode.Write packer.soffset (Bytes self) (head self)
                         (existingVtable - objectOffset) in
         Ok (tt, set_Bytes bytes self))
  end ;;
  modify (set_current_vtable None) ;;
  ret objectOffset.

Definition EndObject : M Z :=
  fun self =>
    match current_vtable self with
    | None => Raise NotInObjectError
    | Some _ => WriteVtable self
    end.

End Builder.

(** ** table.py *)

Module Table.

(** [Table] wraps a byte slice; [Pos] is the root of the object therein. *)
Record t := mk {
  Bytes : list byte;
  Pos : Z
}.

Definition __init__ (buf : list byte) (pos : Z) : result t :=
  let! _ := enforce_number UOffsetTFlags pos in
  Ok (mk buf pos).

Definition GetRoot (buf : list byte) (offset : Z) : result t :=
  let! n := encode.Get (packer_type UOffsetTFlags) buf offset in
  __init__ buf (n + offset).

Definition Get (self : t) (flags : TypeFlags) (off : Z) : result Z :=
  let off := off + Pos self in
  encode.Get (packer_type flags) (Bytes self) off.

Definition Offset (self : t) (vtableOffset : Z) : result Z :=
  let! so := encode.Get (packer_type SOffsetTFlags) (Bytes self) (Pos self) in
  let vtable := Pos self - so in
  let! vtableEnd := encode.Get (packer_type VOffsetTFlags) (Bytes self) vtable in
  if vtableOffset <? vtableEnd
  then encode.Get (packer_type VOffsetTFlags) (Bytes self) (vtable + vtableOffset)
  else Ok 0.

Definition Indirect (self : t) (off : Z) : result Z :=
  let! u := Get self UOffsetTFlags off in
  Ok (off + u).

Definition String (self : t) (off : Z) : result (list byte) :=
  let! u := Get self UOffsetTFlags off in
  let off := off + u in
  let! length := Get self UOffsetTFlags off in
  let start := Pos self + off + bytewidth UOffsetTFlags in
  Ok (getslice (Bytes self) start (start + length)).

Definition VectorLen (self : t) (off : Z) : result Z :=
  let! u := Get self UOffsetTFlags off in
  let off := off + u in
  let! ret := Get self UOffsetTFlags off in
  Ok ret.

Definition Vector (self : t) (off : Z) : result Z :=
  let! u := Get self UOffsetTFlags off in
  let x := off + u in
  let x := x + bytewidth UOffsetTFlags in
  Ok x.

Definition Union (self : t) (off : Z) : result t :=
  let! u := Get self UOffsetTFlags off in
  let off := off + u in
  __init__ (Bytes self) (Pos self + off).

Definition GetBool (self : t) (off : Z) := Get self BoolFlags off.
Definition GetByte (self : t) (off : Z) := Get self Uint8Flags off.
Definition GetUint8 (self : t) (off : Z) := Get self Uint8Flags off.
Definition GetUint16 (self : t) (off : Z) := Get self Uint16Flags off.
Definition GetUint32 (self : t) (off : Z) := Get self Uint32Flags off.
Definition GetUint64 (self : t) (off : Z) := Get self Uint64Flags off.
Definition GetInt8 (self : t) (off : Z) := Get self Int8Flags off.
Definition GetInt16 (self : t) (off : Z) := Get self Int16Flags off.
Definition GetInt32 (self : t) (off : Z) := Get self Int32Flags off.
Definition GetInt64 (self : t) (off : Z) := Get self Int64Flags off.
Definition GetUOffsetT (self : t) (off : Z) := Get self UOffsetTFlags off.
Definition GetVOffsetT (self : t) (off : Z) := Get self VOffsetTFlags off.
Definition GetSOffsetT (self : t) (off : Z) := Get self SOffsetTFlags off.

(** [Get] at a floating kind. *)
Definition Get_float (self : t) (flags : FloatFlags) (off : Z)
  : result spec_float :=
  let off := off + Pos self in
  encode.Get_float (float_packer_type flags) (Bytes self) off.

Definition GetFloat32 (self : t) (off : Z) := Get_float self Float32Flags off.
Definition GetFloat64 (self : t) (off : Z) := Get_float self Float64Flags off.

Definition GetSlot (self : t) (flags : TypeFlags) (slot d : Z) : result Z :=
  let! off := Offset self slot in
  if off =? 0 then Ok d
  else Get self flags off.

Definition GetBoolSlot (self : t) (slot d : Z) := GetSlot self BoolFlags slot d.
Definition GetByteSlot (self : t) (slot d : Z) := GetSlot self Uint8Flags slot d.
Definition GetUint8Slot (self : t) (slot d : Z) := GetSlot self Uint8Flags slot d.
Definition GetUint16Slot (self : t) (slot d : Z) := GetSlot self Uint16Flags slot d.
Definition GetUint32Slot (self : t) (slot d : Z) := GetSlot self Uint32Flags slot d.
Definition GetUint64Slot (self : t) (slot d : Z) := GetSlot self Uint64Flags slot d.
Definition GetInt8Slot (self : t) (slot d : Z) := GetSlot self Int8Flags slot d.
Definition GetInt16Slot (self : t) (slot d : Z) := GetSlot self Int16Flags slot d.
Definition GetInt32Slot (self : t) (slot d : Z) := GetSlot self Int32Flags slot d.
Definition GetInt64Slot (self : t) (slot d : Z) := GetSlot self Int64Flags slot d.

(** [GetSlot] at a floating kind. *)
Definition GetSlot_float (self : t) (flags : FloatFlags) (slot : Z)
    (d : spec_float) : result spec_float :=
  let! off := Offset self slot in
  if off =? 0 then Ok d
  else Get_float self flags off.

Definition GetFloat32Slot (self : t) (slot : Z) (d : spec_float) :=
  GetSlot_float self Float32Flags slot d.
Definition GetFloat64Slot (self : t) (slot : Z) (d : spec_float) :=
  GetSlot_float self Float64Flags slot d.

Definition GetVOffsetTSlot (self : t) (slot d : Z) : result Z :=
  let! off := Offset self slot in
  if off =? 0 then Ok d
  else Ok off.

End Table.

(** ** Generated accessors: tests/MyGame/Example *)

Module Stat.

(** [Stat] wraps the [Table] of a [Stat] object. *)
Record t := mk { _tab : Table.t }.

Definition GetRootAsStat (buf : list byte) (offset : Z) : result t :=
  let! tab := Table.GetRoot buf offset in
  Ok (mk tab).

Definition Id (self : t) : result (list byte) :=
  let! o := Table.Offset (_tab self) 4 in
  if negb (o =? 0) then Table.String (_tab self) o
  else Ok [].

Definition Val (self : t) : result Z :=
  let! o := Table.Offset (_tab self) 6 in
  if negb (o =? 0) then Table.GetInt64 (_tab self) o
  else Ok 0.

Definition Count (self : t) : result Z :=
  let! o := Table.Offset (_tab self) 8 in
  if negb (o =? 0) then Table.GetUint16 (_tab self) o
  else Ok 0.

(** [CreateStat(builder, id=None, val=None, count=None)]: an argument left
    at [None] is not written. *)
Definition CreateStat (id val count : option Z) : Builder.M Z :=
  Builder.bind (Builder.StartObject 3) (fun _ =>
  Builder.bind (match id with
                | Some id => Builder.PrependUOffsetTRelativeSlot 0 id 0
                | None => Builder.ret tt
                end) (fun _ =>
  Builder.bind (match val with
                | Some val => Builder.PrependInt64Slot 1 val 0
                | None => Builder.ret tt
                end) (fun _ =>
  Builder.bind (match count with
                | Some count => Builder.PrependUint16Slot 2 count 0
                | None => Builder.ret tt
                end) (fun _ =>
  Builder.EndObject)))).

Definition StatStart : Builder.M unit := Builder.StartObject 3.
Definition StatAddId (id : Z) : Builder.M unit :=
  Builder.PrependUOffsetTRelativeSlot 0 id 0.
Definition StatAddVal (val : Z) : Builder.M unit :=
  Builder.PrependInt64Slot 1 val 0.
Definition StatAddCount (count : Z) : Builder.M unit :=
  Builder.PrependUint16Slot 2 count 0.
Definition StatEnd : Builder.M Z := Builder.EndObject.

End Stat.

Module TestSimpleTableWithEnum.

(** [TestSimpleTableWithEnum] wraps the [Table] of its object. *)
Record t := mk { _tab : Table.t }.

Definition GetRootAsTestSimpleTableWithEnum (buf : list byte) (offset : Z)
  : result t :=
  let! tab := Table.GetRoot buf offset in
  Ok (mk tab).

Definition Color (self : t) : result Z :=
  let! o := Table.Offset (_tab self) 4 in
  if negb (o =? 0) then Table.GetInt8 (_tab self) o
  else Ok 2.

Definition CreateTestSimpleTableWithEnum (color : option Z) : Builder.M Z :=
  Builder.bind (Builder.StartObject 1) (fun _ =>
  Builder.bind (match color with
                | Some color => Builder.PrependInt8Slot 0 color 2
                | None => Builder.ret tt
                end) (fun _ =>
  Builder.EndObject)).

Definition TestSimpleTableWithEnumStart : Builder.M unit :=
  Builder.StartObject 1.
Definition TestSimpleTableWithEnumAddColor (color : Z) : Builder.M unit :=
  Builder.PrependInt8Slot 0 color 2.
Definition TestSimpleTableWithEnumEnd : Builder.M Z := Builder.EndObject.

End TestSimpleTableWithEnum.

(** ** Notions used to state the properties *)

(** Spec 4.2, [read(kind, buf, i)] at the three offset kinds. *)
Definition read_uoffset (buf : list byte) (i : Z) : result Z :=
  encode.Get packer.uoffset buf i.
Definition read_soffset (buf : list byte) (i : Z) : result Z :=
  encode.Get packer.soffset buf i.
Definition read_voffset (buf : list byte) (i : Z) : result Z :=
  encode.Get packer.voffset buf i.

(** Spec 4.4: an offset stored in the buffer is measured from the position
    of the offset word itself toward the target.  [uoffset_target buf p] is
    the absolute position the UOffset stored at absolute position [p]
    points to. *)
Definition uoffset_target (buf : list byte) (p : Z) : result Z :=
  let! u := read_uoffset buf p in
  Ok (p + u).

(** Spec 3, Vector: a 4-byte element count, then the elements.  The absolute
    position of the first element of the vector that the UOffset at absolute
    position [p] points to. *)
Definition vector_first_element (buf : list byte) (p : Z) : result Z :=
  let! v := uoffset_target buf p in
  Ok (v + 4).

(** Spec 3 and 4.3.1: [head] lies in [0, L]. *)
Definition wf (b : Builder.t) : Prop :=
  0 <= Builder.head b <= len (Builder.Bytes b).

(** The byte at absolute index [i] of a buffer. *)
Definition byte_at (buf : list byte) (i : Z) : option byte :=
  if i <? 0 then None else nth_error buf (Z.to_nat i).

(** The table used to tell positions relative to [Pos] from absolute ones:
    its object starts at [Pos = 4]; the UOffset there has value 8 and so
    points to absolute position 12, where a vector of length 2 starts. *)
Definition table_at_4 : Table.t :=
  Table.mk
    [Byte.x00; Byte.x00; Byte.x00; Byte.x00;
     Byte.x08; Byte.x00; Byte.x00; Byte.x00;
     Byte.x00; Byte.x00; Byte.x00; Byte.x00;
     Byte.x02; Byte.x00; Byte.x00; Byte.x00;
     Byte.x61; Byte.x62; Byte.x00; Byte.x00] 4.

(** The size [growByteBuffer(freeSize)] computes for the new buffer. *)
Definition grow_size (freeSize : Z) (b : Builder.t) : Z :=
  let oldSize := len (Builder.Bytes b) in
  Z.max 1024 (Z.max (oldSize * 2) (oldSize + freeSize - Builder.head b)).

(** The scalar kinds, each with the [Prepend<K>Slot] method of the Builder
    and the [Get<K>Slot] method of the Table that the generated accessors
    call for it. *)
Inductive kind : Set :=
| KBool | KByte | KUint8 | KUint16 | KUint32 | KUint64
| KInt8 | KInt16 | KInt32 | KInt64
| KFloat32 | KFloat64.

(** The values of a kind: floats for the two floating kinds, integers for
    the others. *)
Definition value (K : kind) : Set :=
  match K with
  | KFloat32 | KFloat64 => spec_float
  | _ => Z
  end.

(** Whether a value of the kind is a floating-point NaN. *)
Definition is_nan (K : kind) : value K -> bool :=
  match K with
  | KFloat32 | KFloat64 =>
      fun d => match d with S754_nan => true | _ => false end
  | _ => fun _ => false
  end.

Definition PrependKSlot (K : kind) : Z -> value K -> value K -> Builder.M unit :=
  match K with
  | KBool => Builder.PrependBoolSlot
  | KByte => Builder.PrependByteSlot
  | KUint8 => Builder.PrependUint8Slot
  | KUint16 => Builder.PrependUint16Slot
  | KUint32 => Builder.PrependUint32Slot
  | KUint64 => Builder.PrependUint64Slot
  | KInt8 => Builder.PrependInt8Slot
  | KInt16 => Builder.PrependInt16Slot
  | KInt32 => Builder.PrependInt32Slot
  | KInt64 => Builder.PrependInt64Slot
  | KFloat32 => Builder.PrependFloat32Slot
  | KFloat64 => Builder.PrependFloat64Slot
  end.

Definition GetKSlot (K : kind) : Table.t -> Z -> value K -> result (value K) :=
  match K with
  | KBool => Table.GetBoolSlot
  | KByte => Table.GetByteSlot
  | KUint8 => Table.GetUint8Slot
  | KUint16 => Table.GetUint16Slot
  | KUint32 => Table.GetUint32Slot
  | KUint64 => Table.GetUint64Slot
  | KInt8 => Table.GetInt8Slot
  | KInt16 => Table.GetInt16Slot
  | KInt32 => Table.GetInt32Slot
  | KInt64 => Table.GetInt64Slot
  | KFloat32 => Table.GetFloat32Slot
  | KFloat64 => Table.GetFloat64Slot
  end.

(** [current_vtable[i]] for a slot index [i >= 0]. *)
Definition vtable_slot (b : Builder.t) (i : Z) : option Z :=
  match Builder.current_vtable b with
  | Some vt => if i <? 0 then None else nth_error vt (Z.to_nat i)
  | None => None
  end.

(** The padding [Prep(size, additionalBytes)] computes, as the source
    writes it: a two's-complement negation masked by [size - 1]. *)
Definition alignSize (size additionalBytes : Z) (b : Builder.t) : Z :=
  Z.land
    (Z.lnot (len (Builder.Bytes b) - Builder.head b + additionalBytes) + 1)
    (size - 1).

(** The state [Prep(size, additionalBytes)] returns in, when it returns. *)
Definition Prep_state (size additionalBytes : Z) (b : Builder.t) : Builder.t :=
  let pad := alignSize size additionalBytes b in
  let totalSize := pad + size + additionalBytes in
  let grown :=
    if Builder.head b <? totalSize
    then grow_size totalSize b - len (Builder.Bytes b)
    else 0 in
  Builder.mk (bytearray grown ++ Builder.Bytes b)
    (Builder.current_vtable b)
    (Builder.head b + grown - pad)
    (Z.max (Builder.minalign b) size)
    (Builder.objectEnd b)
    (Builder.vtables b).

(** [b2] is [b1] after the [n] bytes [bs] were written just below [head]:
    [head] has moved down by [n] and nothing else has changed. *)
Definition prepended (bs : list byte) (b1 b2 : Builder.t) : Prop :=
  Builder.head b2 = Builder.head b1 - len bs /\
  Builder.Bytes b2 =
    firstn (Z.to_nat (Builder.head b1 - len bs)) (Builder.Bytes b1)
      ++ bs ++ skipn (Z.to_nat (Builder.head b1)) (Builder.Bytes b1) /\
  len (Builder.Bytes b2) = len (Builder.Bytes b1) /\
  Builder.Output b2 = bs ++ Builder.Output b1 /\
  Builder.current_vtable b2 = Builder.current_vtable b1 /\
  Builder.minalign b2 = Builder.minalign b1 /\
  Builder.objectEnd b2 = Builder.objectEnd b1 /\
  Builder.vtables b2 = Builder.vtables b1.

(** [Builder()]: the constructor with its default [initialSize=1024]. *)
Definition fresh_Builder : result Builder.t := Builder.__init__ 1024.

(** Scenario S1 of the spec, the minimal table:
    [StartObject(3); root = EndObject(); Finish(root)], then [Output()]. *)
Definition minimal_table : Builder.M (list byte) :=
  Builder.bind (Builder.StartObject 3) (fun _ =>
  Builder.bind Builder.EndObject (fun root =>
  Builder.bind (Builder.Finish root) (fun _ =>
  Builder.gets Builder.Output))).

(** What a method returns when run on the Builder [r], if there is one. *)
Definition run_on {A} (r : result Builder.t) (m : Builder.M A) : result A :=
  let! b := r in
  let! res := m b in
  Ok (fst res).

(** [b'] is a later state of [b] in which the bytes [bs] have been written
    in front of the written region, whatever the buffer has grown by: the
    object in progress and the list of vtables are the same. *)
Definition pushed (bs : list byte) (b b' : Builder.t) : Prop :=
  wf b' /\
  Builder.Output b' = bs ++ Builder.Output b /\
  Builder.current_vtable b' = Builder.current_vtable b /\
  Builder.objectEnd b' = Builder.objectEnd b /\
  Builder.vtables b' = Builder.vtables b.

(** The Offset at which [WriteVtable] places the 4-byte object header:
    the current Offset, aligned to 4, plus the header itself. *)
Definition header_offset (b : Builder.t) : Z :=
  Builder.Offset b + (- Builder.Offset b) mod 4 + 4.

(** The field entries [WriteVtable] writes for the slots [cur] of an object
    whose header is at [objectOffset]: 0 for an omitted slot, else
    [objectOffset - fieldOffset]. *)
Definition field_entries (cur : list Z) (objectOffset : Z) : list Z :=
  map (fun off => if negb (off =? 0) then objectOffset - off else off) cur.

(** The bytes of a vtable: its byte size, the object's byte size, then the
    field entries, each a little-endian VOffset. *)
Definition vtable_bytes (cur : list Z) (objectOffset objectEnd : Z) : list byte :=
  le_split 2 ((len cur + 2) * 2)
    ++ le_split 2 (objectOffset - objectEnd)
    ++ concat (map (le_split 2) (field_entries cur objectOffset)).



(** The state a method leaves the Builder in (the Builder itself where the
    method raises). *)
Definition exec {A} (m : Builder.M A) (b : Builder.t) : Builder.t :=
  match m b with
  | Ok (_, b') => b'
  | Raise _ => b
  end.

(** [CreateStat(builder, id=None, val=100, count=5)] of
    [tests/MyGame/Example/Stat.py], up to its [EndObject]. *)
Definition stat_fields : Builder.M unit :=
  Builder.bind (Builder.StartObject 3) (fun _ =>
  Builder.bind (Builder.PrependInt64Slot 1 100 0) (fun _ =>
  Builder.PrependUint16Slot 2 5 0)).

(** Scenario S5 of the spec on [Builder(64)]: the first [Stat] with its
    fields written, the first [Stat] finished, and the second [Stat] with
    its fields written. *)
Definition stat1_open : Builder.t :=
  exec stat_fields (Builder.mk (bytearray 64) None 64 1 None []).
Definition stat1_done : Builder.t := exec Builder.EndObject stat1_open.
Definition stat2_open : Builder.t := exec stat_fields stat1_done.

(** The descriptors of the eight integer kinds. *)
Definition integer_flags : list TypeFlags :=
  [Uint8Flags; Uint16Flags; Uint32Flags; Uint64Flags;
   Int8Flags; Int16Flags; Int32Flags; Int64Flags].

(** [Builder(64)] after [CreateString(b"ab")], which returned the Offset 8;
    then after [CreateStat(builder, 8, 100, 5)], which returns 32; then
    after [Finish(32)]. *)
Definition stat_id_start : Builder.t :=
  Builder.mk
    (bytearray 56 ++ [Byte.x02; Byte.x00; Byte.x00; Byte.x00;
                      Byte.x61; Byte.x62; Byte.x00; Byte.x00])
    None 56 4 None [].
Definition stat_id_created : Builder.t :=
  exec (Stat.CreateStat (Some 8) (Some 100) (Some 5)) stat_id_start.
Definition stat_id_finished : Builder.t :=
  exec (Builder.Finish 32) stat_id_created.

(** [minalign] is a power of two, as it is in every state reached with
    power-of-two sizes and alignments. *)
Definition aligned (b : Builder.t) : Prop :=
  exists k, 0 <= k /\ Builder.minalign b = 2 ^ k.

(** The written region holds, at Offset [e], the value [v] of kind [p]. *)
Definition field_holds (b : Builder.t) (p : packer.t) (e v : Z) : Prop :=
  0 < e <= Builder.Offset b /\
  encode.Get p (Builder.Output b) (Builder.Offset b - e) = Ok v.

(** The written region holds, at Offset [e], the 4-byte length prefix and
    then the bytes of the string [s]. *)
Definition string_at (b : Builder.t) (e : Z) (s : list byte) : Prop :=
  0 < e <= Builder.Offset b /\
  len s <= 2 ^ 32 - 1 /\
  exists front rest,
    Builder.Output b = front ++ le_split 4 (len s) ++ s ++ rest /\
    len front = Builder.Offset b - e.

(** The invariant of the states of a Builder: [head] lies in the buffer,
    [minalign] is a power of two, and every recorded vtable lies in the
    written region. *)
Definition builder_inv (b : Builder.t) : Prop :=
  wf b /\ aligned b /\
  Forall (fun ev => 0 < ev <= Builder.Offset b) (Builder.vtables b).

(** The calls with which a user of the Builder writes scalars, strings,
    objects and the root.  [CPrependByte] stands for [PrependByte],
    [PrependUint8] and [PrependBool], which are the same code. *)
Inductive call : Type :=
| CStartObject (numfields : Z)
| CSlot (slotnum : Z)
| CPrepend (flags : TypeFlags) (x : Z)
| CPrependByte (x : Z)
| CPrependInt8 (x : Z)
| CPrependSlot (flags : TypeFlags) (o x d : Z)
| CPrependUOffsetTRelative (off : Z)
| CPrependUOffsetTRelativeSlot (o x d : Z)
| CPrependStructSlot (v x d : Z)
| CCreateString (s : list byte)
| CEndObject
| CFinish (rootTable : Z).

(** A call as a method of the Builder; the value it returns is dropped. *)
Definition run_call (c : call) : Builder.M unit :=
  match c with
  | CStartObject n => Builder.StartObject n
  | CSlot i => Builder.Slot i
  | CPrepend flags x => Builder.Prepend flags x
  | CPrependByte x => Builder.PrependByte x
  | CPrependInt8 x => Builder.PrependInt8 x
  | CPrependSlot flags o x d => Builder.PrependSlot flags o x d
  | CPrependUOffsetTRelative off => Builder.PrependUOffsetTRelative off
  | CPrependUOffsetTRelativeSlot o x d => Builder.PrependUOffsetTRelativeSlot o x d
  | CPrependStructSlot v x d => Builder.PrependStructSlot v x d
  | CCreateString s => Builder.bind (Builder.CreateString s) (fun _ => Builder.ret tt)
  | CEndObject => Builder.bind Builder.EndObject (fun _ => Builder.ret tt)
  | CFinish root => Builder.bind (Builder.Finish root) (fun _ => Builder.ret tt)
  end.

(** A sequence of calls, in order. *)
Fixpoint run_calls (cs : list call) : Builder.M unit :=
  match cs with
  | [] => Builder.ret tt
  | c :: rest => Builder.bind (run_call c) (fun _ => run_calls rest)
  end.

(** The descriptor a call names is one of the eight integer descriptors. *)
Definition call_ok (c : call) : Prop :=
  match c with
  | CPrepend flags _ | CPrependSlot flags _ _ _ => In flags integer_flags
  | _ => True
  end.

(** [b'] is [b] after field data were written in front of the written
    region and the slots of the object in progress became [cur']. *)
Definition stepped (b b' : Builder.t) (cur' : list Z) : Prop :=
  exists b0 bs,
    pushed bs b b0 /\
    b' = Builder.set_current_vtable (Some cur') b0 /\
    (aligned b -> aligned b0).

(** Slot [i] of the object in progress stands for the value [v] of a field
    of kind [p] with default [d]: it is unset and [v] is the default, or it
    records an Offset at which the written region holds [v]. *)
Definition slot_reads (b : Builder.t) (cur : list Z) (i : nat) (p : packer.t)
    (v d : Z) : Prop :=
  exists e, nth_error cur i = Some e /\
            ((e = 0 /\ v = d) \/ field_holds b p e v).

(** Slot [i] of the object in progress stands for the string [s]: it is
    unset and [s] is empty, or it records the Offset of a UOffset that
    points to a string [s] of the written region. *)
Definition slot_reads_string (b : Builder.t) (cur : list Z) (i : nat)
    (s : list byte) : Prop :=
  exists e, nth_error cur i = Some e /\
            ((e = 0 /\ s = []) \/
             exists id, field_holds b packer.uoffset e (e - id) /\
                        string_at b id s).

(** * Properties *)

(** ** Sequences *)

Lemma len_nonneg {A} (l : list A) : 0 <= len l.
Proof. unfold len. lia. Qed.

Lemma len_app {A} (l1 l2 : list A) : len (l1 ++ l2) = len l1 + len l2.
Proof. unfold len. rewrite length_app. lia. Qed.

Lemma len_bytearray n : 0 <= n -> len (bytearray n) = n.
Proof. intros H. unfold len, bytearray. rewrite repeat_length. lia. Qed.

Lemma len_firstn {A} (l : list A) n :
  0 <= n <= len l -> len (firstn (Z.to_nat n) l) = n.
Proof. unfold len. intros H. rewrite length_firstn. lia. Qed.

Lemma len_skipn {A} (l : list A) n :
  0 <= n <= len l -> len (skipn (Z.to_nat n) l) = len l - n.
Proof. unfold len. intros H. rewrite length_skipn. lia. Qed.

Lemma slice_index_inside n i : 0 <= i <= n -> slice_index n i = i.
Proof.
  intros H. unfold slice_index.
  destruct (Z.ltb_spec i 0); lia.
Qed.

(** ** Table construction *)

Lemma enforce_uoffset pos :
  enforce_number UOffsetTFlags pos =
  if (0 <=? pos) && (pos <=? 2 ^ 32 - 1) then Ok tt else Raise TypeError.
Proof.
  unfold enforce_number, UOffsetTFlags, Uint32Flags; cbn [min_val max_val].
  destruct ((0 <=? pos) && (pos <=? 2 ^ 32 - 1)); reflexivity.
Qed.

Lemma Table_init_ok buf pos :
  0 <= pos <= 2 ^ 32 - 1 -> Table.__init__ buf pos = Ok (Table.mk buf pos).
Proof.
  intros H. unfold Table.__init__. rewrite enforce_uoffset.
  replace ((0 <=? pos) && (pos <=? 2 ^ 32 - 1)) with true; [reflexivity|].
  symmetry. apply andb_true_iff. split; apply Z.leb_le; lia.
Qed.

Lemma Table_init_raise buf pos :
  ~ 0 <= pos <= 2 ^ 32 - 1 -> Table.__init__ buf pos = Raise TypeError.
Proof.
  intros H. unfold Table.__init__. rewrite enforce_uoffset.
  destruct ((0 <=? pos) && (pos <=? 2 ^ 32 - 1)) eqn:E; [|reflexivity].
  apply andb_true_iff in E. destruct E as [E1 E2].
  apply Z.leb_le in E1, E2. lia.
Qed.

(** C10.  [Table(buf, pos)] raises [TypeError] exactly when [pos] lies
    outside [0, 2^32 - 1], and otherwise stores [buf] and [pos] unchanged;
    [Table.GetRoot(buf, offset)] builds the table at [n + offset], [n] the
    UOffset read at [offset], under the same test. *)
Theorem Table_init_range (buf : list byte) (pos offset : Z) :
  (Table.__init__ buf pos = Raise TypeError <-> ~ 0 <= pos <= 2 ^ 32 - 1) /\
  (0 <= pos <= 2 ^ 32 - 1 <-> Table.__init__ buf pos = Ok (Table.mk buf pos)) /\
  (Table.GetRoot buf offset = Raise TypeError <->
     exists n, read_uoffset buf offset = Ok n /\ ~ 0 <= n + offset <= 2 ^ 32 - 1) /\
  (forall t, Table.GetRoot buf offset = Ok t <->
     exists n, read_uoffset buf offset = Ok n /\ 0 <= n + offset <= 2 ^ 32 - 1 /\
               t = Table.mk buf (n + offset)).
Proof.
  assert (D : forall p, 0 <= p <= 2 ^ 32 - 1 \/ ~ 0 <= p <= 2 ^ 32 - 1) by (intros; lia).
  assert (G : Table.GetRoot buf offset =
              let! n := read_uoffset buf offset in Table.__init__ buf (n + offset))
    by reflexivity.
  split; [|split; [|split; [|intros t]]]; split.
  - intros H Hin. rewrite (Table_init_ok buf pos Hin) in H. discriminate.
  - apply Table_init_raise.
  - apply Table_init_ok.
  - intros H. destruct (D pos) as [Hin | Hout]; [exact Hin|].
    rewrite (Table_init_raise buf pos Hout) in H. discriminate.
  - rewrite G. destruct (read_uoffset buf offset) as [n | e] eqn:E; cbn [rbind].
    + intros H. exists n. split; [reflexivity|].
      intros Hin. rewrite (Table_init_ok _ _ Hin) in H. discriminate.
    + unfold read_uoffset, encode.Get in E.
      destruct (encode.locate _ _ _); [discriminate|].
      injection E as <-. discriminate.
  - intros (n & Hn & Hout). rewrite G, Hn. cbn [rbind].
    apply Table_init_raise, Hout.
  - rewrite G. destruct (read_uoffset buf offset) as [n | e]; cbn [rbind];
      [|discriminate].
    intros H. exists n. split; [reflexivity|].
    destruct (D (n + offset)) as [Hin | Hout].
    + rewrite (Table_init_ok _ _ Hin) in H. injection H as <-. auto.
    + rewrite (Table_init_raise _ _ Hout) in H. discriminate.
  - intros (n & Hn & Hin & ->). rewrite G, Hn. cbn [rbind].
    apply Table_init_ok, Hin.
Qed.

Lemma Table_init_range_witness :
  Table.__init__ [Byte.x01; Byte.x02] 7 = Ok (Table.mk [Byte.x01; Byte.x02] 7).
Proof.
  apply (proj1 (proj1 (proj2 (Table_init_range [Byte.x01; Byte.x02] 7 0)))).
  lia.
Defined.

(** ** Following offsets in a Table *)

(** C6 as stated fails where [Pos] is not 0: the UOffset at [Pos + 0 = 4]
    points to absolute position 12 and the first element of the vector is at
    16, while [Indirect(0)] is 8 and [Vector(0)] is 12. *)
Lemma Indirect_not_absolute :
  uoffset_target (Table.Bytes table_at_4) (Table.Pos table_at_4 + 0) = Ok 12 /\
  Table.Indirect table_at_4 0 = Ok 8 /\
  vector_first_element (Table.Bytes table_at_4) (Table.Pos table_at_4 + 0) = Ok 16 /\
  Table.Vector table_at_4 0 = Ok 12 /\
  Table.Indirect table_at_4 0 <>
    uoffset_target (Table.Bytes table_at_4) (Table.Pos table_at_4 + 0) /\
  Table.Vector table_at_4 0 <>
    vector_first_element (Table.Bytes table_at_4) (Table.Pos table_at_4 + 0).
Proof. repeat split; try reflexivity; vm_compute; discriminate. Qed.

Lemma Table_Get_unfold t flags off :
  Table.Get t flags off =
  encode.Get (packer_type flags) (Table.Bytes t) (Table.Pos t + off).
Proof. unfold Table.Get. rewrite Z.add_comm. reflexivity. Qed.

(** C6, amended.  [Indirect(off)] is [off + read_uoffset(buf, Pos + off)],
    a position relative to [Pos]: the absolute position the embedded UOffset
    points to is [Pos + Indirect(off)].  Likewise [Pos + Vector(off)] is the
    absolute position of the vector's first element, just past the 4-byte
    length prefix that [VectorLen(off)] reads at the UOffset's target. *)
Theorem Indirect_Vector_relative (t : Table.t) (off : Z) :
  Table.Indirect t off =
    (let! u := read_uoffset (Table.Bytes t) (Table.Pos t + off) in Ok (off + u)) /\
  uoffset_target (Table.Bytes t) (Table.Pos t + off) =
    (let! r := Table.Indirect t off in Ok (Table.Pos t + r)) /\
  vector_first_element (Table.Bytes t) (Table.Pos t + off) =
    (let! x := Table.Vector t off in Ok (Table.Pos t + x)) /\
  Table.Vector t off = (let! r := Table.Indirect t off in Ok (r + 4)) /\
  Table.VectorLen t off =
    (let! v := uoffset_target (Table.Bytes t) (Table.Pos t + off) in
     read_uoffset (Table.Bytes t) v).
Proof.
  unfold Table.Indirect, Table.Vector, Table.VectorLen, vector_first_element,
    uoffset_target.
  rewrite !Table_Get_unfold. unfold read_uoffset.
  cbn [packer_type UOffsetTFlags Uint32Flags bytewidth].
  change packer.uoffset with packer.uint32.
  destruct (encode.Get packer.uint32 (Table.Bytes t) (Table.Pos t + off)) as [u | e];
    cbn [rbind]; [|repeat split; reflexivity].
  rewrite Table_Get_unfold. cbn [packer_type].
  replace (Table.Pos t + (off + u)) with (Table.Pos t + off + u) by lia.
  repeat split; try (f_equal; lia).
  cbn [packer_type UOffsetTFlags Uint32Flags].
  destruct (encode.Get packer.uint32 (Table.Bytes t) (Table.Pos t + off + u));
    reflexivity.
Qed.

(** ** Buffer sizes *)

Lemma firstn_bytearray k n :
  0 <= k <= n -> firstn (Z.to_nat k) (bytearray n) = bytearray k.
Proof.
  intros H. unfold bytearray.
  replace (Z.to_nat n) with (Z.to_nat k + Z.to_nat (n - k))%nat by lia.
  rewrite repeat_app, firstn_app, repeat_length, Nat.sub_diag, firstn_O, app_nil_r.
  apply firstn_all2. rewrite repeat_length. lia.
Qed.

Lemma grow_size_lower freeSize b :
  1024 <= grow_size freeSize b /\
  2 * len (Builder.Bytes b) <= grow_size freeSize b /\
  len (Builder.Bytes b) + freeSize - Builder.head b <= grow_size freeSize b.
Proof. unfold grow_size. lia. Qed.

Lemma Builder_init_ok n :
  0 <= n <= 2 ^ 31 ->
  Builder.__init__ n = Ok (Builder.mk (bytearray n) None n 1 None []).
Proof.
  intros H. unfold Builder.__init__, Builder.MAX_BUFFER_SIZE.
  replace ((0 <=? n) && (n <=? 2 ^ 31)) with true.
  - cbn [negb]. rewrite len_bytearray by lia. reflexivity.
  - symmetry. apply andb_true_iff. split; apply Z.leb_le; lia.
Qed.

Lemma Builder_init_raise n :
  n < 0 \/ 2 ^ 31 < n -> Builder.__init__ n = Raise BuilderSizeError.
Proof.
  intros H. unfold Builder.__init__, Builder.MAX_BUFFER_SIZE.
  replace ((0 <=? n) && (n <=? 2 ^ 31)) with false; [reflexivity|].
  symmetry. apply andb_false_iff.
  destruct H; [left; apply Z.leb_gt | right; apply Z.leb_gt]; lia.
Qed.

Lemma growByteBuffer_ok freeSize b :
  grow_size freeSize b < 2 ^ 31 ->
  Builder.growByteBuffer freeSize b =
  Ok (tt, Builder.set_head
            (Builder.head b + (grow_size freeSize b - len (Builder.Bytes b)))
            (Builder.set_Bytes
               (bytearray (grow_size freeSize b - len (Builder.Bytes b))
                  ++ Builder.Bytes b) b)).
Proof.
  intros H. pose proof (grow_size_lower freeSize b) as (H1 & H2 & _).
  pose proof (len_nonneg (Builder.Bytes b)) as HL.
  unfold Builder.growByteBuffer, Builder.MAX_BUFFER_SIZE.
  fold (grow_size freeSize b).
  destruct (Z.geb_spec (grow_size freeSize b) (2 ^ 31)); [lia|].
  unfold setslice_from. rewrite len_bytearray by lia.
  rewrite slice_index_inside by lia.
  rewrite firstn_bytearray by lia. reflexivity.
Qed.

Lemma growByteBuffer_raise freeSize b :
  2 ^ 31 <= grow_size freeSize b ->
  Builder.growByteBuffer freeSize b = Raise BuilderSizeError.
Proof.
  intros H. unfold Builder.growByteBuffer, Builder.MAX_BUFFER_SIZE.
  fold (grow_size freeSize b).
  destruct (Z.geb_spec (grow_size freeSize b) (2 ^ 31)); [reflexivity|lia].
Qed.

(** C7 as stated fails at [initialSize = 2^31]: the constructor accepts it
    and the Builder then owns a buffer of exactly 2^31 bytes. *)
Lemma Builder_init_two_gigabytes :
  exists b, Builder.__init__ (2 ^ 31) = Ok b /\
            len (Builder.Bytes b) = 2 ^ 31 /\
            ~ len (Builder.Bytes b) < 2 ^ 31.
Proof.
  eexists. split; [apply Builder_init_ok; lia|].
  cbn [Builder.Bytes]. rewrite len_bytearray by lia. lia.
Qed.

(** C7, amended.  The constructor raises [BuilderSizeError] exactly for an
    [initialSize] that is negative or greater than 2^31, so a constructed
    buffer has [initialSize <= 2^31] bytes (2^31 itself included);
    [growByteBuffer] raises [BuilderSizeError] exactly when the new size it
    computes reaches 2^31, and a grown buffer is strictly smaller than 2^31
    bytes. *)
Theorem buffer_size_limits :
  (forall n, Builder.__init__ n = Raise BuilderSizeError <-> n < 0 \/ 2 ^ 31 < n) /\
  (forall n b, Builder.__init__ n = Ok b <->
     0 <= n <= 2 ^ 31 /\ b = Builder.mk (bytearray n) None n 1 None []) /\
  (forall n b, Builder.__init__ n = Ok b ->
     len (Builder.Bytes b) = n /\ len (Builder.Bytes b) <= 2 ^ 31) /\
  (forall freeSize b,
     Builder.growByteBuffer freeSize b = Raise BuilderSizeError <->
     2 ^ 31 <= grow_size freeSize b) /\
  (forall freeSize b b',
     Builder.growByteBuffer freeSize b = Ok (tt, b') ->
     len (Builder.Bytes b') = grow_size freeSize b /\
     len (Builder.Bytes b') < 2 ^ 31).
Proof.
  assert (I : forall n b, Builder.__init__ n = Ok b ->
                0 <= n <= 2 ^ 31 /\ b = Builder.mk (bytearray n) None n 1 None []).
  { intros n b H.
    assert (D : 0 <= n <= 2 ^ 31 \/ (n < 0 \/ 2 ^ 31 < n)) by lia.
    destruct D as [D | D].
    - rewrite (Builder_init_ok n D) in H. injection H as <-. auto.
    - rewrite (Builder_init_raise n D) in H. discriminate. }
  split; [|split; [|split; [|split]]].
  - intros n. split; [|apply Builder_init_raise].
    intros H. assert (D : 0 <= n <= 2 ^ 31 \/ (n < 0 \/ 2 ^ 31 < n)) by lia.
    destruct D as [D | D]; [|exact D].
    rewrite (Builder_init_ok n D) in H. discriminate.
  - intros n b. split; [apply I|].
    intros [D ->]. apply Builder_init_ok, D.
  - intros n b H. apply I in H. destruct H as [D ->].
    cbn [Builder.Bytes]. rewrite len_bytearray by lia. lia.
  - intros freeSize b. split; [|apply growByteBuffer_raise].
    intros H. destruct (Z.lt_ge_cases (grow_size freeSize b) (2 ^ 31)) as [D | D];
      [|exact D].
    rewrite (growByteBuffer_ok freeSize b D) in H. discriminate.
  - intros freeSize b b' H.
    destruct (Z.lt_ge_cases (grow_size freeSize b) (2 ^ 31)) as [D | D].
    + rewrite (growByteBuffer_ok freeSize b D) in H. injection H as <-.
      pose proof (grow_size_lower freeSize b) as (H1 & H2 & _).
      pose proof (len_nonneg (Builder.Bytes b)) as HL.
      cbn [Builder.Bytes Builder.set_head Builder.set_Bytes].
      rewrite len_app, len_bytearray by lia. lia.
    + rewrite (growByteBuffer_raise freeSize b D) in H. discriminate.
Qed.

Lemma buffer_size_limits_witness :
  len (Builder.Bytes (Builder.mk (bytearray 8) None 8 1 None [])) = 8 /\
  len (Builder.Bytes (Builder.mk (bytearray 8) None 8 1 None [])) <= 2 ^ 31.
Proof.
  apply (proj1 (proj2 (proj2 buffer_size_limits)) 8).
  reflexivity.
Defined.

(** ** Growth *)

Lemma byte_at_app_tail (pre l : list byte) (k : Z) :
  0 < k <= len l ->
  byte_at (pre ++ l) (len (pre ++ l) - k) = byte_at l (len l - k).
Proof.
  intros H. unfold byte_at. rewrite len_app.
  pose proof (len_nonneg pre) as Hp.
  destruct (Z.ltb_spec (len pre + len l - k) 0); [lia|].
  destruct (Z.ltb_spec (len l - k) 0); [lia|].
  rewrite nth_error_app2 by (unfold len in *; lia).
  f_equal. unfold len in *. lia.
Qed.

Lemma Output_inside b :
  wf b -> Builder.Output b = skipn (Z.to_nat (Builder.head b)) (Builder.Bytes b).
Proof.
  intros H. unfold Builder.Output, getslice_from.
  rewrite slice_index_inside by exact H. reflexivity.
Qed.

Lemma skipn_app_left {A} (pre l : list A) n m :
  Z.of_nat m = len pre + n -> 0 <= n ->
  skipn m (pre ++ l) = skipn (Z.to_nat n) l.
Proof.
  intros H Hn. rewrite skipn_app.
  rewrite skipn_all2 by (unfold len in H; lia).
  cbn [app]. f_equal. unfold len in H. lia.
Qed.

(** C9.  Unless it raises [BuilderSizeError] (new size of 2^31 or more),
    [growByteBuffer(demand)] allocates [max(1024, 2*L, L + demand - head)]
    bytes, puts the old content in the tail of the new buffer and adds
    [newSize - L] to [head]: every byte keeps its Offset-from-tail, and so
    does [head]. *)
Theorem growByteBuffer_keeps_content (b : Builder.t) (demand : Z) :
  wf b ->
  let L := len (Builder.Bytes b) in
  let newSize := Z.max 1024 (Z.max (2 * L) (L + demand - Builder.head b)) in
  newSize < 2 ^ 31 ->
  exists b',
    Builder.growByteBuffer demand b = Ok (tt, b') /\
    len (Builder.Bytes b') = newSize /\
    Builder.Bytes b' = bytearray (newSize - L) ++ Builder.Bytes b /\
    skipn (Z.to_nat (newSize - L)) (Builder.Bytes b') = Builder.Bytes b /\
    Builder.head b' = Builder.head b + (newSize - L) /\
    Builder.Offset b' = Builder.Offset b /\
    (forall k, 0 < k <= Builder.Offset b ->
       byte_at (Builder.Bytes b') (len (Builder.Bytes b') - k) =
       byte_at (Builder.Bytes b) (len (Builder.Bytes b) - k)) /\
    Builder.Output b' = Builder.Output b /\
    wf b' /\
    Builder.current_vtable b' = Builder.current_vtable b /\
    Builder.minalign b' = Builder.minalign b /\
    Builder.objectEnd b' = Builder.objectEnd b /\
    Builder.vtables b' = Builder.vtables b.
Proof.
  intros Hwf L newSize Hsz.
  assert (E : newSize = grow_size demand b).
  { unfold newSize, grow_size. fold L. rewrite (Z.mul_comm 2 L). reflexivity. }
  pose proof (grow_size_lower demand b) as (H1 & H2 & _). fold L in H2.
  pose proof (len_nonneg (Builder.Bytes b)) as HL. fold L in HL.
  unfold wf in Hwf. fold L in Hwf.
  eexists. split; [apply growByteBuffer_ok; rewrite <- E; exact Hsz|].
  rewrite <- E. fold L.
  cbn [Builder.Bytes Builder.head Builder.set_head Builder.set_Bytes
       Builder.current_vtable Builder.minalign Builder.objectEnd Builder.vtables].
  assert (Hlen : len (bytearray (newSize - L) ++ Builder.Bytes b) = newSize).
  { rewrite len_app, len_bytearray by lia. fold L. lia. }
  assert (Hskip : skipn (Z.to_nat (newSize - L))
                    (bytearray (newSize - L) ++ Builder.Bytes b) = Builder.Bytes b).
  { rewrite (skipn_app_left _ _ 0) by (rewrite ?len_bytearray; lia).
    reflexivity. }
  repeat split; auto.
  - unfold Builder.Offset.
    cbn [Builder.Bytes Builder.head Builder.set_head Builder.set_Bytes].
    rewrite Hlen. fold L. lia.
  - intros k Hk. apply byte_at_app_tail.
    unfold Builder.Offset in Hk. fold L in Hk. fold L. lia.
  - rewrite !Output_inside;
      cbn [Builder.Bytes Builder.head Builder.set_head Builder.set_Bytes];
      [|exact Hwf|unfold wf; cbn; rewrite Hlen; lia].
    apply skipn_app_left; [rewrite len_bytearray; lia | lia].
  - cbn. lia.
  - cbn [Builder.head Builder.Bytes Builder.set_head Builder.set_Bytes].
    rewrite Hlen. lia.
Qed.

Lemma growByteBuffer_keeps_content_witness :
  exists b',
    Builder.growByteBuffer 12
      (Builder.mk [Byte.x00; Byte.x2a; Byte.x07] None 1 1 None []) = Ok (tt, b') /\
    len (Builder.Bytes b') = 1024 /\
    Builder.head b' = 1022 /\
    Builder.Output b' = [Byte.x2a; Byte.x07].
Proof.
  destruct (growByteBuffer_keeps_content
              (Builder.mk [Byte.x00; Byte.x2a; Byte.x07] None 1 1 None []) 12)
    as (b' & H1 & H2 & _ & _ & H3 & _ & _ & H4 & _).
  - unfold wf. cbn. lia.
  - cbn. lia.
  - exists b'. repeat split; assumption.
Defined.

(** ** Default elision *)

(** A float that is not a NaN equals itself. *)
Lemma SFeqb_refl (d : spec_float) :
  (match d with S754_nan => true | _ => false end) = false -> SFeqb d d = true.
Proof.
  destruct d as [s | s | | s m e]; intros H; try discriminate; unfold SFeqb;
    cbn [SFcompare].
  - reflexivity.
  - destruct s; reflexivity.
  - rewrite Z.compare_refl.
    change (Pos.compare_cont Eq m m) with (Pos.compare m m).
    rewrite Pos.compare_refl. destruct s; reflexivity.
Qed.

Lemma PrependKSlot_default K i d b :
  is_nan K d = false -> PrependKSlot K i d d b = Ok (tt, b).
Proof.
  destruct K; cbn [PrependKSlot is_nan value] in *; intros Hd;
    unfold Builder.PrependBoolSlot, Builder.PrependByteSlot,
      Builder.PrependUint8Slot, Builder.PrependUint16Slot,
      Builder.PrependUint32Slot, Builder.PrependUint64Slot,
      Builder.PrependInt8Slot, Builder.PrependInt16Slot,
      Builder.PrependInt32Slot, Builder.PrependInt64Slot, Builder.PrependSlot,
      Builder.PrependFloat32Slot, Builder.PrependFloat64Slot,
      Builder.PrependSlot_float;
    rewrite ?Z.eqb_refl, ?(SFeqb_refl d Hd); reflexivity.
Qed.

Lemma GetKSlot_default K t slot d :
  Table.Offset t slot = Ok 0 -> GetKSlot K t slot d = Ok d.
Proof.
  intros H.
  destruct K; cbn [GetKSlot value] in *;
    unfold Table.GetBoolSlot, Table.GetByteSlot, Table.GetUint8Slot,
      Table.GetUint16Slot, Table.GetUint32Slot, Table.GetUint64Slot,
      Table.GetInt8Slot, Table.GetInt16Slot, Table.GetInt32Slot,
      Table.GetInt64Slot, Table.GetSlot, Table.GetFloat32Slot,
      Table.GetFloat64Slot, Table.GetSlot_float;
    rewrite H; reflexivity.
Qed.

Lemma nth_error_repeat {A} (x : A) n i :
  (i < n)%nat -> nth_error (repeat x n) i = Some x.
Proof.
  revert i. induction n as [|n IH]; intros i H; [lia|].
  destruct i as [|i]; cbn; [reflexivity|]. apply IH. lia.
Qed.

(** The float codec on known bit patterns: 1.5 as a double and as a single,
    the quiet NaN, the greatest double (too large for a single), and the
    way back. *)
Lemma float_codec_patterns :
  packer.pack_float packer.float64 (S754_finite false 6755399441055744 (-52))
    = Some [Byte.x00; Byte.x00; Byte.x00; Byte.x00;
            Byte.x00; Byte.x00; Byte.xf8; Byte.x3f] /\
  packer.pack_float packer.float32 (S754_finite false 6755399441055744 (-52))
    = Some [Byte.x00; Byte.x00; Byte.xc0; Byte.x3f] /\
  packer.pack_float packer.float32 S754_nan
    = Some [Byte.x00; Byte.x00; Byte.xc0; Byte.x7f] /\
  packer.pack_float packer.float64 float64_bound
    = Some [Byte.xff; Byte.xff; Byte.xff; Byte.xff;
            Byte.xff; Byte.xff; Byte.xef; Byte.x7f] /\
  packer.pack_float packer.float32 float64_bound = None /\
  packer.unpack_float packer.float32 [Byte.x00; Byte.x00; Byte.xc0; Byte.x3f]
    = S754_finite false 6755399441055744 (-52) /\
  packer.unpack_float packer.float64
    [Byte.x00; Byte.x00; Byte.x00; Byte.x00;
     Byte.x00; Byte.x00; Byte.xf8; Byte.x7f] = S754_nan.
Proof. vm_compute. repeat split. Qed.

(** C4 as stated fails at a floating kind whose default is a NaN: [x != d]
    holds of a NaN and itself, so [PrependFloat64Slot(0, nan, nan)] on an
    object just started in [Builder(8)] writes the 8 bytes of the NaN and
    sets [current_vtable[0]] to the new Offset, 8. *)
Lemma default_elision_fails_at_nan :
  exists b0 b1 b2,
    Builder.__init__ 8 = Ok b0 /\
    Builder.StartObject 1 b0 = Ok (tt, b1) /\
    vtable_slot b1 0 = Some 0 /\
    PrependKSlot KFloat64 0 S754_nan S754_nan b1 = Ok (tt, b2) /\
    Builder.head b1 = 8 /\ Builder.head b2 = 0 /\
    Builder.Output b2 =
      [Byte.x00; Byte.x00; Byte.x00; Byte.x00;
       Byte.x00; Byte.x00; Byte.xf8; Byte.x7f] /\
    vtable_slot b2 0 = Some 8 /\
    vtable_slot b2 0 <> Some 0.
Proof.
  eexists. eexists. eexists.
  split; [reflexivity|]. split; [reflexivity|]. split; [reflexivity|].
  split; [vm_compute; reflexivity|].
  split; [reflexivity|]. split; [reflexivity|]. split; [reflexivity|].
  split; [reflexivity | discriminate].
Qed.

(** C4.  For every scalar kind K, the two floating kinds among them, and
    every default [d] that is not a floating-point NaN,
    [Prepend<K>Slot(i, d, d)] returns with the Builder unchanged: no byte is
    written and [current_vtable[i]] keeps its value, which is 0 for every
    slot of an object just started (and for every slot no earlier write has
    set).  On the reader's side [Get<K>Slot(slot, d)] returns [d] whenever
    [Offset(slot)] yields 0, for every [d]. *)
Theorem default_elision (K : kind) (i : Z) (d : value K) :
  (is_nan K d = false ->
   (forall b, PrependKSlot K i d d b = Ok (tt, b)) /\
   (forall b b', PrependKSlot K i d d b = Ok (tt, b') ->
      Builder.Bytes b' = Builder.Bytes b /\ Builder.head b' = Builder.head b /\
      (vtable_slot b i = Some 0 -> vtable_slot b' i = Some 0)) /\
   (forall b numfields,
      Builder.current_vtable b = None -> 0 <= i < numfields ->
      exists b1,
        Builder.StartObject numfields b = Ok (tt, b1) /\
        PrependKSlot K i d d b1 = Ok (tt, b1) /\
        Builder.Bytes b1 = Builder.Bytes b /\
        Builder.head b1 = Builder.head b /\
        vtable_slot b1 i = Some 0)) /\
  (forall t slot, Table.Offset t slot = Ok 0 -> GetKSlot K t slot d = Ok d).
Proof.
  split; [intros Hd; split; [|split]|].
  - intros b. apply PrependKSlot_default, Hd.
  - intros b b' H. rewrite (PrependKSlot_default K i d b Hd) in H.
    injection H as <-. auto.
  - intros b numfields Hcur Hi.
    eexists. split; [|split; [apply PrependKSlot_default, Hd|]].
    + unfold Builder.StartObject, Builder.bind, Builder.assertNotNested,
        Builder.modify. rewrite Hcur. reflexivity.
    + cbn [Builder.Bytes Builder.head]. repeat split.
      unfold vtable_slot. cbn [Builder.current_vtable].
      destruct (Z.ltb_spec i 0); [lia|].
      apply nth_error_repeat. lia.
  - intros t slot H. apply GetKSlot_default, H.
Qed.

(** The float 1.5 as the default of a double field. *)
Lemma default_elision_witness :
  exists b1,
    Builder.StartObject 1 (Builder.mk (bytearray 8) None 8 1 None []) = Ok (tt, b1) /\
    PrependKSlot KFloat64 0 (S754_finite false 6755399441055744 (-52))
      (S754_finite false 6755399441055744 (-52)) b1 = Ok (tt, b1) /\
    Builder.Bytes b1 = bytearray 8 /\
    Builder.head b1 = 8 /\
    vtable_slot b1 0 = Some 0.
Proof.
  apply (proj2 (proj2 (proj1
           (default_elision KFloat64 0 (S754_finite false 6755399441055744 (-52)))
           eq_refl))
           (Builder.mk (bytearray 8) None 8 1 None []) 1).
  - reflexivity.
  - lia.
Defined.

(** ** Alignment *)

Lemma alignSize_mod k additionalBytes b :
  0 <= k ->
  alignSize (2 ^ k) additionalBytes b =
  (- (len (Builder.Bytes b) - Builder.head b + additionalBytes)) mod 2 ^ k.
Proof.
  intros Hk. unfold alignSize.
  replace (2 ^ k - 1) with (Z.ones k) by (rewrite Z.ones_equiv; lia).
  rewrite Z.land_ones by exact Hk.
  f_equal. unfold Z.lnot. lia.
Qed.

Lemma alignSize_range k additionalBytes b :
  0 <= k -> 0 <= alignSize (2 ^ k) additionalBytes b < 2 ^ k.
Proof.
  intros Hk. rewrite alignSize_mod by exact Hk.
  apply Z.mod_pos_bound. apply Z.pow_pos_nonneg; lia.
Qed.

Lemma alignSize_aligned k additionalBytes b :
  0 <= k ->
  (len (Builder.Bytes b) - Builder.head b + additionalBytes
   + alignSize (2 ^ k) additionalBytes b) mod 2 ^ k = 0.
Proof.
  intros Hk. rewrite alignSize_mod by exact Hk.
  assert (Hp : 0 < 2 ^ k) by (apply Z.pow_pos_nonneg; lia).
  rewrite Zplus_mod_idemp_r.
  replace (_ + _) with 0 by lia. apply Z.mod_0_l. lia.
Qed.

(** [Prep] either raises [BuilderSizeError] out of [growByteBuffer] or
    returns in [Prep_state]. *)
Lemma Prep_unfold size additionalBytes b :
  Builder.Prep size additionalBytes b =
  let totalSize := alignSize size additionalBytes b + size + additionalBytes in
  if (Builder.head b <? totalSize) && (2 ^ 31 <=? grow_size totalSize b)
  then Raise BuilderSizeError
  else Ok (tt, Prep_state size additionalBytes b).
Proof.
  unfold Builder.Prep, Builder.bind, Builder.modify, Builder.gets, Builder.ret.
  cbv zeta.
  set (b1 := if size >? Builder.minalign b then Builder.set_minalign size b else b).
  assert (Hb : Builder.Bytes b1 = Builder.Bytes b) by (unfold b1; destruct (_ >? _); reflexivity).
  assert (Hh : Builder.head b1 = Builder.head b) by (unfold b1; destruct (_ >? _); reflexivity).
  assert (Hm : Builder.minalign b1 = Z.max (Builder.minalign b) size).
  { unfold b1. destruct (Z.gtb_spec size (Builder.minalign b)); cbn; lia. }
  assert (Hc : Builder.current_vtable b1 = Builder.current_vtable b) by (unfold b1; destruct (_ >? _); reflexivity).
  assert (Ho : Builder.objectEnd b1 = Builder.objectEnd b) by (unfold b1; destruct (_ >? _); reflexivity).
  assert (Hv : Builder.vtables b1 = Builder.vtables b) by (unfold b1; destruct (_ >? _); reflexivity).
  rewrite Hb, Hh. fold (alignSize size additionalBytes b).
  set (pad := alignSize size additionalBytes b).
  assert (Hg : forall n, grow_size n b1 = grow_size n b)
    by (intros; unfold grow_size; rewrite Hb, Hh; reflexivity).
  unfold Prep_state. fold pad. cbv zeta.
  destruct (Z.ltb_spec (Builder.head b) (pad + size + additionalBytes)) as [Hlt | Hge];
    cbn [andb].
  - destruct (Z.leb_spec (2 ^ 31) (grow_size (pad + size + additionalBytes) b)) as [Hbig | Hsmall].
    + rewrite growByteBuffer_raise by (rewrite Hg; exact Hbig). reflexivity.
    + rewrite growByteBuffer_ok by (rewrite Hg; exact Hsmall).
      rewrite Hg, Hb, Hh.
      unfold Builder.set_head, Builder.set_Bytes; cbn.
      rewrite Hm, Hc, Ho, Hv. reflexivity.
  - unfold Builder.set_head; cbn. rewrite Hm, Hc, Ho, Hv, Hb, Hh.
    do 2 f_equal. f_equal. lia.
Qed.

Lemma getslice_inside {A} (l : list A) lo hi :
  0 <= lo <= hi -> hi <= len l ->
  getslice l lo hi = firstn (Z.to_nat (hi - lo)) (skipn (Z.to_nat lo) l).
Proof.
  intros H1 H2. unfold getslice.
  rewrite !slice_index_inside by lia. reflexivity.
Qed.

Lemma bytearray_app a c :
  0 <= a -> 0 <= c -> bytearray (a + c) = bytearray a ++ bytearray c.
Proof.
  intros Ha Hc. unfold bytearray. rewrite <- repeat_app. f_equal. lia.
Qed.

Lemma getslice_app_middle {A} (pre mid post : list A) lo hi :
  lo = len pre -> hi = len pre + len mid ->
  getslice (pre ++ mid ++ post) lo hi = mid.
Proof.
  intros -> ->. pose proof (len_nonneg pre). pose proof (len_nonneg mid).
  rewrite getslice_inside by (rewrite ?len_app; pose proof (len_nonneg post); lia).
  rewrite (skipn_app_left pre _ 0) by (unfold len; lia).
  cbn [Z.to_nat skipn].
  replace (Z.to_nat (len pre + len mid - len pre)) with (length mid + 0)%nat
    by (unfold len; lia).
  rewrite firstn_app_2. cbn [firstn]. apply app_nil_r.
Qed.

Lemma Prep_state_wf k additionalBytes b :
  wf b -> 0 <= k -> 0 <= additionalBytes ->
  2 ^ k + additionalBytes <= Builder.head (Prep_state (2 ^ k) additionalBytes b)
  /\ wf (Prep_state (2 ^ k) additionalBytes b).
Proof.
  intros Hwf Hk Ha. unfold wf in *.
  pose proof (alignSize_range k additionalBytes b Hk) as Hp.
  unfold Prep_state. cbv zeta. cbn [Builder.head Builder.Bytes].
  set (pad := alignSize (2 ^ k) additionalBytes b) in *.
  pose proof (grow_size_lower (pad + 2 ^ k + additionalBytes) b) as (G1 & G2 & G3).
  pose proof (len_nonneg (Builder.Bytes b)) as HL.
  destruct (Z.ltb_spec (Builder.head b) (pad + 2 ^ k + additionalBytes)).
  - rewrite len_app, len_bytearray by lia. lia.
  - rewrite len_app, len_bytearray by lia. lia.
Qed.

(** C2 as stated fails on a Builder that has been [Reset]: [Prep] only
    moves [head], so the pad bytes it skips keep what an earlier use of the
    buffer left there.  After [Builder(8)], three [PrependByte(255)],
    [Reset()] and [PrependByte(1)], the call [Prep(4, 0)] skips the three
    bytes at positions 4, 5 and 6, two of which are 255. *)
Lemma Prep_leaves_stale_pad_bytes :
  exists b0 b1 b2 b3 b4,
    Builder.__init__ 8 = Ok b0 /\
    Builder.bind (Builder.PrependByte 255) (fun _ =>
      Builder.bind (Builder.PrependByte 255) (fun _ =>
        Builder.PrependByte 255)) b0 = Ok (tt, b1) /\
    Builder.Reset b1 = Ok (tt, b2) /\
    Builder.PrependByte 1 b2 = Ok (tt, b3) /\
    Builder.Prep 4 0 b3 = Ok (tt, b4) /\
    Builder.head b3 = 7 /\ Builder.head b4 = 4 /\
    getslice (Builder.Bytes b4) (Builder.head b4) (Builder.head b3) =
      [Byte.x00; Byte.xff; Byte.xff] /\
    getslice (Builder.Bytes b4) (Builder.head b4) (Builder.head b3) <> bytearray 3.
Proof.
  do 5 eexists.
  split; [reflexivity|]. split; [vm_compute; reflexivity|].
  split; [reflexivity|]. split; [vm_compute; reflexivity|].
  split; [vm_compute; reflexivity|].
  repeat split. vm_compute. discriminate.
Qed.

(** C2, amended.  For every Builder state with [0 <= head <= L], every
    power-of-two [size] and every [additional >= 0], [Prep(size, additional)]
    computes [pad = (-(L - head + additional)) mod size], grows the buffer
    first if [head < pad + size + additional] (raising [BuilderSizeError]
    when the new size reaches 2^31), and returns with
    [(L - head + additional) mod size = 0] and [size <= minalign].  It moves
    [head] down by [pad] and writes no byte: the buffer is the old one, after
    the zero bytes growth put in front, so the pad bytes are zero when all
    bytes below [head] were zero before the call. *)
Theorem Prep_aligns (b : Builder.t) (k additional : Z) :
  wf b -> 0 <= k -> 0 <= additional ->
  let size := 2 ^ k in
  let L := len (Builder.Bytes b) in
  let pad := (- (L - Builder.head b + additional)) mod size in
  let totalSize := pad + size + additional in
  let newSize := Z.max 1024 (Z.max (2 * L) (L + totalSize - Builder.head b)) in
  let grown := if Builder.head b <? totalSize then newSize - L else 0 in
  (Builder.head b < totalSize /\ 2 ^ 31 <= newSize ->
   Builder.Prep size additional b = Raise BuilderSizeError) /\
  (~ (Builder.head b < totalSize /\ 2 ^ 31 <= newSize) ->
   exists b',
     Builder.Prep size additional b = Ok (tt, b') /\
     Builder.Bytes b' = bytearray grown ++ Builder.Bytes b /\
     Builder.head b' = Builder.head b + grown - pad /\
     (len (Builder.Bytes b') - Builder.head b' + additional) mod size = 0 /\
     size <= Builder.minalign b' /\
     Builder.minalign b' = Z.max (Builder.minalign b) size /\
     size + additional <= Builder.head b' <= len (Builder.Bytes b') /\
     Builder.Offset b' = Builder.Offset b + pad /\
     (firstn (Z.to_nat (Builder.head b)) (Builder.Bytes b) = bytearray (Builder.head b) ->
      getslice (Builder.Bytes b') (Builder.head b') (Builder.head b' + pad) =
      bytearray pad) /\
     Builder.current_vtable b' = Builder.current_vtable b /\
     Builder.objectEnd b' = Builder.objectEnd b /\
     Builder.vtables b' = Builder.vtables b).
Proof.
  intros Hwf Hk Ha size L pad totalSize newSize grown.
  pose proof (alignSize_mod k additional b Hk) as Epad.
  fold L size pad in Epad.
  assert (Enew : grow_size totalSize b = newSize).
  { unfold grow_size, newSize. fold L. rewrite (Z.mul_comm L 2). reflexivity. }
  pose proof (alignSize_range k additional b Hk) as Rpad.
  fold size in Rpad. rewrite Epad in Rpad.
  pose proof (Prep_state_wf k additional b Hwf Hk Ha) as [Hroom Hwf'].
  fold size in Hroom, Hwf'. unfold wf in Hwf, Hwf'. fold L in Hwf.
  pose proof (len_nonneg (Builder.Bytes b)) as HL. fold L in HL.
  assert (Hgrown : 0 <= grown).
  { unfold grown, newSize. destruct (_ <? _); lia. }
  assert (ES : Prep_state size additional b =
               Builder.mk (bytearray grown ++ Builder.Bytes b)
                 (Builder.current_vtable b) (Builder.head b + grown - pad)
                 (Z.max (Builder.minalign b) size)
                 (Builder.objectEnd b) (Builder.vtables b)).
  { unfold Prep_state. cbv zeta. rewrite Epad. fold totalSize.
    rewrite Enew. reflexivity. }
  rewrite Prep_unfold. cbv zeta. rewrite Epad. fold totalSize. rewrite Enew.
  split.
  - intros [H1 H2].
    destruct (Z.ltb_spec (Builder.head b) totalSize); [|lia].
    destruct (Z.leb_spec (2 ^ 31) newSize); [|lia]. reflexivity.
  - intros Hno.
    replace ((Builder.head b <? totalSize) && (2 ^ 31 <=? newSize)) with false.
    2:{ symmetry. apply andb_false_iff.
        destruct (Z.ltb_spec (Builder.head b) totalSize); [|auto].
        right. apply Z.leb_gt. lia. }
    eexists. split; [reflexivity|]. rewrite ES in *.
    cbn [Builder.Bytes Builder.head Builder.minalign Builder.current_vtable
         Builder.objectEnd Builder.vtables] in *.
    assert (Hlen : len (bytearray grown ++ Builder.Bytes b) = grown + L)
      by (rewrite len_app, len_bytearray by lia; reflexivity).
    rewrite Hlen in *.
    repeat split; try lia.
    + replace (grown + L - (Builder.head b + grown - pad) + additional)
        with (L - Builder.head b + additional + pad) by lia.
      unfold pad. rewrite Zplus_mod_idemp_r.
      replace (_ + _) with 0 by lia. apply Z.mod_0_l. lia.
    + unfold Builder.Offset. cbn [Builder.Bytes Builder.head].
      rewrite Hlen. fold L. lia.
    + intros Hzero.
      rewrite <- (firstn_skipn (Z.to_nat (Builder.head b)) (Builder.Bytes b)).
      rewrite Hzero.
      rewrite app_assoc, <- bytearray_app by lia.
      replace (grown + Builder.head b)
        with ((Builder.head b + grown - pad) + pad) by lia.
      rewrite bytearray_app, <- app_assoc by lia.
      apply getslice_app_middle; rewrite ?len_bytearray by lia; lia.
Qed.

Lemma Prep_aligns_witness :
  exists b',
    Builder.Prep 4 0 (Builder.mk (bytearray 8) None 7 1 None []) = Ok (tt, b') /\
    Builder.head b' = 4 /\
    (len (Builder.Bytes b') - Builder.head b' + 0) mod 4 = 0 /\
    4 <= Builder.minalign b'.
Proof.
  assert (Hwf : wf (Builder.mk (bytearray 8) None 7 1 None []))
    by (vm_compute; split; discriminate).
  assert (H2 : 0 <= 2) by lia. assert (H0 : 0 <= 0) by lia.
  destruct (proj2 (Prep_aligns _ 2 0 Hwf H2 H0))
    as (b' & H1 & _ & H3 & H4 & H5 & _).
  - intros [_ H]. vm_compute in H. exact (H eq_refl).
  - exists b'. repeat split; [exact H1 | exact H3 | exact H4 | exact H5].
Defined.

(** ** The byte codec *)

Lemma locate_inside p buf head :
  0 <= head -> head + Z.of_nat (packer.size p) <= len buf ->
  encode.locate p buf head = Some (Z.to_nat head).
Proof.
  intros H1 H2. unfold encode.locate.
  destruct (Z.ltb_spec head 0); [lia|].
  destruct (Z.leb_spec 0 head); [|lia].
  destruct (Z.leb_spec (head + Z.of_nat (packer.size p)) (len buf)); [|lia].
  reflexivity.
Qed.

Lemma pack_length p n bs : packer.pack p n = Some bs -> length bs = packer.size p.
Proof.
  unfold packer.pack.
  destruct p; try (intros H; injection H as <-; reflexivity);
    destruct (_ && _); try discriminate;
    intros H; injection H as <-; apply length_le_split.
Qed.

Lemma pack_in_range p n :
  p <> packer.boolean ->
  packer.min_value p <= n <= packer.max_value p ->
  packer.pack p n = Some (le_split (packer.size p) n).
Proof.
  intros Hp H. unfold packer.pack.
  replace ((packer.min_value p <=? n) && (n <=? packer.max_value p)) with true.
  - destruct p; congruence.
  - symmetry. apply andb_true_iff. split; apply Z.leb_le; lia.
Qed.

Lemma unpack_le_split p n :
  p <> packer.boolean ->
  packer.min_value p <= n <= packer.max_value p ->
  packer.unpack p (le_split (packer.size p) n) = n.
Proof.
  intros Hp H. unfold packer.unpack.
  rewrite le_combine_split.
  replace (Z.of_nat (packer.size p) * 8) with (packer.bits p)
    by (unfold packer.bits; lia).
  assert (E : forall u, (match p with
            | packer.boolean => if u =? 0 then 0 else 1
            | _ => if packer.signed p && (2 ^ (packer.bits p - 1) <=? u)
                   then u - 2 ^ packer.bits p else u
            end) = if packer.signed p && (2 ^ (packer.bits p - 1) <=? u)
                   then u - 2 ^ packer.bits p else u)
    by (intros; destruct p; congruence).
  rewrite E. clear E.
  assert (Hb : 2 ^ packer.bits p = 2 * 2 ^ (packer.bits p - 1))
    by (destruct p; reflexivity).
  assert (Hpos : 0 < 2 ^ (packer.bits p - 1)) by (destruct p; reflexivity).
  unfold packer.min_value, packer.max_value in H.
  destruct (packer.signed p); cbn [andb].
  - destruct (Z.leb_spec (2 ^ (packer.bits p - 1)) (n mod 2 ^ packer.bits p)) as [Hhi | Hlo].
    + destruct (Z.neg_nonneg_cases n) as [Hneg | Hnn].
      * rewrite <- (Z.mod_unique n (2 ^ packer.bits p) (-1) (n + 2 ^ packer.bits p)); lia.
      * rewrite Z.mod_small in Hhi by lia. lia.
    + destruct (Z.neg_nonneg_cases n) as [Hneg | Hnn].
      * rewrite <- (Z.mod_unique n (2 ^ packer.bits p) (-1) (n + 2 ^ packer.bits p)) in Hlo; lia.
      * apply Z.mod_small. lia.
  - apply Z.mod_small. lia.
Qed.

Lemma Write_inside p buf head n bs :
  0 <= head -> head + Z.of_nat (packer.size p) <= len buf ->
  packer.pack p n = Some bs ->
  encode.Write p buf head n =
  Ok (firstn (Z.to_nat head) buf ++ bs
        ++ skipn (Z.to_nat (head + Z.of_nat (packer.size p))) buf).
Proof.
  intros H1 H2 Hp. unfold encode.Write.
  rewrite locate_inside by assumption. rewrite Hp.
  replace (Z.to_nat head + packer.size p)%nat
    with (Z.to_nat (head + Z.of_nat (packer.size p))) by lia.
  reflexivity.
Qed.

Lemma Write_not_raise p buf head n e :
  encode.Write p buf head n = Raise e -> e = StructError.
Proof.
  unfold encode.Write.
  destruct (encode.locate p buf head); [destruct (packer.pack p n)|];
    intros H; congruence.
Qed.

Lemma Get_inside p buf head :
  0 <= head -> head + Z.of_nat (packer.size p) <= len buf ->
  encode.Get p buf head =
  Ok (packer.unpack p (firstn (packer.size p) (skipn (Z.to_nat head) buf))).
Proof.
  intros H1 H2. unfold encode.Get.
  rewrite locate_inside by assumption. reflexivity.
Qed.

(** Reading where [bs] lies gives the value of [bs]. *)
Lemma Get_app p pre bs post head :
  head = len pre -> length bs = packer.size p ->
  encode.Get p (pre ++ bs ++ post) head = Ok (packer.unpack p bs).
Proof.
  intros -> Hbs. pose proof (len_nonneg pre). pose proof (len_nonneg post).
  rewrite Get_inside by (rewrite ?len_app; unfold len in *; lia).
  rewrite (skipn_app_left pre _ 0) by (unfold len; lia).
  cbn [Z.to_nat skipn]. rewrite <- Hbs.
  replace (length bs) with (length bs + 0)%nat by lia.
  rewrite firstn_app_2. cbn [firstn]. rewrite app_nil_r. reflexivity.
Qed.

(** ** Writing below [head] *)

Lemma prepended_intro bs b1 L h :
  wf b1 -> 0 <= h -> h + len bs = Builder.head b1 ->
  L = firstn (Z.to_nat h) (Builder.Bytes b1) ++ bs
        ++ skipn (Z.to_nat (Builder.head b1)) (Builder.Bytes b1) ->
  prepended bs b1
    (Builder.mk L (Builder.current_vtable b1) h (Builder.minalign b1)
       (Builder.objectEnd b1) (Builder.vtables b1)).
Proof.
  intros Hwf Hh Hsum ->. unfold wf in Hwf.
  pose proof (len_nonneg bs) as Hbs.
  assert (Hlen : len (firstn (Z.to_nat h) (Builder.Bytes b1) ++ bs
                      ++ skipn (Z.to_nat (Builder.head b1)) (Builder.Bytes b1))
                 = len (Builder.Bytes b1)).
  { rewrite !len_app, len_firstn, len_skipn by lia. lia. }
  unfold prepended. cbn [Builder.head Builder.Bytes Builder.current_vtable
    Builder.minalign Builder.objectEnd Builder.vtables].
  replace (Builder.head b1 - len bs) with h by lia.
  repeat split; try reflexivity; try lia.
  rewrite !Output_inside; [|exact Hwf|unfold wf; cbn; rewrite Hlen; lia].
  cbn [Builder.head Builder.Bytes].
  rewrite (skipn_app_left _ _ 0) by (rewrite ?len_firstn; lia).
  reflexivity.
Qed.

Lemma Place_prepended x flags b bs :
  wf b ->
  bytewidth flags = Z.of_nat (packer.size (packer_type flags)) ->
  bytewidth flags <= Builder.head b ->
  packer.pack (packer_type flags) x = Some bs ->
  exists b', Builder.Place x flags b = Ok (tt, b') /\ prepended bs b b'.
Proof.
  intros Hwf Hw Hroom Hp. unfold wf in Hwf.
  pose proof (pack_length _ _ _ Hp) as Hlen.
  unfold Builder.Place.
  rewrite (Write_inside _ _ _ _ bs) by (try exact Hp; lia).
  cbn [rbind]. eexists. split; [reflexivity|].
  unfold Builder.set_head, Builder.set_Bytes. cbn [Builder.Bytes Builder.head
    Builder.current_vtable Builder.minalign Builder.objectEnd Builder.vtables].
  apply prepended_intro; [exact Hwf | lia | unfold len; lia |].
  rewrite <- Hw. do 3 f_equal. lia.
Qed.

Lemma Place_raise x flags b e :
  Builder.Place x flags b = Raise e -> e = StructError.
Proof.
  unfold Builder.Place.
  destruct (encode.Write _ _ _ _) as [bytes | e'] eqn:E; cbn [rbind];
    [discriminate|].
  intros H. injection H as <-. eapply Write_not_raise, E.
Qed.

Lemma prepended_wf bs b1 b2 :
  wf b1 -> len bs <= Builder.head b1 -> prepended bs b1 b2 -> wf b2.
Proof.
  unfold wf, prepended. intros H1 H2 (Hh & _ & Hl & _).
  pose proof (len_nonneg bs). lia.
Qed.

Lemma prepended_Offset bs b1 b2 :
  prepended bs b1 b2 -> Builder.Offset b2 = Builder.Offset b1 + len bs.
Proof.
  unfold prepended, Builder.Offset. intros (Hh & _ & Hl & _). lia.
Qed.

(** The bytes just written are read back at the new [head]. *)
Lemma prepended_Get p bs b1 b2 :
  wf b1 -> len bs <= Builder.head b1 -> length bs = packer.size p ->
  prepended bs b1 b2 ->
  encode.Get p (Builder.Bytes b2) (Builder.head b2) = Ok (packer.unpack p bs).
Proof.
  intros Hwf Hroom Hlen (Hh & Hb & _). unfold wf in Hwf.
  rewrite Hb, Hh. apply Get_app; [|exact Hlen].
  pose proof (len_nonneg bs). rewrite len_firstn; lia.
Qed.

Lemma Prep_4_ok b b1 :
  wf b -> Builder.Prep 4 0 b = Ok (tt, b1) ->
  wf b1 /\ 4 <= Builder.head b1 /\ b1 = Prep_state 4 0 b.
Proof.
  intros Hwf H. rewrite Prep_unfold in H. cbv zeta in H.
  destruct (_ && _); [discriminate|]. injection H as <-.
  destruct (Prep_state_wf 2 0 b Hwf) as [H1 H2]; try lia.
  change (2 ^ 2) with 4 in *. repeat split; try apply H2. lia.
Qed.

(** A value outside the range of its kind is not placed. *)
Lemma Place_out_of_range x flags b :
  packer_type flags <> packer.boolean ->
  ~ packer.min_value (packer_type flags) <= x <= packer.max_value (packer_type flags) ->
  Builder.Place x flags b = Raise StructError.
Proof.
  intros Hnb Hr.
  assert (Hp : packer.pack (packer_type flags) x = None).
  { assert (E : packer.pack (packer_type flags) x =
                if (packer.min_value (packer_type flags) <=? x)
                   && (x <=? packer.max_value (packer_type flags))
                then Some (le_split (packer.size (packer_type flags)) x)
                else None)
      by (destruct (packer_type flags); [congruence | reflexivity ..]).
    rewrite E.
    destruct (Z.leb_spec (packer.min_value (packer_type flags)) x);
      destruct (Z.leb_spec x (packer.max_value (packer_type flags)));
      cbn [andb]; try reflexivity. lia. }
  unfold Builder.Place, encode.Write. rewrite Hp.
  destruct (encode.locate _ _ _); reflexivity.
Qed.

(** What the bytes of a kind hold lies in the range of the kind. *)
Lemma unpack_range p bs :
  p <> packer.boolean -> length bs = packer.size p ->
  packer.min_value p <= packer.unpack p bs <= packer.max_value p.
Proof.
  intros Hp Hlen. pose proof (le_combine_bound bs) as Hb. rewrite Hlen in Hb.
  replace (8 * Z.of_nat (packer.size p)) with (packer.bits p) in Hb
    by (unfold packer.bits; lia).
  assert (Hbits : 1 <= packer.bits p) by (destruct p; cbn; lia).
  assert (Hpow : 2 ^ packer.bits p = 2 * 2 ^ (packer.bits p - 1)).
  { rewrite <- Z.pow_succ_r by lia. f_equal. lia. }
  assert (E : packer.unpack p bs =
              if packer.signed p && (2 ^ (packer.bits p - 1) <=? le_combine bs)
              then le_combine bs - 2 ^ packer.bits p else le_combine bs)
    by (destruct p; [congruence | reflexivity ..]).
  rewrite E. unfold packer.min_value, packer.max_value.
  destruct (packer.signed p); cbn [andb]; [|lia].
  destruct (Z.leb_spec (2 ^ (packer.bits p - 1)) (le_combine bs)); lia.
Qed.

(** C8 as stated fails: on [Builder(16)], where [Prep(4, 0)] returns and
    [Offset()] is 0, [PrependSOffsetTRelative(-2**31)] has the delta 2^31,
    which is not negative, and yet writes nothing: 2^31 + 4 is no signed
    32-bit value, no 4 bytes hold it and the codec refuses it.  The same
    holds of [PrependUOffsetTRelative(-2**32)] and 2^32 + 4. *)
Lemma PrependOffsetTRelative_out_of_range :
  exists b b1,
    Builder.__init__ 16 = Ok b /\
    Builder.Prep 4 0 b = Ok (tt, b1) /\
    Builder.Offset b1 = 0 /\
    0 <= Builder.Offset b1 - (- 2 ^ 31) /\
    Builder.PrependSOffsetTRelative (- 2 ^ 31) b = Raise StructError /\
    0 <= Builder.Offset b1 - (- 2 ^ 32) /\
    Builder.PrependUOffsetTRelative (- 2 ^ 32) b = Raise StructError /\
    (forall bs, length bs = 4%nat ->
       packer.unpack packer.soffset bs <> Builder.Offset b1 - (- 2 ^ 31) + 4) /\
    (forall bs, length bs = 4%nat ->
       packer.unpack packer.uoffset bs <> Builder.Offset b1 - (- 2 ^ 32) + 4).
Proof.
  exists (Builder.mk (bytearray 16) None 16 1 None []),
         (Builder.mk (bytearray 16) None 16 4 None []).
  split; [reflexivity|]. split; [reflexivity|]. split; [reflexivity|].
  split; [vm_compute; discriminate|]. split; [vm_compute; reflexivity|].
  split; [vm_compute; discriminate|]. split; [vm_compute; reflexivity|].
  change (Builder.Offset (Builder.mk (bytearray 16) None 16 4 None [])) with 0.
  split; intros bs Hlen.
  - pose proof (unpack_range packer.int32 bs ltac:(discriminate) Hlen) as H.
    change (packer.max_value packer.int32) with (2 ^ 31 - 1) in H.
    change packer.soffset with packer.int32. lia.
  - pose proof (unpack_range packer.uint32 bs ltac:(discriminate) Hlen) as H.
    change (packer.max_value packer.uint32) with (2 ^ 32 - 1) in H.
    change packer.uoffset with packer.uint32. lia.
Qed.

(** C8.  [PrependSOffsetTRelative(targetOffset)] first calls [Prep(4, 0)],
    whose error, if it raises, is the error of the call.  Once [Prep] has
    returned, the call raises [OffsetArithmeticError] exactly when
    [Offset() - targetOffset] is negative.  Otherwise, when
    [(Offset() - targetOffset) + 4] is at most 2^31 - 1, it writes the 4
    bytes of that value, little-endian, just below [head] and moves [head]
    down by 4; a larger value is no value of the signed 32-bit kind, and the
    call raises the error of the codec.  [PrependUOffsetTRelative] does the
    same with the unsigned 32-bit kind, whose greatest value is 2^32 - 1. *)
Theorem PrependOffsetTRelative_spec (b : Builder.t) (targetOffset : Z) :
  wf b ->
  (forall e, Builder.Prep 4 0 b = Raise e ->
     Builder.PrependSOffsetTRelative targetOffset b = Raise e /\
     Builder.PrependUOffsetTRelative targetOffset b = Raise e) /\
  (forall b1, Builder.Prep 4 0 b = Ok (tt, b1) ->
     let delta := Builder.Offset b1 - targetOffset in
     (Builder.PrependSOffsetTRelative targetOffset b = Raise OffsetArithmeticError
      <-> delta < 0) /\
     (Builder.PrependUOffsetTRelative targetOffset b = Raise OffsetArithmeticError
      <-> delta < 0) /\
     (0 <= delta -> delta + 4 <= 2 ^ 31 - 1 ->
      exists b2,
        Builder.PrependSOffsetTRelative targetOffset b = Ok (tt, b2) /\
        prepended (le_split 4 (delta + 4)) b1 b2 /\
        Builder.head b2 = Builder.head b1 - 4 /\
        read_soffset (Builder.Bytes b2) (Builder.head b2) = Ok (delta + 4)) /\
     (0 <= delta -> delta + 4 <= 2 ^ 32 - 1 ->
      exists b2,
        Builder.PrependUOffsetTRelative targetOffset b = Ok (tt, b2) /\
        prepended (le_split 4 (delta + 4)) b1 b2 /\
        Builder.head b2 = Builder.head b1 - 4 /\
        read_uoffset (Builder.Bytes b2) (Builder.head b2) = Ok (delta + 4)) /\
     (2 ^ 31 - 1 < delta + 4 ->
      Builder.PrependSOffsetTRelative targetOffset b = Raise StructError) /\
     (2 ^ 32 - 1 < delta + 4 ->
      Builder.PrependUOffsetTRelative targetOffset b = Raise StructError)).
Proof.
  intros Hwf. split.
  { intros e HP.
    unfold Builder.PrependSOffsetTRelative, Builder.PrependUOffsetTRelative,
      Builder.bind.
    cbn [bytewidth SOffsetTFlags UOffsetTFlags Int32Flags Uint32Flags].
    rewrite HP. split; reflexivity. }
  intros b1 HP delta.
  destruct (Prep_4_ok b b1 Hwf HP) as (Hwf1 & Hroom & _).
  assert (ES : Builder.PrependSOffsetTRelative targetOffset b =
               if negb (delta >=? 0) then Raise OffsetArithmeticError
               else Builder.Place (delta + 4) SOffsetTFlags b1).
  { unfold Builder.PrependSOffsetTRelative, Builder.bind, Builder.gets.
    cbn [bytewidth SOffsetTFlags Int32Flags]. rewrite HP. fold delta.
    destruct (negb (delta >=? 0)); reflexivity. }
  assert (EU : Builder.PrependUOffsetTRelative targetOffset b =
               if negb (delta >=? 0) then Raise OffsetArithmeticError
               else Builder.Place (delta + 4) UOffsetTFlags b1).
  { unfold Builder.PrependUOffsetTRelative, Builder.bind, Builder.gets.
    cbn [bytewidth UOffsetTFlags Uint32Flags]. rewrite HP. fold delta.
    destruct (negb (delta >=? 0)); reflexivity. }
  rewrite ES, EU.
  assert (W : forall flags p,
    packer_type flags = p -> bytewidth flags = 4 -> packer.size p = 4%nat ->
    p <> packer.boolean ->
    packer.min_value p <= delta + 4 <= packer.max_value p ->
    exists b2, Builder.Place (delta + 4) flags b1 = Ok (tt, b2) /\
      prepended (le_split 4 (delta + 4)) b1 b2 /\
      Builder.head b2 = Builder.head b1 - 4 /\
      encode.Get p (Builder.Bytes b2) (Builder.head b2) = Ok (delta + 4)).
  { intros flags p Hp Hw Hs Hnb Hr.
    pose proof (pack_in_range p _ Hnb Hr) as Hpack. rewrite Hs in Hpack.
    destruct (Place_prepended (delta + 4) flags b1 (le_split 4 (delta + 4)) Hwf1)
      as (b2 & H1 & H2); try (rewrite ?Hp, ?Hs; assumption || lia).
    exists b2. split; [exact H1|]. split; [exact H2|].
    assert (Hl : len (le_split 4 (delta + 4)) = 4)
      by (unfold len; rewrite length_le_split; reflexivity).
    split; [destruct H2 as [H2 _]; lia|].
    rewrite (prepended_Get p _ b1 b2 Hwf1) by
      (rewrite ?Hl, ?length_le_split, ?Hs; auto; lia).
    rewrite <- Hs at 1. rewrite unpack_le_split by assumption. reflexivity. }
  split; [|split; [|split; [|split; [|split]]]].
  - destruct (Z.geb_spec delta 0) as [Hd | Hd]; cbn [negb]; split; intros H;
      try lia; try reflexivity.
    apply Place_raise in H. discriminate.
  - destruct (Z.geb_spec delta 0) as [Hd | Hd]; cbn [negb]; split; intros H;
      try lia; try reflexivity.
    apply Place_raise in H. discriminate.
  - intros H0 H1. destruct (Z.geb_spec delta 0) as [Hd | Hd]; [|lia]. cbn [negb].
    apply (W SOffsetTFlags packer.int32); try reflexivity; try discriminate.
    change (packer.min_value packer.int32) with (- 2 ^ 31).
    change (packer.max_value packer.int32) with (2 ^ 31 - 1). lia.
  - intros H0 H1. destruct (Z.geb_spec delta 0) as [Hd | Hd]; [|lia]. cbn [negb].
    apply (W UOffsetTFlags packer.uint32); try reflexivity; try discriminate.
    change (packer.min_value packer.uint32) with 0.
    change (packer.max_value packer.uint32) with (2 ^ 32 - 1). lia.
  - intros H1.
    destruct (Z.geb_spec delta 0) as [Hd | Hd]; cbn [negb].
    + apply Place_out_of_range; [discriminate|].
      change (packer.max_value (packer_type SOffsetTFlags)) with (2 ^ 31 - 1). lia.
    + exfalso. lia.
  - intros H1.
    destruct (Z.geb_spec delta 0) as [Hd | Hd]; cbn [negb].
    + apply Place_out_of_range; [discriminate|].
      change (packer.max_value (packer_type UOffsetTFlags)) with (2 ^ 32 - 1). lia.
    + exfalso. lia.
Qed.

Lemma PrependOffsetTRelative_spec_witness :
  exists b2,
    Builder.PrependSOffsetTRelative 0 (Builder.mk (bytearray 16) None 16 1 None [])
      = Ok (tt, b2) /\
    Builder.head b2 = 12 /\
    read_soffset (Builder.Bytes b2) (Builder.head b2) = Ok 4.
Proof.
  assert (Hwf : wf (Builder.mk (bytearray 16) None 16 1 None []))
    by (vm_compute; split; discriminate).
  assert (HP : Builder.Prep 4 0 (Builder.mk (bytearray 16) None 16 1 None [])
               = Ok (tt, Builder.mk (bytearray 16) None 16 4 None []))
    by reflexivity.
  pose proof (proj2 (PrependOffsetTRelative_spec _ 0 Hwf) _ HP) as T.
  cbv zeta in T.
  destruct T as (_ & _ & T & _).
  destruct T as (b2 & H1 & _ & H2 & H3).
  - vm_compute. discriminate.
  - vm_compute. discriminate.
  - exists b2. repeat split; [exact H1 | exact H2 | exact H3].
Defined.

(** ** The minimal table *)

(** C5 as stated fails: the output of the minimal table has 20 bytes, not
    16, and its vtable has 10 bytes (five VOffsets), not 8. *)
Lemma minimal_table_not_16_bytes :
  exists out,
    run_on fresh_Builder minimal_table = Ok out /\
    len out = 20 /\ len out <> 16 /\
    read_voffset out 6 = Ok 10.
Proof.
  eexists. split; [vm_compute; reflexivity|].
  repeat split. vm_compute. discriminate.
Qed.

(** C5, amended.  On a fresh Builder, [StartObject(3); EndObject();
    Finish(root)] gives an [Output()] of exactly 20 bytes: the 4-byte UOffset
    root pointer (16), 2 zero bytes of padding, a 10-byte vtable with the
    VOffsets (10, 4, 0, 0, 0) and the 4-byte SOffset object header (10).
    The reader finds the object at position 16 and all three fields
    absent. *)
Theorem minimal_table_output :
  run_on fresh_Builder minimal_table =
    Ok [Byte.x10; Byte.x00; Byte.x00; Byte.x00;
        Byte.x00; Byte.x00;
        Byte.x0a; Byte.x00; Byte.x04; Byte.x00;
        Byte.x00; Byte.x00; Byte.x00; Byte.x00; Byte.x00; Byte.x00;
        Byte.x0a; Byte.x00; Byte.x00; Byte.x00] /\
  run_on (Builder.__init__ 0) minimal_table = run_on fresh_Builder minimal_table /\
  exists out,
    run_on fresh_Builder minimal_table = Ok out /\
    len out = 20 /\
    read_uoffset out 0 = Ok 16 /\
    getslice out 4 6 = [Byte.x00; Byte.x00] /\
    map (read_voffset out) [6; 8; 10; 12; 14] = map Ok [10; 4; 0; 0; 0] /\
    read_soffset out 16 = Ok 10 /\
    Table.GetRoot out 0 = Ok (Table.mk out 16) /\
    map (Table.Offset (Table.mk out 16)) [4; 6; 8] = map Ok [0; 0; 0].
Proof.
  split; [vm_compute; reflexivity|].
  split; [vm_compute; reflexivity|].
  eexists. split; [vm_compute; reflexivity|].
  repeat split.
Qed.

(** ** Strings *)

Lemma bind_ok {A B} (m : Builder.M A) (k : A -> Builder.M B) b a b' :
  m b = Ok (a, b') -> Builder.bind m k b = k a b'.
Proof. intros H. unfold Builder.bind. rewrite H. reflexivity. Qed.

Lemma Pad_1_prepended b :
  wf b -> 1 <= Builder.head b ->
  exists b', Builder.Pad 1 b = Ok (tt, b') /\ prepended [Byte.x00] b b'.
Proof.
  intros Hwf Hroom. pose proof Hwf as Hwf'. unfold wf in Hwf.
  unfold Builder.Pad, Builder.bind, Builder.gets, Builder.modify, range.
  replace (Builder.head b - (Builder.head b - 1)) with 1 by lia.
  change (seq 0 (Z.to_nat 1)) with [0%nat].
  cbn [map Builder.Pad_loop Z.of_nat].
  rewrite Z.add_0_r. unfold Builder.bind, Builder.ret, setbyte, setitem.
  destruct (Z.ltb_spec (Builder.head b - 1) 0); [lia|].
  destruct (Z.leb_spec 0 (Builder.head b - 1)); [|lia].
  destruct (Z.ltb_spec (Builder.head b - 1) (len (Builder.Bytes b))); [|lia].
  cbn [andb Z.leb Z.ltb Z.compare rbind].
  eexists. split; [reflexivity|].
  unfold Builder.set_head, Builder.set_Bytes.
  cbn [Builder.Bytes Builder.head Builder.current_vtable Builder.minalign
       Builder.objectEnd Builder.vtables].
  apply prepended_intro; [exact Hwf' | lia | change (len [Byte.x00]) with 1; lia |].
  change (byte.of_Z 0) with Byte.x00. cbn [app]. do 3 f_equal. lia.
Qed.

Lemma setslice_prepended (x : list byte) b :
  wf b -> len x <= Builder.head b ->
  prepended x b
    (Builder.set_Bytes
       (setslice (Builder.Bytes b) (Builder.head b - len x)
          (Builder.head b - len x + len x) x)
       (Builder.set_head (Builder.head b - len x) b)).
Proof.
  intros Hwf Hroom. pose proof Hwf as Hwf'. unfold wf in Hwf.
  pose proof (len_nonneg x) as Hx.
  unfold Builder.set_head, Builder.set_Bytes.
  cbn [Builder.Bytes Builder.head Builder.current_vtable Builder.minalign
       Builder.objectEnd Builder.vtables].
  apply prepended_intro; [exact Hwf' | lia | lia |].
  unfold setslice. rewrite !slice_index_inside by lia.
  do 3 f_equal. lia.
Qed.

Lemma prepended_Output_len bs b1 b2 :
  wf b1 -> len bs <= Builder.head b1 -> prepended bs b1 b2 ->
  Builder.Bytes b2 =
    firstn (Z.to_nat (Builder.head b2)) (Builder.Bytes b2) ++ Builder.Output b2.
Proof.
  intros H1 H2 H3. pose proof (prepended_wf _ _ _ H1 H2 H3) as Hwf2.
  rewrite (Output_inside b2 Hwf2). symmetry. apply firstn_skipn.
Qed.

Lemma wf_Bytes_split b :
  wf b ->
  Builder.Bytes b =
    firstn (Z.to_nat (Builder.head b)) (Builder.Bytes b) ++ Builder.Output b /\
  len (firstn (Z.to_nat (Builder.head b)) (Builder.Bytes b)) = Builder.head b /\
  len (Builder.Output b) = Builder.Offset b.
Proof.
  intros Hwf. rewrite (Output_inside b Hwf). unfold wf in Hwf.
  split; [symmetry; apply firstn_skipn|].
  rewrite len_firstn, len_skipn by lia. unfold Builder.Offset. lia.
Qed.

Lemma byte_at_app_head (pre post : list byte) x i :
  i = len pre -> byte_at (pre ++ x :: post) i = Some x.
Proof.
  intros ->. unfold byte_at. pose proof (len_nonneg pre).
  destruct (Z.ltb_spec (len pre) 0); [lia|].
  rewrite nth_error_app2 by (unfold len; lia).
  replace (Z.to_nat (len pre) - length pre)%nat with 0%nat by (unfold len; lia).
  reflexivity.
Qed.

Lemma skipn_split {A} (l : list A) a c :
  0 <= a <= c -> c <= len l ->
  skipn (Z.to_nat a) l =
  firstn (Z.to_nat (c - a)) (skipn (Z.to_nat a) l) ++ skipn (Z.to_nat c) l.
Proof.
  intros H1 H2.
  rewrite <- (firstn_skipn (Z.to_nat (c - a)) (skipn (Z.to_nat a) l)) at 1.
  f_equal. rewrite skipn_skipn. f_equal. lia.
Qed.

Lemma Prep_ok k additionalBytes b :
  wf b -> 0 <= k -> 0 <= additionalBytes ->
  2 * len (Builder.Bytes b) < 2 ^ 31 ->
  len (Builder.Bytes b) + 2 * 2 ^ k + additionalBytes <= 2 ^ 31 ->
  Builder.Prep (2 ^ k) additionalBytes b =
  Ok (tt, Prep_state (2 ^ k) additionalBytes b).
Proof.
  intros Hwf Hk Ha H1 H2. unfold wf in Hwf.
  pose proof (alignSize_range k additionalBytes b Hk) as Hp.
  rewrite Prep_unfold. cbv zeta.
  set (pad := alignSize (2 ^ k) additionalBytes b) in *.
  replace (_ && _) with false; [reflexivity|].
  symmetry. apply andb_false_iff. right. apply Z.leb_gt.
  unfold grow_size. lia.
Qed.

(** The written region after [Prep]: the old one behind the pad bytes. *)
Lemma Prep_state_Output k additionalBytes b :
  wf b -> 0 <= k -> 0 <= additionalBytes ->
  exists pad,
    Builder.Output (Prep_state (2 ^ k) additionalBytes b) = pad ++ Builder.Output b /\
    len pad = alignSize (2 ^ k) additionalBytes b.
Proof.
  intros Hwf Hk Ha.
  destruct (Prep_state_wf k additionalBytes b Hwf Hk Ha) as [Hroom Hwf'].
  pose proof (alignSize_range k additionalBytes b Hk) as Hp.
  rewrite (Output_inside _ Hwf'), (Output_inside _ Hwf).
  unfold wf in Hwf, Hwf'. revert Hroom Hwf'.
  unfold Prep_state. cbv zeta. cbn [Builder.head Builder.Bytes].
  set (pad := alignSize (2 ^ k) additionalBytes b) in *.
  set (grown := if Builder.head b <? pad + 2 ^ k + additionalBytes
                then grow_size (pad + 2 ^ k + additionalBytes) b - len (Builder.Bytes b)
                else 0).
  assert (Hg : 0 <= grown).
  { unfold grown. pose proof (grow_size_lower (pad + 2 ^ k + additionalBytes) b).
    pose proof (len_nonneg (Builder.Bytes b)). destruct (_ <? _); lia. }
  intros Hroom Hwf'.
  rewrite len_app, len_bytearray in Hwf' by lia.
  assert (Hpos : 0 < 2 ^ k) by (apply Z.pow_pos_nonneg; lia).
  eexists. split.
  - rewrite (skipn_split _ (Builder.head b + grown - pad) (Builder.head b + grown))
      by (rewrite ?len_app, ?len_bytearray; lia).
    f_equal.
    apply skipn_app_left; [rewrite len_bytearray; lia | lia].
  - rewrite len_firstn; [lia|].
    rewrite len_skipn by (rewrite ?len_app, ?len_bytearray; lia).
    rewrite len_app, len_bytearray by lia. lia.
Qed.

Lemma len_le_split n z : len (le_split n z) = Z.of_nat n.
Proof. unfold len. rewrite length_le_split. reflexivity. Qed.

Lemma unpack_uint32_le_split n :
  0 <= n <= 2 ^ 32 - 1 -> packer.unpack packer.uint32 (le_split 4 n) = n.
Proof.
  intros H. apply (unpack_le_split packer.uint32); [discriminate|].
  change (packer.min_value packer.uint32) with 0.
  change (packer.max_value packer.uint32) with (2 ^ 32 - 1). exact H.
Qed.

(** Reading a string through a UOffset that points to its length prefix. *)
Lemma String_reads pre (s : list byte) post Pos fieldoff :
  0 <= len s <= 2 ^ 32 - 1 ->
  uoffset_target (pre ++ le_split 4 (len s) ++ s ++ post) (Pos + fieldoff)
    = Ok (len pre) ->
  Table.String (Table.mk (pre ++ le_split 4 (len s) ++ s ++ post) Pos) fieldoff
    = Ok s.
Proof.
  intros Hs Ht. unfold Table.String. rewrite !Table_Get_unfold.
  cbn [Table.Bytes Table.Pos packer_type UOffsetTFlags Uint32Flags bytewidth].
  unfold uoffset_target, read_uoffset in Ht.
  change packer.uoffset with packer.uint32 in Ht.
  destruct (encode.Get packer.uint32 _ (Pos + fieldoff)) as [u | e];
    cbn [rbind] in *; [|discriminate].
  injection Ht as Hu.
  rewrite ?Table_Get_unfold.
  cbn [Table.Bytes Table.Pos packer_type UOffsetTFlags Uint32Flags bytewidth].
  replace (Pos + (fieldoff + u)) with (len pre) by lia.
  rewrite Get_app by (rewrite ?length_le_split; reflexivity).
  cbn [rbind]. rewrite unpack_uint32_le_split by exact Hs.
  f_equal. rewrite app_assoc.
  apply getslice_app_middle; rewrite len_app, len_le_split; lia.
Qed.

(** C3.  On a Builder with no object in progress (and room to grow below
    2^31 bytes), [CreateString(s)] writes the 4-byte length prefix [len(s)],
    then the payload [s], then one NUL byte that the prefix does not count,
    and returns the Offset of the prefix.  [Table.String] at a field whose
    UOffset points to that prefix, in any buffer that ends with the written
    region, returns exactly [s]. *)
Theorem CreateString_roundtrip (b : Builder.t) (s : list byte) :
  wf b ->
  Builder.current_vtable b = None ->
  2 * len (Builder.Bytes b) < 2 ^ 31 ->
  len (Builder.Bytes b) + len s + 8 < 2 ^ 31 ->
  exists off b' pad,
    Builder.CreateString s b = Ok (off, b') /\
    wf b' /\
    off = Builder.Offset b' /\
    len pad < 4 /\
    Builder.Output b' =
      le_split 4 (len s) ++ s ++ [Byte.x00] ++ pad ++ Builder.Output b /\
    read_uoffset (Builder.Bytes b') (Builder.head b') = Ok (len s) /\
    getslice (Builder.Bytes b') (Builder.head b' + 4) (Builder.head b' + 4 + len s) = s /\
    byte_at (Builder.Bytes b') (Builder.head b' + 4 + len s) = Some Byte.x00 /\
    (forall pre Pos fieldoff,
       uoffset_target (pre ++ Builder.Output b') (Pos + fieldoff) = Ok (len pre) ->
       Table.String (Table.mk (pre ++ Builder.Output b') Pos) fieldoff = Ok s) /\
    Builder.current_vtable b' = None /\
    Builder.vtables b' = Builder.vtables b.
Proof.
  intros Hwf Hcur HL1 HL2.
  pose proof (len_nonneg s) as Hs. pose proof (len_nonneg (Builder.Bytes b)) as HL.
  set (l := len s) in *.
  (* Prep(4, l + 1) *)
  set (b1 := Prep_state (2 ^ 2) (l + 1) b).
  assert (HP : Builder.Prep 4 (l + 1) b = Ok (tt, b1))
    by (apply (Prep_ok 2); try exact Hwf; lia).
  destruct (Prep_state_wf 2 (l + 1) b Hwf) as [Hroom1 Hwf1]; try lia.
  destruct (Prep_state_Output 2 (l + 1) b Hwf) as (pad & Hout1 & Hpad); try lia.
  pose proof (alignSize_range 2 (l + 1) b) as Rpad. rewrite <- Hpad in Rpad.
  fold b1 in Hroom1, Hwf1, Hout1.
  assert (Hcv1 : Builder.current_vtable b1 = None) by exact Hcur.
  assert (Hvt1 : Builder.vtables b1 = Builder.vtables b) by reflexivity.
  (* Pad(1) *)
  destruct (Pad_1_prepended b1 Hwf1) as (b2 & HPad & Hpre2); [lia|].
  assert (Hwf2 : wf b2).
  { eapply prepended_wf; [exact Hwf1 | | exact Hpre2].
    change (len [Byte.x00]) with 1. lia. }
  assert (Hh2 : Builder.head b2 = Builder.head b1 - 1) by (destruct Hpre2 as [H _]; exact H).
  (* the payload *)
  pose proof (setslice_prepended s b2 Hwf2) as Hpre3. fold l in Hpre3.
  set (b3 := Builder.set_Bytes _ _) in Hpre3.
  assert (Hroom2 : l <= Builder.head b2) by lia.
  specialize (Hpre3 Hroom2).
  assert (Hwf3 : wf b3).
  { eapply prepended_wf; [exact Hwf2 | | exact Hpre3]. exact Hroom2. }
  assert (Hh3 : Builder.head b3 = Builder.head b2 - l) by (destruct Hpre3 as [H _]; exact H).
  (* EndVector(l) *)
  assert (Hpack : packer.pack (packer_type UOffsetTFlags) l = Some (le_split 4 l)).
  { apply (pack_in_range packer.uint32); [discriminate|].
    change (packer.min_value packer.uint32) with 0.
    change (packer.max_value packer.uint32) with (2 ^ 32 - 1). lia. }
  assert (Hroom3 : bytewidth UOffsetTFlags <= Builder.head b3)
    by (change (bytewidth UOffsetTFlags) with 4; lia).
  destruct (Place_prepended l UOffsetTFlags b3 _ Hwf3 eq_refl Hroom3 Hpack)
    as (b4 & HPl & Hpre4).
  assert (Hl4 : len (le_split 4 l) = 4) by apply len_le_split.
  assert (Hwf4 : wf b4).
  { eapply prepended_wf; [exact Hwf3 | | exact Hpre4]. rewrite Hl4. exact Hroom3. }
  assert (Hout4 : Builder.Output b4 =
                  le_split 4 l ++ s ++ [Byte.x00] ++ pad ++ Builder.Output b).
  { destruct Hpre4 as (_ & _ & _ & -> & _). destruct Hpre3 as (_ & _ & _ & -> & _).
    destruct Hpre2 as (_ & _ & _ & -> & _). rewrite Hout1. reflexivity. }
  exists (Builder.Offset b4), b4, pad.
  split.
  { unfold Builder.CreateString.
    rewrite (bind_ok _ _ b tt b) by (unfold Builder.assertNotNested; rewrite Hcur; reflexivity).
    change (bytewidth UOffsetTFlags) with 4. fold l.
    rewrite (bind_ok _ _ b tt b1 HP).
    rewrite (bind_ok _ _ b1 tt b2 HPad).
    unfold Builder.bind at 1 2, Builder.modify at 1 2.
    unfold Builder.EndVector.
    replace (Builder.set_Bytes _ _) with b3.
    - rewrite (bind_ok _ _ b3 tt b4 HPl). reflexivity.
    - unfold b3, Builder.set_head, Builder.set_Bytes. cbn. reflexivity. }
  destruct (wf_Bytes_split b4 Hwf4) as (Hsplit & Hlenpre & _).
  split; [exact Hwf4|]. split; [reflexivity|]. split; [lia|].
  split; [exact Hout4|].
  split; [|split; [|split; [|split; [|split]]]].
  - unfold read_uoffset. change packer.uoffset with packer.uint32.
    rewrite (prepended_Get packer.uint32 _ b3 b4 Hwf3)
      by (rewrite ?Hl4, ?length_le_split; auto; lia || reflexivity).
    rewrite unpack_uint32_le_split by lia. reflexivity.
  - rewrite Hsplit, Hout4, app_assoc.
    apply getslice_app_middle; rewrite len_app, Hlenpre, Hl4; lia.
  - rewrite Hsplit, Hout4.
    set (F := firstn _ _) in *.
    replace (F ++ le_split 4 l ++ s ++ [Byte.x00] ++ pad ++ Builder.Output b)
      with ((F ++ le_split 4 l ++ s) ++ Byte.x00 :: pad ++ Builder.Output b)
      by (rewrite <- !app_assoc; reflexivity).
    apply byte_at_app_head. rewrite !len_app, Hlenpre, Hl4. lia.
  - intros pre Pos fieldoff Ht. rewrite Hout4 in *.
    apply String_reads; [fold l; lia | exact Ht].
  - destruct Hpre4 as (_ & _ & _ & _ & -> & _).
    destruct Hpre3 as (_ & _ & _ & _ & -> & _).
    destruct Hpre2 as (_ & _ & _ & _ & -> & _). exact Hcv1.
  - destruct Hpre4 as (_ & _ & _ & _ & _ & _ & _ & ->).
    destruct Hpre3 as (_ & _ & _ & _ & _ & _ & _ & ->).
    destruct Hpre2 as (_ & _ & _ & _ & _ & _ & _ & ->). exact Hvt1.
Qed.

Lemma CreateString_roundtrip_witness :
  exists off b',
    Builder.CreateString [Byte.x68; Byte.x69]
      (Builder.mk (bytearray 16) None 16 1 None []) = Ok (off, b') /\
    read_uoffset (Builder.Bytes b') (Builder.head b') = Ok 2 /\
    getslice (Builder.Bytes b') (Builder.head b' + 4) (Builder.head b' + 4 + 2)
      = [Byte.x68; Byte.x69] /\
    byte_at (Builder.Bytes b') (Builder.head b' + 4 + 2) = Some Byte.x00.
Proof.
  destruct (CreateString_roundtrip (Builder.mk (bytearray 16) None 16 1 None [])
              [Byte.x68; Byte.x69])
    as (off & b' & pad & H1 & _ & _ & _ & _ & H2 & H3 & H4 & _).
  - vm_compute. split; discriminate.
  - reflexivity.
  - vm_compute. reflexivity.
  - vm_compute. reflexivity.
  - exists off, b'. repeat split; [exact H1 | exact H2 | exact H3 | exact H4].
Defined.

(** Scenario S4 of the spec, run: a string field is read back. *)
Example string_field_example :
  run_on fresh_Builder
    (Builder.bind (Builder.CreateString [Byte.x68; Byte.x65; Byte.x6c; Byte.x6c; Byte.x6f])
       (fun s =>
     Builder.bind (Builder.StartObject 1) (fun _ =>
     Builder.bind (Builder.PrependUOffsetTRelativeSlot 0 s 0) (fun _ =>
     Builder.bind Builder.EndObject (fun o =>
     Builder.bind (Builder.Finish o) (fun h =>
     Builder.gets (fun self =>
       let! t := Table.GetRoot (Builder.Output self) 0 in
       let! off := Table.Offset t 4 in
       Table.String t off)))))))
  = Ok (Ok [Byte.x68; Byte.x65; Byte.x6c; Byte.x6c; Byte.x6f]).
Proof. vm_compute. reflexivity. Qed.

(** ** Later states of a Builder *)

Lemma pushed_refl b : wf b -> pushed [] b b.
Proof. intros H. unfold pushed. auto. Qed.

Lemma pushed_trans bs1 bs2 b b1 b2 :
  pushed bs1 b b1 -> pushed bs2 b1 b2 -> pushed (bs2 ++ bs1) b b2.
Proof.
  unfold pushed. intros (_ & H1 & H2 & H3 & H4) (W & G1 & G2 & G3 & G4).
  rewrite G1, H1, G2, G3, G4, <- app_assoc. auto.
Qed.

Lemma wf_Offset b : wf b -> Builder.Offset b = len (Builder.Output b).
Proof. intros H. destruct (wf_Bytes_split b H) as (_ & _ & E). auto. Qed.

Lemma pushed_Offset bs b b' :
  wf b -> pushed bs b b' -> Builder.Offset b' = Builder.Offset b + len bs.
Proof.
  intros H (W & E & _). rewrite (wf_Offset _ W), (wf_Offset _ H), E, len_app. lia.
Qed.

Lemma prepended_pushed bs b1 b2 :
  wf b1 -> len bs <= Builder.head b1 -> prepended bs b1 b2 -> pushed bs b1 b2.
Proof.
  intros H1 H2 H3. pose proof (prepended_wf _ _ _ H1 H2 H3) as W.
  destruct H3 as (_ & _ & _ & E & C & _ & O & V). unfold pushed. auto.
Qed.

Lemma Prep_inv k additionalBytes b b' :
  wf b -> 0 <= k -> 0 <= additionalBytes ->
  Builder.Prep (2 ^ k) additionalBytes b = Ok (tt, b') ->
  b' = Prep_state (2 ^ k) additionalBytes b /\
  2 ^ k + additionalBytes <= Builder.head b' /\
  exists pad,
    pushed pad b b' /\
    len pad = (- (Builder.Offset b + additionalBytes)) mod 2 ^ k.
Proof.
  intros Hwf Hk Ha H. rewrite Prep_unfold in H. cbv zeta in H.
  destruct (_ && _); [discriminate|]. injection H as <-.
  destruct (Prep_state_wf k additionalBytes b Hwf Hk Ha) as [Hroom Hwf'].
  destruct (Prep_state_Output k additionalBytes b Hwf Hk Ha) as (pad & Ho & Hp).
  split; [reflexivity|]. split; [exact Hroom|].
  exists pad. split.
  - unfold pushed. repeat split; try apply Hwf'; auto.
  - rewrite Hp, alignSize_mod by exact Hk. reflexivity.
Qed.

Lemma pack_inv p n bs :
  p <> packer.boolean -> packer.pack p n = Some bs ->
  packer.min_value p <= n <= packer.max_value p /\ bs = le_split (packer.size p) n.
Proof.
  intros Hp H.
  assert (E : packer.pack p n =
              if (packer.min_value p <=? n) && (n <=? packer.max_value p)
              then Some (le_split (packer.size p) n) else None)
    by (destruct p; [congruence | reflexivity ..]).
  rewrite E in H.
  destruct (_ && _) eqn:R; [|discriminate].
  apply andb_true_iff in R. destruct R as [R1 R2].
  apply Z.leb_le in R1, R2. injection H as <-. auto.
Qed.

Lemma Place_inv x flags b b' :
  wf b ->
  bytewidth flags = Z.of_nat (packer.size (packer_type flags)) ->
  bytewidth flags <= Builder.head b ->
  Builder.Place x flags b = Ok (tt, b') ->
  exists bs, packer.pack (packer_type flags) x = Some bs /\ prepended bs b b'.
Proof.
  intros Hwf Hw Hroom H.
  destruct (packer.pack (packer_type flags) x) as [bs|] eqn:Hp.
  - destruct (Place_prepended x flags b bs Hwf Hw Hroom Hp) as (b'' & H1 & H2).
    rewrite H1 in H. injection H as <-. exists bs. auto.
  - unfold Builder.Place, encode.Write in H. rewrite Hp in H.
    destruct (encode.locate _ _ _); discriminate.
Qed.

Lemma Write_app p pre old post n bs :
  length old = packer.size p -> packer.pack p n = Some bs ->
  encode.Write p (pre ++ old ++ post) (len pre) n = Ok (pre ++ bs ++ post).
Proof.
  intros Hold Hp. pose proof (len_nonneg pre). pose proof (len_nonneg post).
  rewrite (Write_inside _ _ _ _ bs)
    by (try exact Hp; rewrite ?len_app; unfold len in *; lia).
  f_equal. f_equal.
  - rewrite firstn_app.
    replace (Z.to_nat (len pre) - length pre)%nat with 0%nat by (unfold len; lia).
    rewrite firstn_all2 by (unfold len; lia). cbn [firstn]. apply app_nil_r.
  - f_equal. rewrite app_assoc.
    rewrite (skipn_app_left _ _ 0) by (rewrite ?len_app; unfold len; lia).
    reflexivity.
Qed.

Lemma Write_inv p buf head n bytes :
  encode.Write p buf head n = Ok bytes ->
  exists bs, packer.pack p n = Some bs.
Proof.
  unfold encode.Write. destruct (encode.locate p buf head); [|discriminate].
  destruct (packer.pack p n) as [bs|]; [|discriminate]. eauto.
Qed.

(** [Prepend] of a 16-bit VOffset at an even Offset. *)
Lemma PrependVOffsetT_inv v b b' :
  wf b -> (Builder.Offset b) mod 2 = 0 ->
  Builder.PrependVOffsetT v b = Ok (tt, b') ->
  pushed (le_split 2 v) b b' /\ 0 <= v <= 65535.
Proof.
  intros Hwf Heven H.
  unfold Builder.PrependVOffsetT, Builder.Prepend, Builder.bind in H.
  change (bytewidth VOffsetTFlags) with (2 ^ 1) in H.
  destruct (Builder.Prep (2 ^ 1) 0 b) as [[[] b0] | e] eqn:HP; [|discriminate].
  destruct (Prep_inv 1 0 b b0 Hwf) as (_ & Hroom & pad & Hpush0 & Hpad);
    try lia; try exact HP.
  rewrite Z.add_0_r in Hpad. change (2 ^ 1) with 2 in *.
  assert (Hz : len pad = 0).
  { rewrite Hpad. apply Z.mod_opp_l_z; [lia | exact Heven]. }
  assert (pad = []) by (destruct pad; [reflexivity | unfold len in Hz; cbn in Hz; lia]).
  subst pad.
  assert (Hwf0 : wf b0) by apply Hpush0.
  destruct (Place_inv v VOffsetTFlags b0 b' Hwf0 eq_refl) as (bs & Hp & Hpre);
    [cbn; lia | exact H |].
  apply pack_inv in Hp; [|discriminate]. destruct Hp as [Hr ->].
  split; [|exact Hr].
  rewrite <- (app_nil_r (le_split _ v)).
  eapply pushed_trans; [exact Hpush0|].
  apply prepended_pushed; [exact Hwf0 | rewrite len_le_split; cbn; lia | exact Hpre].
Qed.

Lemma field_entries_app cur1 cur2 oo :
  field_entries (cur1 ++ cur2) oo = field_entries cur1 oo ++ field_entries cur2 oo.
Proof. unfold field_entries. apply map_app. Qed.

Lemma len_vtable_fields entries :
  len (concat (map (le_split 2) entries)) = 2 * len entries.
Proof.
  induction entries as [|e es IH]; [reflexivity|].
  cbn [map concat]. rewrite len_app, len_le_split, IH.
  unfold len. cbn [length]. lia.
Qed.

(** The loop that writes the field entries. *)
Lemma write_fields_inv offs oo : forall b b',
  wf b -> (Builder.Offset b) mod 2 = 0 ->
  Builder.write_fields offs oo b = Ok (tt, b') ->
  pushed (concat (map (le_split 2) (field_entries (rev offs) oo))) b b' /\
  Forall (fun v => 0 <= v <= 65535) (field_entries offs oo).
Proof.
  induction offs as [|off rest IH]; intros b b' Hwf Heven H.
  - cbn in H. injection H as <-. split; [apply pushed_refl, Hwf | constructor].
  - cbn [Builder.write_fields] in H. unfold Builder.bind in H.
    destruct (Builder.PrependVOffsetT _ b) as [[[] b0] | e] eqn:HP; [|discriminate].
    destruct (PrependVOffsetT_inv _ b b0 Hwf Heven HP) as [Hpush Hr].
    assert (Hwf0 : wf b0) by apply Hpush.
    assert (Heven0 : (Builder.Offset b0) mod 2 = 0).
    { rewrite (pushed_Offset _ _ _ Hwf Hpush), len_le_split.
      change (Z.of_nat 2) with (1 * 2). rewrite Z.mod_add by lia. exact Heven. }
    destruct (IH b0 b' Hwf0 Heven0 H) as [Hpush' Hr'].
    split.
    + cbn [rev]. rewrite field_entries_app, map_app, concat_app.
      cbn [field_entries map concat]. rewrite app_nil_r.
      eapply pushed_trans; [exact Hpush | exact Hpush'].
    + cbn [field_entries map]. constructor; [exact Hr | exact Hr'].
Qed.


(** The 4-byte header [WriteVtable] reserves with
    [PrependSOffsetTRelative(0)]. *)
Lemma header_inv b b1 :
  wf b ->
  Builder.PrependSOffsetTRelative 0 b = Ok (tt, b1) ->
  exists pad hdr,
    pushed (hdr ++ pad) b b1 /\
    length hdr = 4%nat /\
    Builder.Offset b1 = header_offset b /\
    (Builder.Offset b1) mod 4 = 0 /\
    header_offset b <= 2 ^ 31 - 1.
Proof.
  intros Hwf H.
  unfold Builder.PrependSOffsetTRelative, Builder.bind, Builder.gets in H.
  change (bytewidth SOffsetTFlags) with (2 ^ 2) in H.
  destruct (Builder.Prep (2 ^ 2) 0 b) as [[[] b0] | e] eqn:HP; [|discriminate].
  destruct (Prep_inv 2 0 b b0 Hwf) as (_ & Hroom & pad & Hpush0 & Hpad);
    try lia; try exact HP.
  rewrite Z.add_0_r in Hpad. change (2 ^ 2) with 4 in *.
  assert (Hwf0 : wf b0) by apply Hpush0.
  pose proof (pushed_Offset _ _ _ Hwf Hpush0) as Hoff0.
  assert (Hnn : 0 <= Builder.Offset b0) by (unfold wf, Builder.Offset in *; lia).
  rewrite Z.sub_0_r in H.
  destruct (Z.geb_spec (Builder.Offset b0) 0); [|lia]. cbn [negb] in H.
  destruct (Place_inv (Builder.Offset b0 + 4) SOffsetTFlags b0 b1 Hwf0 eq_refl)
    as (bs & Hp & Hpre); [cbn; lia | exact H |].
  apply pack_inv in Hp; [|discriminate]. destruct Hp as [Hr ->].
  change (packer.size (packer_type SOffsetTFlags)) with 4%nat in *.
  change (packer.max_value (packer_type SOffsetTFlags)) with (2 ^ 31 - 1) in Hr.
  assert (Hpush1 : pushed (le_split 4 (Builder.Offset b0 + 4)) b0 b1)
    by (apply prepended_pushed;
        [exact Hwf0 | rewrite len_le_split; cbn; lia | exact Hpre]).
  pose proof (pushed_Offset _ _ _ Hwf0 Hpush1) as Hoff1.
  rewrite len_le_split in Hoff1.
  exists pad, (le_split 4 (Builder.Offset b0 + 4)).
  split; [eapply pushed_trans; eassumption|].
  split; [apply length_le_split|].
  assert (E : Builder.Offset b1 = header_offset b)
    by (unfold header_offset; lia).
  split; [exact E|]. split; [|unfold header_offset in *; lia].
  rewrite E. unfold header_offset.
  replace (Builder.Offset b + (- Builder.Offset b) mod 4 + 4)
    with (Builder.Offset b + (- Builder.Offset b) mod 4 + 1 * 4) by lia.
  rewrite Z.mod_add by lia.
  rewrite Zplus_mod_idemp_r.
  replace (_ + _) with 0 by lia. reflexivity.
Qed.


(** ** Writing a vtable *)

Lemma bind_inv {A B} (m : Builder.M A) (k : A -> Builder.M B) b r :
  Builder.bind m k b = Ok r ->
  exists a b0, m b = Ok (a, b0) /\ k a b0 = Ok r.
Proof.
  unfold Builder.bind. destruct (m b) as [[a b0] | e]; [|discriminate].
  intros H. exists a, b0. auto.
Qed.

Lemma Output_app b front written :
  Builder.Bytes b = front ++ written -> Builder.head b = len front ->
  wf b /\ Builder.Output b = written.
Proof.
  intros HB Hh. pose proof (len_nonneg front). pose proof (len_nonneg written).
  assert (Hwf : wf b) by (unfold wf; rewrite HB, Hh, len_app; lia).
  split; [exact Hwf|]. rewrite (Output_inside b Hwf), HB, Hh.
  rewrite (skipn_app_left front _ 0) by (unfold len; lia). reflexivity.
Qed.

Lemma mod_4_even n : n mod 4 = 0 -> n mod 2 = 0.
Proof.
  intros H. apply Z.mod_divide in H; [|lia]. destruct H as [q ->].
  replace (q * 4) with ((q * 2) * 2) by lia. apply Z.mod_mul. lia.
Qed.



(** ** Finding a written vtable *)

Lemma unpack_voffset_le_split n :
  0 <= n <= 65535 -> packer.unpack packer.voffset (le_split 2 n) = n.
Proof.
  intros H. apply (unpack_le_split packer.uint16); [discriminate|].
  change (packer.min_value packer.uint16) with 0.
  change (packer.max_value packer.uint16) with 65535. exact H.
Qed.





(** ** Vtable deduplication *)





(** ** The operations between two [EndObject] calls

    What the hypotheses of the deduplication theorem ask of the state in
    which the second object is finished is what the operations that write an
    object's fields provide: they only add bytes in front of the written
    region and leave [vtables] alone. *)

Lemma StartObject_later numfields b b' :
  wf b -> Builder.StartObject numfields b = Ok (tt, b') ->
  wf b' /\ Builder.Output b' = Builder.Output b /\
  Builder.vtables b' = Builder.vtables b /\
  Builder.current_vtable b' = Some (repeat 0 (Z.to_nat numfields)).
Proof.
  intros Hwf H.
  unfold Builder.StartObject, Builder.bind, Builder.assertNotNested,
    Builder.modify in H.
  destruct (Builder.current_vtable b); [discriminate|].
  injection H as <-. repeat split; apply Hwf.
Qed.

Lemma Slot_later slotnum b b' :
  wf b -> Builder.Slot slotnum b = Ok (tt, b') ->
  wf b' /\ Builder.Output b' = Builder.Output b /\
  Builder.vtables b' = Builder.vtables b.
Proof.
  intros Hwf H. unfold Builder.Slot in H.
  destruct (Builder.current_vtable b) as [vt|]; [|discriminate].
  destruct (setitem vt slotnum (Builder.Offset b)) as [vt'|]; [|discriminate].
  cbn [rbind] in H. injection H as <-. repeat split; apply Hwf.
Qed.

Lemma Prepend_later flags k x b b' :
  wf b -> 0 <= k ->
  bytewidth flags = 2 ^ k ->
  bytewidth flags = Z.of_nat (packer.size (packer_type flags)) ->
  Builder.Prepend flags x b = Ok (tt, b') ->
  exists bs, pushed bs b b'.
Proof.
  intros Hwf Hk Hw Hs H. unfold Builder.Prepend in H.
  apply bind_inv in H. destruct H as ([] & b0 & HP & H).
  rewrite Hw in HP.
  destruct (Prep_inv k 0 b b0 Hwf Hk) as (_ & Hroom & pad & Hpush0 & _);
    [lia | exact HP |].
  assert (Hwf0 : wf b0) by apply Hpush0.
  destruct (Place_inv x flags b0 b' Hwf0 Hs) as (bs & Hp & Hpre);
    [lia | exact H |].
  exists (bs ++ pad). eapply pushed_trans; [exact Hpush0|].
  apply prepended_pushed; [exact Hwf0 | | exact Hpre].
  apply pack_length in Hp. unfold len. lia.
Qed.

Lemma PrependSlot_later flags k o x d b b' :
  wf b -> 0 <= k ->
  bytewidth flags = 2 ^ k ->
  bytewidth flags = Z.of_nat (packer.size (packer_type flags)) ->
  Builder.PrependSlot flags o x d b = Ok (tt, b') ->
  wf b' /\ Builder.vtables b' = Builder.vtables b /\
  exists bs, Builder.Output b' = bs ++ Builder.Output b.
Proof.
  intros Hwf Hk Hw Hs H. unfold Builder.PrependSlot in H.
  destruct (negb (x =? d)).
  - apply bind_inv in H. destruct H as ([] & b0 & HP & H).
    destruct (Prepend_later flags k x b b0 Hwf Hk Hw Hs HP)
      as (bs & Hwf0 & Ho & _ & _ & Hv).
    destruct (Slot_later o b0 b' Hwf0 H) as (Hwf' & Ho' & Hv').
    split; [exact Hwf'|]. split; [congruence|].
    exists bs. congruence.
  - injection H as <-. split; [exact Hwf|]. split; [reflexivity|].
    exists []. reflexivity.
Qed.

Lemma integer_flags_shape flags :
  In flags integer_flags ->
  (exists k, 0 <= k <= 3 /\ bytewidth flags = 2 ^ k) /\
  bytewidth flags = Z.of_nat (packer.size (packer_type flags)) /\
  packer_type flags <> packer.boolean /\
  min_val flags = Some (packer.min_value (packer_type flags)) /\
  max_val flags = Some (packer.max_value (packer_type flags)).
Proof.
  intros H. cbn in H.
  repeat (destruct H as [<- | H];
          [split; [first [exists 0; split; [lia|reflexivity]
                         | exists 1; split; [lia|reflexivity]
                         | exists 2; split; [lia|reflexivity]
                         | exists 3; split; [lia|reflexivity]]
                  | repeat split; discriminate] |]).
  contradiction.
Qed.

Lemma Prepend_ok flags k x b :
  wf b -> 0 <= k ->
  bytewidth flags = 2 ^ k ->
  bytewidth flags = Z.of_nat (packer.size (packer_type flags)) ->
  packer_type flags <> packer.boolean ->
  packer.min_value (packer_type flags) <= x <= packer.max_value (packer_type flags) ->
  2 * len (Builder.Bytes b) < 2 ^ 31 ->
  len (Builder.Bytes b) + 2 * 2 ^ k <= 2 ^ 31 ->
  exists b' pad,
    Builder.Prepend flags x b = Ok (tt, b') /\
    pushed (le_split (packer.size (packer_type flags)) x ++ pad) b b' /\
    len pad = (- Builder.Offset b) mod 2 ^ k /\
    encode.Get (packer_type flags) (Builder.Bytes b') (Builder.head b') = Ok x.
Proof.
  intros Hwf Hk Hw Hs Hnb Hr HL1 HL2.
  unfold Builder.Prepend. rewrite Hw.
  rewrite (bind_ok _ _ b tt (Prep_state (2 ^ k) 0 b)) by (apply Prep_ok; lia || assumption).
  destruct (Prep_inv k 0 b (Prep_state (2 ^ k) 0 b) Hwf Hk)
    as (_ & Hroom & pad & Hpush0 & Hpad);
    [lia | apply Prep_ok; lia || assumption |].
  rewrite Z.add_0_r in Hpad, Hroom.
  set (b0 := Prep_state (2 ^ k) 0 b) in *.
  assert (Hwf0 : wf b0) by apply Hpush0.
  pose proof (pack_in_range _ _ Hnb Hr) as Hp.
  destruct (Place_prepended x flags b0 _ Hwf0 Hs ltac:(lia) Hp) as (b' & HPl & Hpre).
  assert (Hlen : len (le_split (packer.size (packer_type flags)) x) = 2 ^ k)
    by (rewrite len_le_split; lia).
  exists b', pad. split; [exact HPl|].
  split; [eapply pushed_trans; [exact Hpush0|];
          apply prepended_pushed; [exact Hwf0 | rewrite Hlen; lia | exact Hpre]|].
  split; [exact Hpad|].
  rewrite (prepended_Get _ _ b0 b' Hwf0)
    by (try apply length_le_split; try exact Hpre; rewrite Hlen; lia).
  rewrite unpack_le_split by assumption. reflexivity.
Qed.

Lemma valid_number_range flags x :
  In flags integer_flags ->
  valid_number flags x = Ok true ->
  packer.min_value (packer_type flags) <= x <= packer.max_value (packer_type flags).
Proof.
  intros Hin H. destruct (integer_flags_shape flags Hin) as (_ & _ & _ & Hmin & Hmax).
  unfold valid_number in H. rewrite Hmin, Hmax in H.
  injection H as H. apply andb_true_iff in H. destruct H as [H1 H2].
  apply Z.leb_le in H1, H2. lia.
Qed.

(** X1.  Every integer kind: [Prepend(flags, x)] of a value the descriptor
    accepts aligns the Offset to the kind's width, writes the little-endian
    bytes of [x] in front of the written region, and [Table.Get] at the new
    [head] reads [x] back. *)
Theorem Prepend_scalar_roundtrip (flags : TypeFlags) (x : Z) (b : Builder.t) :
  In flags integer_flags ->
  valid_number flags x = Ok true ->
  wf b ->
  2 * len (Builder.Bytes b) < 2 ^ 31 ->
  len (Builder.Bytes b) + 16 <= 2 ^ 31 ->
  exists b' pad,
    Builder.Prepend flags x b = Ok (tt, b') /\
    wf b' /\
    Builder.Output b' =
      le_split (Z.to_nat (bytewidth flags)) x ++ pad ++ Builder.Output b /\
    len pad = (- Builder.Offset b) mod bytewidth flags /\
    Builder.Offset b' = Builder.Offset b + len pad + bytewidth flags /\
    (Builder.Offset b') mod bytewidth flags = 0 /\
    Builder.current_vtable b' = Builder.current_vtable b /\
    Builder.vtables b' = Builder.vtables b /\
    Table.Get (Table.mk (Builder.Bytes b') (Builder.head b')) flags 0 = Ok x.
Proof.
  intros Hin Hv Hwf HL1 HL2.
  pose proof (valid_number_range flags x Hin Hv) as Hr.
  destruct (integer_flags_shape flags Hin) as ((k & Hk & Hw) & Hs & Hnb & _).
  assert (Hpow : 1 <= 2 ^ k <= 8).
  { assert (k = 0 \/ k = 1 \/ k = 2 \/ k = 3) as [-> | [-> | [-> | ->]]] by lia;
      cbn; lia. }
  destruct (Prepend_ok flags k x b Hwf) as (b' & pad & HP & Hpush & Hpad & Hget);
    try assumption; try lia.
  pose proof (pushed_Offset _ _ _ Hwf Hpush) as Hoff.
  rewrite len_app, len_le_split in Hoff.
  destruct Hpush as (Hwf' & Hout & Hcv & _ & Hvt).
  exists b', pad. rewrite Hw.
  replace (Z.to_nat (2 ^ k)) with (packer.size (packer_type flags)) by lia.
  split; [exact HP|]. split; [exact Hwf'|].
  split; [rewrite Hout, <- app_assoc; reflexivity|].
  split; [exact Hpad|]. split; [lia|].
  split; [|split; [exact Hcv|split; [exact Hvt|]]].
  - rewrite Hoff, Hpad, <- Hs, Hw.
    replace (Builder.Offset b + (2 ^ k + (- Builder.Offset b) mod 2 ^ k))
      with (Builder.Offset b + (- Builder.Offset b) mod 2 ^ k + 1 * 2 ^ k) by lia.
    rewrite Z.mod_add by lia. rewrite Zplus_mod_idemp_r.
    replace (Builder.Offset b + - Builder.Offset b) with 0 by lia.
    apply Z.mod_0_l. lia.
  - rewrite Table_Get_unfold. cbn [Table.Bytes Table.Pos].
    rewrite Z.add_0_r. exact Hget.
Qed.

Lemma Prepend_scalar_roundtrip_witness :
  exists b' (pad : list byte),
    Builder.Prepend Int32Flags (-7) (Builder.mk (bytearray 16) None 15 1 None [])
      = Ok (tt, b') /\
    len pad = 3 /\
    Builder.Offset b' = 8 /\
    Table.Get (Table.mk (Builder.Bytes b') (Builder.head b')) Int32Flags 0 = Ok (-7).
Proof.
  destruct (Prepend_scalar_roundtrip Int32Flags (-7)
              (Builder.mk (bytearray 16) None 15 1 None []))
    as (b' & pad & H1 & _ & _ & H2 & H3 & _ & _ & _ & H4).
  - cbn. auto 10.
  - reflexivity.
  - vm_compute. split; discriminate.
  - vm_compute. reflexivity.
  - vm_compute. discriminate.
  - exists b', pad. repeat split; [exact H1 | exact H2 | | exact H4].
    rewrite H3, H2. reflexivity.
Defined.

Lemma setbyte_inside (l : list byte) i x :
  0 <= i < len l -> 0 <= x < 256 ->
  setbyte l i x =
  Ok (firstn (Z.to_nat i) l ++ byte.of_Z x :: skipn (S (Z.to_nat i)) l).
Proof.
  intros Hi Hx. unfold setbyte, setitem.
  destruct (Z.ltb_spec i 0); [lia|].
  destruct (Z.leb_spec 0 i); [|lia].
  destruct (Z.ltb_spec i (len l)); [|lia].
  destruct (Z.leb_spec 0 x); [|lia].
  destruct (Z.ltb_spec x 256); [|lia].
  reflexivity.
Qed.

Lemma setbyte_bad_value (l : list byte) i x :
  0 <= i < len l -> ~ 0 <= x < 256 -> setbyte l i x = Raise ValueError.
Proof.
  intros Hi Hx. unfold setbyte.
  destruct (Z.ltb_spec i 0); [lia|].
  destruct (Z.leb_spec 0 i); [|lia].
  destruct (Z.ltb_spec i (len l)); [|lia].
  cbn [andb].
  destruct (Z.leb_spec 0 x); [|reflexivity].
  destruct (Z.ltb_spec x 256); [lia|reflexivity].
Qed.

(** Writing one byte below [head], as [PlaceBool] and [PlaceUint8] do. *)
Lemma put_byte_prepended b x :
  wf b -> 1 <= Builder.head b -> 0 <= x < 256 ->
  exists b',
    (let! bytes := setbyte (Builder.Bytes b) (Builder.head b - 1) x in
     Ok (tt, Builder.set_head (Builder.head b - 1) (Builder.set_Bytes bytes b)))
    = Ok (tt, b') /\
    prepended [byte.of_Z x] b b'.
Proof.
  intros Hwf Hroom Hx. pose proof Hwf as Hwf'. unfold wf in Hwf.
  rewrite setbyte_inside by lia. cbn [rbind].
  eexists. split; [reflexivity|].
  unfold Builder.set_head, Builder.set_Bytes.
  cbn [Builder.Bytes Builder.head Builder.current_vtable Builder.minalign
       Builder.objectEnd Builder.vtables].
  apply prepended_intro;
    [exact Hwf' | lia | change (len [byte.of_Z x]) with 1; lia |].
  cbn [app]. do 3 f_equal. lia.
Qed.

Lemma Prep_1 b :
  wf b -> 2 * len (Builder.Bytes b) < 2 ^ 31 ->
  exists b0,
    Builder.Prep 1 0 b = Ok (tt, b0) /\ pushed [] b b0 /\ 1 <= Builder.head b0.
Proof.
  intros Hwf HL. pose proof (len_nonneg (Builder.Bytes b)).
  assert (HP : Builder.Prep (2 ^ 0) 0 b = Ok (tt, Prep_state (2 ^ 0) 0 b))
    by (apply Prep_ok; try assumption; lia).
  destruct (Prep_inv 0 0 b _ Hwf ltac:(lia) ltac:(lia) HP)
    as (_ & Hroom & pad & Hpush & Hpad).
  change (2 ^ 0) with 1 in *. rewrite Z.mod_1_r in Hpad.
  assert (pad = []) by (destruct pad; [reflexivity | unfold len in Hpad; cbn in Hpad; lia]).
  subst pad. exists (Prep_state 1 0 b). split; [exact HP|]. split; [exact Hpush|lia].
Qed.

Lemma byte_of_Z_land x : byte.of_Z (Z.land x 255) = byte.of_Z x.
Proof.
  apply byte.unsigned_inj. rewrite !byte.unsigned_of_Z. unfold byte.wrap.
  change 255 with (Z.ones 8). rewrite Z.land_ones by lia.
  apply Z.mod_mod. lia.
Qed.

Lemma unpack_uint8_byte x :
  packer.unpack packer.uint8 [byte.of_Z x] = x mod 256.
Proof.
  unfold packer.unpack. rewrite le_combine_1, byte.unsigned_of_Z.
  reflexivity.
Qed.

Lemma unpack_int8_byte x :
  packer.unpack packer.int8 [byte.of_Z x] = (x + 128) mod 256 - 128.
Proof.
  unfold packer.unpack. rewrite le_combine_1, byte.unsigned_of_Z.
  unfold byte.wrap. change (2 ^ 8) with 256.
  change (packer.signed packer.int8) with true.
  change (2 ^ (packer.bits packer.int8 - 1)) with 128.
  change (2 ^ packer.bits packer.int8) with 256. cbn [andb].
  pose proof (Z.mod_pos_bound x 256 ltac:(lia)).
  pose proof (Z.mod_pos_bound (x + 128) 256 ltac:(lia)).
  pose proof (Z.div_mod x 256 ltac:(lia)).
  pose proof (Z.div_mod (x + 128) 256 ltac:(lia)).
  destruct (Z.leb_spec 128 (x mod 256)); lia.
Qed.

Lemma unpack_boolean_byte x :
  packer.unpack packer.boolean [byte.of_Z x] = if x mod 256 =? 0 then 0 else 1.
Proof.
  unfold packer.unpack. rewrite le_combine_1, byte.unsigned_of_Z. reflexivity.
Qed.

Lemma one_byte_read p x b0 b' :
  wf b0 -> 1 <= Builder.head b0 -> packer.size p = 1%nat ->
  prepended [byte.of_Z x] b0 b' ->
  encode.Get p (Builder.Bytes b') (0 + Builder.head b')
  = Ok (packer.unpack p [byte.of_Z x]).
Proof.
  intros Hwf Hroom Hs Hpre. rewrite Z.add_0_l.
  apply (prepended_Get p _ b0 b' Hwf); [exact Hroom | | exact Hpre].
  rewrite Hs. reflexivity.
Qed.

(** X2.  The one-byte kinds, which bypass the codec and assign into the
    bytearray.  [PrependUint8], [PrependByte] and [PrependBool] take a value
    in [range(256)] and raise [ValueError] for any other; [PrependInt8]
    masks with [0xff] and so takes every integer, storing it modulo 256: a
    value in [-128, 127] is read back unchanged by [GetInt8]. *)
Theorem Prepend_one_byte (x : Z) (b : Builder.t) :
  wf b ->
  2 * len (Builder.Bytes b) < 2 ^ 31 ->
  (0 <= x <= 255 ->
   exists b',
     Builder.PrependUint8 x b = Ok (tt, b') /\
     Builder.PrependByte x b = Ok (tt, b') /\
     Builder.PrependBool x b = Ok (tt, b') /\
     pushed [byte.of_Z x] b b' /\
     Table.GetUint8 (Table.mk (Builder.Bytes b') (Builder.head b')) 0 = Ok x /\
     Table.GetByte (Table.mk (Builder.Bytes b') (Builder.head b')) 0 = Ok x /\
     Table.GetBool (Table.mk (Builder.Bytes b') (Builder.head b')) 0
       = Ok (if x =? 0 then 0 else 1)) /\
  (~ 0 <= x <= 255 ->
   Builder.PrependUint8 x b = Raise ValueError /\
   Builder.PrependByte x b = Raise ValueError /\
   Builder.PrependBool x b = Raise ValueError) /\
  (exists b',
     Builder.PrependInt8 x b = Ok (tt, b') /\
     pushed [byte.of_Z x] b b' /\
     Table.GetInt8 (Table.mk (Builder.Bytes b') (Builder.head b')) 0
       = Ok ((x + 128) mod 256 - 128) /\
     (-128 <= x <= 127 ->
      Table.GetInt8 (Table.mk (Builder.Bytes b') (Builder.head b')) 0 = Ok x)).
Proof.
  intros Hwf HL.
  destruct (Prep_1 b Hwf HL) as (b0 & HP & Hpush0 & Hroom).
  assert (Hwf0 : wf b0) by apply Hpush0.
  assert (EU : Builder.PrependUint8 x b =
               let! bytes := setbyte (Builder.Bytes b0) (Builder.head b0 - 1) x in
               Ok (tt, Builder.set_head (Builder.head b0 - 1) (Builder.set_Bytes bytes b0))).
  { unfold Builder.PrependUint8. change (bytewidth Uint8Flags) with 1.
    rewrite (bind_ok _ _ b tt b0 HP). reflexivity. }
  assert (EB : Builder.PrependByte x b = Builder.PrependUint8 x b) by reflexivity.
  assert (EO : Builder.PrependBool x b = Builder.PrependUint8 x b) by reflexivity.
  assert (EI : Builder.PrependInt8 x b =
               let! bytes := setbyte (Builder.Bytes b0) (Builder.head b0 - 1) (Z.land x 255) in
               Ok (tt, Builder.set_head (Builder.head b0 - 1) (Builder.set_Bytes bytes b0))).
  { unfold Builder.PrependInt8. change (bytewidth Int8Flags) with 1.
    rewrite (bind_ok _ _ b tt b0 HP). reflexivity. }
  assert (Hpushed : forall y b', prepended [byte.of_Z y] b0 b' ->
                                 pushed [byte.of_Z y] b b').
  { intros y b' Hpre. change [byte.of_Z y] with ([byte.of_Z y] ++ []).
    eapply pushed_trans; [exact Hpush0|].
    apply prepended_pushed; [exact Hwf0 | exact Hroom | exact Hpre]. }
  split; [|split].
  - intros Hx.
    destruct (put_byte_prepended b0 x Hwf0 Hroom) as (b' & HS & Hpre); [lia|].
    exists b'. rewrite EB, EO, EU.
    split; [exact HS|]. split; [exact HS|]. split; [exact HS|].
    split; [apply Hpushed, Hpre|].
    unfold Table.GetUint8, Table.GetByte, Table.GetBool, Table.Get.
    cbn [Table.Bytes Table.Pos packer_type Uint8Flags BoolFlags].
    rewrite !(one_byte_read _ x b0 b' Hwf0 Hroom) by (reflexivity || exact Hpre).
    rewrite unpack_uint8_byte, unpack_boolean_byte, Z.mod_small by lia.
    auto.
  - intros Hx. rewrite EB, EO, EU.
    unfold wf in Hwf0.
    rewrite setbyte_bad_value by lia. auto.
  - assert (Hland : 0 <= Z.land x 255 < 256).
    { change 255 with (Z.ones 8). rewrite Z.land_ones by lia.
      apply Z.mod_pos_bound. lia. }
    destruct (put_byte_prepended b0 (Z.land x 255) Hwf0 Hroom Hland)
      as (b' & HS & Hpre).
    rewrite byte_of_Z_land in Hpre.
    exists b'. rewrite EI. split; [exact HS|]. split; [apply Hpushed, Hpre|].
    unfold Table.GetInt8, Table.Get.
    cbn [Table.Bytes Table.Pos packer_type Int8Flags].
    rewrite (one_byte_read _ x b0 b' Hwf0 Hroom) by (reflexivity || exact Hpre).
    rewrite unpack_int8_byte. split; [reflexivity|].
    intros Hr. f_equal.
    rewrite Z.mod_small by lia. lia.
Qed.

Lemma Prepend_one_byte_witness :
  exists b',
    Builder.PrependInt8 (-3) (Builder.mk (bytearray 8) None 8 1 None []) = Ok (tt, b') /\
    Table.GetInt8 (Table.mk (Builder.Bytes b') (Builder.head b')) 0 = Ok (-3).
Proof.
  destruct (Prepend_one_byte (-3) (Builder.mk (bytearray 8) None 8 1 None []))
    as (_ & _ & b' & H1 & _ & _ & H2).
  - vm_compute. split; discriminate.
  - vm_compute. reflexivity.
  - exists b'. split; [exact H1|]. apply H2. lia.
Defined.

Lemma firstn_app_exact {A} (l1 l2 : list A) n :
  n = length l1 -> firstn n (l1 ++ l2) = l1.
Proof.
  intros ->. rewrite firstn_app, Nat.sub_diag, firstn_all. cbn [firstn].
  apply app_nil_r.
Qed.

Lemma skipn_app_exact {A} (l1 l2 : list A) n :
  n = length l1 -> skipn n (l1 ++ l2) = l2.
Proof.
  intros ->. rewrite skipn_app, Nat.sub_diag, skipn_all. reflexivity.
Qed.

Lemma zero_step (B : list byte) (lo m : nat) :
  (lo < length B)%nat ->
  firstn (lo + 1) (firstn lo B ++ Byte.x00 :: skipn (S lo) B)
    ++ repeat Byte.x00 m
    ++ skipn (lo + 1 + m) (firstn lo B ++ Byte.x00 :: skipn (S lo) B)
  = firstn lo B ++ repeat Byte.x00 (S m) ++ skipn (lo + S m) B.
Proof.
  intros Hlo.
  assert (E : firstn lo B ++ Byte.x00 :: skipn (S lo) B
              = (firstn lo B ++ [Byte.x00]) ++ skipn (S lo) B)
    by (rewrite <- app_assoc; reflexivity).
  assert (Hl : length (firstn lo B ++ [Byte.x00]) = (lo + 1)%nat)
    by (rewrite length_app, length_firstn; cbn [length]; lia).
  rewrite E, firstn_app_exact by (symmetry; exact Hl).
  replace (lo + 1 + m)%nat with (m + (lo + 1))%nat by lia.
  rewrite <- skipn_skipn, skipn_app_exact by (symmetry; exact Hl).
  rewrite skipn_skipn, <- app_assoc. cbn [repeat app].
  replace (m + S lo)%nat with (lo + S m)%nat by lia. reflexivity.
Qed.

(** The loop of [Pad] over [range(lo, lo + m)]. *)
Lemma Pad_loop_zeros m : forall lo b,
  0 <= lo -> lo + Z.of_nat m <= len (Builder.Bytes b) ->
  Builder.Pad_loop (map (fun k => lo + Z.of_nat k) (seq 0 m)) b =
  Ok (tt, Builder.set_Bytes
            (firstn (Z.to_nat lo) (Builder.Bytes b) ++ repeat Byte.x00 m
               ++ skipn (Z.to_nat lo + m) (Builder.Bytes b)) b).
Proof.
  induction m as [|m IH]; intros lo b Hlo Hhi.
  - cbn [seq map Builder.Pad_loop repeat app]. unfold Builder.ret.
    rewrite Nat.add_0_r, firstn_skipn. destruct b; reflexivity.
  - cbn [seq map Builder.Pad_loop]. rewrite <- seq_shift, map_map.
    unfold Builder.bind at 1.
    rewrite Z.add_0_r, setbyte_inside by lia. cbn [rbind].
    rewrite (map_ext _ (fun k => (lo + 1) + Z.of_nat k)) by (intros; lia).
    assert (HlenB : (Z.to_nat lo < length (Builder.Bytes b))%nat)
      by (unfold len in Hhi; lia).
    change (byte.of_Z 0) with Byte.x00.
    rewrite IH; cbn [Builder.Bytes Builder.set_Bytes].
    + unfold Builder.set_Bytes. cbn [Builder.Bytes Builder.current_vtable
        Builder.head Builder.minalign Builder.objectEnd Builder.vtables].
      replace (Z.to_nat (lo + 1)) with (Z.to_nat lo + 1)%nat by lia.
      rewrite zero_step by exact HlenB. reflexivity.
    + lia.
    + unfold len in *. rewrite length_app, length_firstn. cbn [length].
      rewrite length_skipn. lia.
Qed.

(** X3.  [Pad(n)] places [n] zero bytes below [head], given the room; [Pad(0)]
    changes nothing. *)
Theorem Pad_places_zeros (n : Z) (b : Builder.t) :
  wf b -> 0 <= n <= Builder.head b ->
  exists b',
    Builder.Pad n b = Ok (tt, b') /\
    prepended (bytearray n) b b' /\
    Builder.Output b' = bytearray n ++ Builder.Output b /\
    Builder.head b' = Builder.head b - n /\
    (n = 0 -> b' = b).
Proof.
  intros Hwf Hn. pose proof Hwf as Hwf'. unfold wf in Hwf.
  unfold Builder.Pad, Builder.bind, Builder.gets, Builder.modify, range.
  replace (Builder.head b - (Builder.head b - n)) with n by lia.
  rewrite Pad_loop_zeros by lia.
  eexists. split; [reflexivity|].
  unfold Builder.set_head, Builder.set_Bytes.
  cbn [Builder.Bytes Builder.head Builder.current_vtable Builder.minalign
       Builder.objectEnd Builder.vtables].
  assert (Hpre : prepended (bytearray n) b
    {| Builder.Bytes :=
         firstn (Z.to_nat (Builder.head b - n)) (Builder.Bytes b) ++
         repeat Byte.x00 (Z.to_nat n) ++
         skipn (Z.to_nat (Builder.head b - n) + Z.to_nat n) (Builder.Bytes b);
       Builder.current_vtable := Builder.current_vtable b;
       Builder.head := Builder.head b - n;
       Builder.minalign := Builder.minalign b;
       Builder.objectEnd := Builder.objectEnd b;
       Builder.vtables := Builder.vtables b |}).
  { apply prepended_intro; [exact Hwf' | lia | rewrite len_bytearray; lia |].
    unfold bytearray. do 3 f_equal. lia. }
  split; [exact Hpre|]. split; [apply Hpre|]. split; [reflexivity|].
  intros ->. cbn [Z.to_nat repeat app]. rewrite Z.sub_0_r, Nat.add_0_r, firstn_skipn.
  destruct b; reflexivity.
Qed.

Lemma Pad_places_zeros_witness :
  exists b',
    Builder.Pad 3 (Builder.mk [Byte.x01; Byte.x02; Byte.x03; Byte.x04] None 4 1 None [])
      = Ok (tt, b') /\
    Builder.Output b' = [Byte.x00; Byte.x00; Byte.x00].
Proof.
  destruct (Pad_places_zeros 3
              (Builder.mk [Byte.x01; Byte.x02; Byte.x03; Byte.x04] None 4 1 None []))
    as (b' & H1 & _ & H2 & _).
  - vm_compute. split; discriminate.
  - vm_compute. split; discriminate.
  - exists b'. split; [exact H1 | exact H2].
Defined.

Lemma setitem_inside {A} (l : list A) i v :
  0 <= i < len l ->
  setitem l i v = Ok (firstn (Z.to_nat i) l ++ v :: skipn (S (Z.to_nat i)) l).
Proof.
  intros Hi. unfold setitem.
  destruct (Z.ltb_spec i 0); [lia|].
  destruct (Z.leb_spec 0 i); [|lia].
  destruct (Z.ltb_spec i (len l)); [|lia]. reflexivity.
Qed.

Lemma setitem_negative {A} (l : list A) i v :
  - len l <= i < 0 -> setitem l i v = setitem l (i + len l) v.
Proof.
  intros Hi. unfold setitem.
  destruct (Z.ltb_spec i 0); [|lia].
  destruct (Z.ltb_spec (i + len l) 0); [lia|]. reflexivity.
Qed.

Lemma setitem_outside {A} (l : list A) i v :
  len l <= i \/ i < - len l -> setitem l i v = Raise IndexError.
Proof.
  intros Hi. unfold setitem. pose proof (len_nonneg l).
  destruct (Z.ltb_spec i 0).
  - destruct (Z.leb_spec 0 (i + len l)); [lia|]. reflexivity.
  - destruct (Z.leb_spec 0 i); [|lia].
    destruct (Z.ltb_spec i (len l)); [lia|]. reflexivity.
Qed.

Lemma nth_error_update {A} (l : list A) i v :
  (i < length l)%nat ->
  length (firstn i l ++ v :: skipn (S i) l) = length l /\
  nth_error (firstn i l ++ v :: skipn (S i) l) i = Some v /\
  forall j, j <> i ->
    nth_error (firstn i l ++ v :: skipn (S i) l) j = nth_error l j.
Proof.
  intros Hi.
  assert (Hf : length (firstn i l) = i) by (rewrite length_firstn; lia).
  split; [|split].
  - rewrite length_app, Hf. cbn [length]. rewrite length_skipn. lia.
  - rewrite nth_error_app2, Hf, Nat.sub_diag by lia. reflexivity.
  - intros j Hj. destruct (Nat.lt_ge_cases j i) as [Hlt | Hge].
    + rewrite nth_error_app1 by lia. rewrite nth_error_firstn.
      destruct (Nat.ltb_spec j i); [reflexivity | lia].
    + rewrite nth_error_app2, Hf by lia.
      destruct (j - i)%nat as [|k] eqn:E; [lia|]. cbn [nth_error].
      rewrite nth_error_skipn. f_equal. lia.
Qed.

(** X4.  [Slot(slotnum)] stores the current Offset in [current_vtable[slotnum]]
    and touches no other slot; a negative index counts from the end of the
    list, as Python's list assignment does, and an index outside the list
    raises [IndexError]. *)
Theorem Slot_records_offset (b : Builder.t) (vt : list Z) (slotnum : Z) :
  Builder.current_vtable b = Some vt ->
  (0 <= slotnum < len vt ->
   exists vt',
     Builder.Slot slotnum b = Ok (tt, Builder.set_current_vtable (Some vt') b) /\
     length vt' = length vt /\
     nth_error vt' (Z.to_nat slotnum) = Some (Builder.Offset b) /\
     forall j, j <> Z.to_nat slotnum -> nth_error vt' j = nth_error vt j) /\
  (- len vt <= slotnum < 0 ->
   Builder.Slot slotnum b = Builder.Slot (slotnum + len vt) b) /\
  (len vt <= slotnum \/ slotnum < - len vt ->
   Builder.Slot slotnum b = Raise IndexError).
Proof.
  intros Hcur. unfold Builder.Slot. rewrite Hcur.
  split; [|split].
  - intros Hi. rewrite setitem_inside by exact Hi. cbn [rbind].
    eexists. split; [reflexivity|].
    apply nth_error_update. unfold len in Hi. lia.
  - intros Hi. rewrite setitem_negative by exact Hi. reflexivity.
  - intros Hi. rewrite setitem_outside by exact Hi. reflexivity.
Qed.

Lemma Slot_records_offset_witness :
  exists vt',
    Builder.Slot 1 (Builder.mk (bytearray 8) (Some [0; 0; 0]) 6 1 (Some 0) [])
    = Ok (tt, Builder.set_current_vtable (Some vt')
                (Builder.mk (bytearray 8) (Some [0; 0; 0]) 6 1 (Some 0) [])) /\
    nth_error vt' 1 = Some 2.
Proof.
  destruct (proj1 (Slot_records_offset
              (Builder.mk (bytearray 8) (Some [0; 0; 0]) 6 1 (Some 0) [])
              [0; 0; 0] 1 eq_refl))
    as (vt' & H1 & _ & H2 & _).
  - vm_compute. split; [discriminate | reflexivity].
  - exists vt'. split; [exact H1 | exact H2].
Defined.

Lemma EndObject_clears b o b' :
  Builder.EndObject b = Ok (o, b') -> Builder.current_vtable b' = None.
Proof.
  unfold Builder.EndObject.
  destruct (Builder.current_vtable b); [|discriminate].
  unfold Builder.WriteVtable. intros H.
  apply bind_inv in H. destruct H as (? & ? & _ & H).
  apply bind_inv in H. destruct H as (? & ? & _ & H).
  apply bind_inv in H. destruct H as (? & ? & _ & H).
  apply bind_inv in H. destruct H as (? & bX & _ & H).
  cbn in H. injection H as _ <-. reflexivity.
Qed.

(** X5.  The object protocol.  While an object is being written, [StartObject],
    [StartVector] and [CreateString] raise [ObjectIsNestedError]; once
    [EndObject] has returned no object is in progress: a second [EndObject]
    and [Slot] raise [NotInObjectError], and [StartObject] is accepted
    again. *)
Theorem object_protocol :
  (forall b numfields b1,
     Builder.StartObject numfields b = Ok (tt, b1) ->
     Builder.current_vtable b = None /\
     Builder.current_vtable b1 = Some (repeat 0 (Z.to_nat numfields)) /\
     Builder.objectEnd b1 = Some (Builder.Offset b) /\
     (forall n, Builder.StartObject n b1 = Raise ObjectIsNestedError) /\
     (forall e n a, Builder.StartVector e n a b1 = Raise ObjectIsNestedError) /\
     (forall s, Builder.CreateString s b1 = Raise ObjectIsNestedError)) /\
  (forall b o b',
     Builder.EndObject b = Ok (o, b') ->
     Builder.current_vtable b <> None /\
     Builder.current_vtable b' = None /\
     Builder.EndObject b' = Raise NotInObjectError /\
     (forall i, Builder.Slot i b' = Raise NotInObjectError) /\
     (forall n, exists b'', Builder.StartObject n b' = Ok (tt, b''))).
Proof.
  split.
  - intros b numfields b1 H.
    unfold Builder.StartObject, Builder.bind, Builder.assertNotNested,
      Builder.modify in H.
    destruct (Builder.current_vtable b) eqn:Hc; [discriminate|].
    injection H as <-. cbn [Builder.current_vtable Builder.objectEnd].
    repeat split; intros;
      unfold Builder.StartObject, Builder.StartVector, Builder.CreateString,
        Builder.bind, Builder.assertNotNested; reflexivity.
  - intros b o b' H. pose proof (EndObject_clears b o b' H) as Hc.
    split; [|split; [exact Hc|split; [|split]]].
    + unfold Builder.EndObject in H.
      destruct (Builder.current_vtable b); [discriminate|discriminate].
    + unfold Builder.EndObject. rewrite Hc. reflexivity.
    + intros i. unfold Builder.Slot. rewrite Hc. reflexivity.
    + intros n. unfold Builder.StartObject, Builder.bind,
        Builder.assertNotNested, Builder.modify. rewrite Hc. eauto.
Qed.

Lemma object_protocol_witness :
  Builder.CreateString [Byte.x61]
    (Builder.mk (bytearray 8) (Some [0]) 8 1 (Some 0) [])
  = Raise ObjectIsNestedError.
Proof.
  apply (proj1 object_protocol (Builder.mk (bytearray 8) None 8 1 None []) 1).
  reflexivity.
Defined.

(** X6.  [PrependStructSlot] writes no byte: it raises [StructIsNotInlineError]
    exactly when the struct offset differs from both the default and the
    current Offset, and otherwise only records the slot. *)
Theorem PrependStructSlot_inline (b : Builder.t) (v x d : Z) :
  (Builder.PrependStructSlot v x d b = Raise StructIsNotInlineError <->
   x <> d /\ x <> Builder.Offset b) /\
  (x = d -> Builder.PrependStructSlot v x d b = Ok (tt, b)) /\
  (x <> d -> x = Builder.Offset b ->
   Builder.PrependStructSlot v x d b = Builder.Slot v b) /\
  (forall b', Builder.PrependStructSlot v x d b = Ok (tt, b') ->
     Builder.Bytes b' = Builder.Bytes b /\ Builder.head b' = Builder.head b /\
     Builder.vtables b' = Builder.vtables b).
Proof.
  unfold Builder.PrependStructSlot, Builder.bind, Builder.assertNested, Builder.ret.
  assert (HS : forall e, Builder.Slot v b = Raise e -> e <> StructIsNotInlineError).
  { unfold Builder.Slot. intros e. destruct (Builder.current_vtable b) as [vt|].
    - unfold setitem. destruct (_ && _); cbn [rbind]; intros H; congruence.
    - intros H; congruence. }
  assert (HB : forall b', Builder.Slot v b = Ok (tt, b') ->
      Builder.Bytes b' = Builder.Bytes b /\ Builder.head b' = Builder.head b /\
      Builder.vtables b' = Builder.vtables b).
  { unfold Builder.Slot. intros b'. destruct (Builder.current_vtable b) as [vt|];
      [|discriminate].
    destruct (setitem vt v (Builder.Offset b)); cbn [rbind]; [|discriminate].
    intros H. injection H as <-. auto. }
  destruct (Z.eqb_spec x d) as [Hd | Hd]; cbn [negb].
  - split; [split; [discriminate | intros [H _]; contradiction]|].
    split; [reflexivity|]. split; [contradiction|].
    intros b' H. injection H as <-. auto.
  - destruct (Z.eqb_spec x (Builder.Offset b)) as [Ho | Ho]; cbn [negb].
    + split; [split; [|intros [_ H]; contradiction]|].
      * intros H. apply HS in H. contradiction.
      * split; [contradiction|]. split; [reflexivity|]. exact HB.
    + split; [split; [auto | reflexivity]|].
      split; [contradiction|]. split; [contradiction|]. discriminate.
Qed.

(** ** Comparing vtables *)

Lemma vtableEqual_loop_spec objectStart (b : list byte) : forall a i,
  0 <= i -> (i + len a) * 2 <= len b ->
  exists r,
    Builder.vtableEqual_loop i a objectStart b = Ok r /\
    (r = true <->
     forall k elem, nth_error a k = Some elem ->
       exists x, encode.Get packer.voffset b ((i + Z.of_nat k) * 2) = Ok x /\
                 ((x = 0 /\ elem = 0) \/ x = objectStart - elem)).
Proof.
  induction a as [|elem a IH]; intros i Hi Hlen.
  - exists true. split; [reflexivity|]. split; [|reflexivity].
    intros _ [|k] elem H; discriminate.
  - assert (Hl : len (elem :: a) = len a + 1) by (unfold len; cbn [length]; lia).
    pose proof (len_nonneg a) as Ha. rewrite Hl in Hlen.
    cbn [Builder.vtableEqual_loop]. change (bytewidth VOffsetTFlags) with 2.
    assert (HG : exists x, encode.Get packer.voffset b (i * 2) = Ok x).
    { rewrite Get_inside; [eauto | lia |].
      change (Z.of_nat (packer.size packer.voffset)) with 2. lia. }
    destruct HG as [x HG]. rewrite HG. cbn [rbind].
    destruct (IH (i + 1)) as (r & Hr & Hiff); [lia | lia |].
    assert (Hrest : forall P : Z -> Z -> Prop,
      (forall k e, nth_error (elem :: a) k = Some e ->
         exists x, encode.Get packer.voffset b ((i + Z.of_nat k) * 2) = Ok x /\ P x e)
      <-> (P x elem /\
           forall k e, nth_error a k = Some e ->
             exists x, encode.Get packer.voffset b ((i + 1 + Z.of_nat k) * 2) = Ok x
                       /\ P x e)).
    { intros P. split.
      - intros H. split.
        + destruct (H 0%nat elem eq_refl) as (x' & Hx' & HP).
          rewrite Z.add_0_r, HG in Hx'. injection Hx' as <-. exact HP.
        + intros k e Hk. destruct (H (S k) e Hk) as (x' & Hx' & HP).
          exists x'. split; [|exact HP]. rewrite <- Hx'. f_equal. lia.
      - intros [H0 H] [|k] e Hk.
        + cbn in Hk. injection Hk as <-. exists x. rewrite Z.add_0_r. auto.
        + destruct (H k e Hk) as (x' & Hx' & HP).
          exists x'. split; [|exact HP]. rewrite <- Hx'. f_equal. lia. }
    specialize (Hrest (fun x e => (x = 0 /\ e = 0) \/ x = objectStart - e)).
    cbv beta in Hrest.
    destruct (Z.eqb_spec x 0) as [Hx0 | Hx0];
      destruct (Z.eqb_spec elem 0) as [He0 | He0]; cbn [andb];
      try (destruct (Z.eqb_spec x (objectStart - elem)) as [Hy | Hy]; cbn [negb]).
    all: first
      [ exists r; split; [exact Hr|]; tauto
      | exists false; split; [reflexivity|]; split; [discriminate|];
        rewrite Hrest; intros [[[? ?] | ?] _]; contradiction ].
Qed.

(** X7.  [vtableEqual(a, objectStart, b)] never raises.  It returns [True]
    exactly when [b] holds one 2-byte entry per slot of [a] and, slot by
    slot, either the entry and the slot are both 0 or the entry equals
    [objectStart - slot]; so a slot of 0 also matches a stored entry equal
    to [objectStart] itself. *)
Theorem vtableEqual_spec (a : list Z) (objectStart : Z) (b : list byte) :
  exists r,
    Builder.vtableEqual a objectStart b = Ok r /\
    (r = true <->
     len b = 2 * len a /\
     forall k elem, nth_error a k = Some elem ->
       exists x, encode.Get packer.voffset b (2 * Z.of_nat k) = Ok x /\
                 ((x = 0 /\ elem = 0) \/ x = objectStart - elem)).
Proof.
  unfold Builder.vtableEqual. change (bytewidth VOffsetTFlags) with 2.
  destruct (Z.eqb_spec (len a * 2) (len b)) as [E | E]; cbn [negb].
  - destruct (vtableEqual_loop_spec objectStart b a 0) as (r & Hr & Hiff);
      [lia | lia |].
    exists r. split; [exact Hr|]. rewrite Hiff. split.
    + intros H. split; [lia|]. intros k elem Hk.
      destruct (H k elem Hk) as (x & Hx & HP). exists x. split; [|exact HP].
      rewrite <- Hx. f_equal. lia.
    + intros [_ H] k elem Hk.
      destruct (H k elem Hk) as (x & Hx & HP). exists x. split; [|exact HP].
      rewrite <- Hx. f_equal. lia.
  - exists false. split; [reflexivity|]. split; [discriminate|].
    intros [H _]. lia.
Qed.

Lemma vtableEqual_true_inv a objectStart b :
  Builder.vtableEqual a objectStart b = Ok true ->
  len b = 2 * len a /\
  forall k elem, nth_error a k = Some elem ->
    exists x, encode.Get packer.voffset b (2 * Z.of_nat k) = Ok x /\
              ((x = 0 /\ elem = 0) \/ x = objectStart - elem).
Proof.
  unfold Builder.vtableEqual. change (bytewidth VOffsetTFlags) with 2.
  destruct (Z.eqb_spec (len a * 2) (len b)) as [E | E]; cbn [negb];
    [|discriminate].
  intros H. split; [lia|].
  destruct (vtableEqual_loop_spec objectStart b a 0) as (r & Hr & Hiff);
    [lia | lia |].
  rewrite H in Hr. injection Hr as <-.
  intros k elem Hk. destruct (proj1 Hiff eq_refl k elem Hk) as (x & Hx & HP).
  exists x. split; [|exact HP]. rewrite <- Hx. f_equal. lia.
Qed.

(** ** Reading in a part of a buffer *)

Lemma size_pos p : (1 <= packer.size p)%nat.
Proof. destruct p; cbn; lia. Qed.

Lemma Get_ok_range p buf head x :
  0 <= head -> encode.Get p buf head = Ok x ->
  head + Z.of_nat (packer.size p) <= len buf.
Proof.
  intros Hh. unfold encode.Get, encode.locate.
  destruct (Z.ltb_spec head 0); [lia|].
  destruct (Z.leb_spec 0 head); [|lia].
  destruct (Z.leb_spec (head + Z.of_nat (packer.size p)) (len buf));
    [intros _; assumption | discriminate].
Qed.

Lemma Get_skip p (pre suf : list byte) k :
  0 <= k -> encode.Get p (pre ++ suf) (len pre + k) = encode.Get p suf k.
Proof.
  intros Hk. pose proof (len_nonneg pre) as Hp.
  unfold encode.Get, encode.locate. rewrite len_app.
  destruct (Z.ltb_spec (len pre + k) 0); [lia|].
  destruct (Z.ltb_spec k 0); [lia|].
  destruct (Z.leb_spec 0 (len pre + k)); [|lia].
  destruct (Z.leb_spec 0 k); [|lia]. cbn [andb].
  destruct (Z.leb_spec (len pre + k + Z.of_nat (packer.size p)) (len pre + len suf));
    destruct (Z.leb_spec (k + Z.of_nat (packer.size p)) (len suf)); try lia;
    [|reflexivity].
  rewrite (skipn_app_left pre suf k) by lia. reflexivity.
Qed.

Lemma Get_getslice p (l : list byte) lo hi j x :
  0 <= lo -> 0 <= hi -> 0 <= j ->
  encode.Get p (getslice l lo hi) j = Ok x ->
  encode.Get p l (lo + j) = Ok x /\ lo + j + Z.of_nat (packer.size p) <= hi.
Proof.
  intros Hlo Hhi Hj H. pose proof (size_pos p) as Hs.
  pose proof (Get_ok_range _ _ _ _ Hj H) as Hr.
  unfold getslice, slice_index in *.
  destruct (Z.ltb_spec lo 0); [lia|]. destruct (Z.ltb_spec hi 0); [lia|].
  set (a := Z.min lo (len l)) in *. set (b := Z.min hi (len l)) in *.
  assert (Hlen : len (firstn (Z.to_nat (b - a)) (skipn (Z.to_nat a) l))
                 = Z.min (Z.max 0 (b - a)) (len l - a)).
  { unfold len. rewrite length_firstn, length_skipn. unfold len in a, b. lia. }
  rewrite Hlen in Hr.
  assert (Ea : a = lo) by lia. rewrite Ea in *.
  split; [|lia].
  rewrite Get_inside in H by (rewrite ?Hlen; lia).
  rewrite Get_inside by lia. rewrite <- H. do 2 f_equal.
  rewrite skipn_firstn_comm, firstn_firstn, skipn_skipn.
  replace (Init.Nat.min (packer.size p) (Z.to_nat (b - lo) - Z.to_nat j))
    with (packer.size p) by lia.
  do 2 f_equal. lia.
Qed.

Lemma Get_voffset_range buf h x :
  encode.Get packer.voffset buf h = Ok x -> 0 <= x <= 65535.
Proof.
  unfold encode.Get. destruct (encode.locate _ _ _); [|discriminate].
  intros H. injection H as <-.
  unfold packer.unpack. cbn [packer.voffset packer.signed andb].
  match goal with |- context [le_combine ?l] => set (bs := l) end.
  pose proof (le_combine_bound bs) as Hb.
  assert (Hl : (length bs <= 2)%nat)
    by (unfold bs; destruct (skipn n buf) as [|? [|? ?]]; cbn; lia).
  assert (2 ^ (8 * Z.of_nat (length bs)) <= 2 ^ 16)
    by (apply Z.pow_le_mono_r; lia).
  change (2 ^ 16) with 65536 in *. lia.
Qed.

Lemma Get_entry (pre post : list byte) es : forall i e,
  Forall (fun v => 0 <= v <= 65535) es ->
  nth_error es i = Some e ->
  encode.Get packer.voffset (pre ++ concat (map (le_split 2) es) ++ post)
    (len pre + 2 * Z.of_nat i) = Ok e.
Proof.
  intros i e Hr Hi.
  destruct (nth_error_split es i Hi) as (l1 & l2 & -> & Hl1).
  rewrite map_app, concat_app. cbn [map concat].
  rewrite <- !app_assoc, app_assoc.
  rewrite Get_app.
  - rewrite unpack_voffset_le_split; [reflexivity|].
    apply Forall_app in Hr. destruct Hr as [_ Hr]. inversion Hr; assumption.
  - rewrite len_app, len_vtable_fields. unfold len. lia.
  - apply length_le_split.
Qed.

(** ** What the search of [WriteVtable] returns *)

Lemma find_existing_inv bytes cur oo ev : forall cands,
  Builder.find_existing cands bytes (Some cur) oo = Ok (Some ev) ->
  In ev cands /\
  exists vlen,
    encode.Get packer.voffset bytes (len bytes - ev) = Ok vlen /\
    Builder.vtableEqual cur oo
      (getslice bytes (len bytes - ev + 4) (len bytes - ev + vlen)) = Ok true.
Proof.
  induction cands as [|c rest IH]; intros H; [discriminate|].
  cbn [Builder.find_existing] in H.
  destruct (encode.Get packer.voffset bytes (len bytes - c)) as [vlen | e] eqn:HG;
    [|discriminate].
  cbn [rbind] in H.
  change (Builder.VtableMetadataFields * bytewidth VOffsetTFlags) with 4 in H.
  destruct (Builder.vtableEqual cur oo _) as [[|] | e] eqn:HE; [| |discriminate];
    cbn [rbind] in H.
  - injection H as <-. split; [left; reflexivity|]. exists vlen. auto.
  - destruct (IH H) as [Hin Hrest]. split; [right; exact Hin | exact Hrest].
Qed.

(** ** [EndObject] in any state *)

(** What [EndObject] does, by what the search for an equal vtable
    returned. *)
Lemma EndObject_inv b oo b' cur :
  wf b -> Builder.current_vtable b = Some cur ->
  Builder.EndObject b = Ok (oo, b') ->
  exists b1 pad hdr ex,
    pushed (hdr ++ pad) b b1 /\ length hdr = 4%nat /\
    Builder.Offset b1 = oo /\ oo = header_offset b /\
    Builder.find_existing (rev (Builder.vtables b)) (Builder.Bytes b1)
      (Some cur) oo = Ok ex /\
    wf b' /\ Builder.current_vtable b' = None /\
    match ex with
    | Some ev =>
        Builder.Output b' = le_split 4 (ev - oo) ++ pad ++ Builder.Output b /\
        len (Builder.Bytes b') = len (Builder.Bytes b1) /\
        Builder.vtables b' = Builder.vtables b /\
        - 2 ^ 31 <= ev - oo <= 2 ^ 31 - 1
    | None =>
        exists oe,
          Builder.objectEnd b = Some oe /\
          Builder.Output b' =
            vtable_bytes cur oo oe ++ le_split 4 (Builder.Offset b' - oo)
              ++ pad ++ Builder.Output b /\
          Builder.vtables b' = Builder.vtables b ++ [Builder.Offset b'] /\
          Builder.Offset b' = oo + (len cur + 2) * 2 /\
          0 <= (len cur + 2) * 2 <= 65535 /\
          Forall (fun v => 0 <= v <= 65535) (field_entries cur oo) /\
          - 2 ^ 31 <= Builder.Offset b' - oo <= 2 ^ 31 - 1
    end.
Proof.
  intros Hwf Hcur H.
  unfold Builder.EndObject in H. rewrite Hcur in H.
  unfold Builder.WriteVtable in H.
  apply bind_inv in H. destruct H as ([] & b1 & H1 & H).
  destruct (header_inv b b1 Hwf H1) as (pad & hdr & Hpush1 & Hhdr & Hoo & Hal & _).
  assert (Hwf1 : wf b1) by apply Hpush1.
  pose proof Hpush1 as Hpush1'.
  destruct Hpush1 as (_ & Hout1 & Hcur1 & Hoe1 & Hvt1).
  apply bind_inv in H. destruct H as (oo' & b1' & E & H).
  unfold Builder.gets in E. injection E as <- <-.
  apply bind_inv in H. destruct H as (ex & b1' & Hex & H).
  rewrite Hvt1, Hcur1, Hcur in Hex.
  destruct (Builder.find_existing _ _ _ _) as [ex' | e] eqn:Hfind; [|discriminate].
  cbn [rbind] in Hex. injection Hex as <- <-.
  apply bind_inv in H. destruct H as ([] & b6 & Hbr & H).
  cbn in H. injection H as <- <-.
  exists b1, pad, hdr, ex'.
  split; [exact Hpush1'|]. split; [exact Hhdr|]. split; [reflexivity|].
  split; [exact Hoo|]. split; [exact Hfind|].
  destruct (wf_Bytes_split b1 Hwf1) as (Hsplit1 & HlenF1 & _).
  destruct ex' as [ev|].
  - (* an equal vtable was found *)
    apply bind_inv in Hbr. destruct Hbr as ([] & b2 & Hm & Hw).
    unfold Builder.modify in Hm. injection Hm as <-.
    cbn [Builder.Bytes Builder.head Builder.set_head] in Hw.
    assert (Hhead : len (Builder.Bytes b1) - Builder.Offset b1 = Builder.head b1)
      by (unfold Builder.Offset; lia).
    rewrite Hhead in Hw.
    destruct (encode.Write _ _ _ _) as [bytes | e] eqn:HW; [|discriminate].
    cbn [rbind] in Hw. injection Hw as <-.
    destruct (Write_inv _ _ _ _ _ HW) as (bs & Hpk).
    pose proof Hpk as Hpk'.
    apply pack_inv in Hpk'; [|discriminate]. destruct Hpk' as [Hr ->].
    change (packer.size packer.soffset) with 4%nat in *.
    change (packer.min_value packer.soffset) with (- 2 ^ 31) in Hr.
    change (packer.max_value packer.soffset) with (2 ^ 31 - 1) in Hr.
    set (Fr := firstn (Z.to_nat (Builder.head b1)) (Builder.Bytes b1)) in *.
    assert (HB1 : Builder.Bytes b1 = Fr ++ hdr ++ pad ++ Builder.Output b)
      by (rewrite Hsplit1 at 1; rewrite Hout1, <- app_assoc; reflexivity).
    rewrite <- HlenF1 in HW. rewrite HB1 in HW at 1.
    rewrite (Write_app packer.soffset _ hdr _ _ _ Hhdr Hpk) in HW.
    injection HW as <-.
    match goal with |- wf ?x /\ _ => set (b5 := x) end.
    destruct (Output_app b5 Fr (le_split 4 (ev - Builder.Offset b1)
                ++ pad ++ Builder.Output b)) as [Hwf5 Hout5].
    { reflexivity. }
    { unfold b5. cbn. symmetry. exact HlenF1. }
    split; [exact Hwf5|]. split; [reflexivity|].
    split; [exact Hout5|]. split.
    + change (len (Fr ++ le_split 4 (ev - Builder.Offset b1)
                      ++ pad ++ Builder.Output b) = len (Builder.Bytes b1)).
      rewrite HB1, !len_app, len_le_split. unfold len at 5. rewrite Hhdr. lia.
    + split; [exact Hvt1 | exact Hr].
  - (* a new vtable is written *)
    apply bind_inv in Hbr. destruct Hbr as (cur' & b1' & E & Hbr).
    rewrite Hcur1, Hcur in E. injection E as <- <-.
    apply bind_inv in Hbr. destruct Hbr as ([] & b2 & H2 & Hbr).
    destruct (write_fields_inv _ _ b1 b2 Hwf1 (mod_4_even _ Hal) H2) as [Hpush2 Hr2].
    rewrite rev_involutive in Hpush2.
    assert (Hwf2 : wf b2) by apply Hpush2.
    pose proof (pushed_Offset _ _ _ Hwf1 Hpush2) as Hoff2.
    rewrite len_vtable_fields in Hoff2.
    apply bind_inv in Hbr. destruct Hbr as (oe & b2' & E & Hbr).
    destruct (Builder.objectEnd b2) as [oe'|] eqn:Hoe2; [|discriminate].
    injection E as <- <-.
    apply bind_inv in Hbr. destruct Hbr as ([] & b3 & H3 & Hbr).
    assert (Hev2 : Builder.Offset b2 mod 2 = 0).
    { rewrite Hoff2, (Z.mul_comm 2), Z.mod_add by lia.
      apply mod_4_even, Hal. }
    destruct (PrependVOffsetT_inv _ b2 b3 Hwf2 Hev2 H3) as [Hpush3 Hr3].
    assert (Hwf3 : wf b3) by apply Hpush3.
    pose proof (pushed_Offset _ _ _ Hwf2 Hpush3) as Hoff3.
    rewrite len_le_split in Hoff3.
    apply bind_inv in Hbr. destruct Hbr as ([] & b4 & H4 & Hbr).
    assert (Hev3 : Builder.Offset b3 mod 2 = 0).
    { rewrite Hoff3. change (Z.of_nat 2) with (1 * 2).
      rewrite Z.mod_add by lia. exact Hev2. }
    destruct (PrependVOffsetT_inv _ b3 b4 Hwf3 Hev3 H4) as [Hpush4 Hr4].
    assert (Hwf4 : wf b4) by apply Hpush4.
    pose proof (pushed_Offset _ _ _ Hwf3 Hpush4) as Hoff4.
    rewrite len_le_split in Hoff4.
    change ((len cur + Builder.VtableMetadataFields) * bytewidth VOffsetTFlags)
      with ((len cur + 2) * 2) in *.
    set (oo := Builder.Offset b1) in *.
    apply bind_inv in Hbr. destruct Hbr as ([] & b5 & Hw & Hm).
    unfold Builder.modify in Hm. injection Hm as <-.
    destruct (encode.Write _ _ _ _) as [bytes5 | e] eqn:HW; [|discriminate].
    cbn [rbind] in Hw. injection Hw as <-.
    destruct (wf_Bytes_split b4 Hwf4) as (Hsplit & HlenF & _).
    set (Fr := firstn (Z.to_nat (Builder.head b4)) (Builder.Bytes b4)) in *.
    assert (Hout4 : Builder.Output b4 =
                    vtable_bytes cur oo oe' ++ hdr ++ pad ++ Builder.Output b).
    { destruct Hpush4 as (_ & -> & _). destruct Hpush3 as (_ & -> & _).
      destruct Hpush2 as (_ & -> & _). rewrite Hout1.
      unfold vtable_bytes. rewrite <- !app_assoc. reflexivity. }
    assert (Hlen1 : oo = len (hdr ++ pad ++ Builder.Output b)).
    { unfold oo. rewrite (wf_Offset b1 Hwf1), Hout1, <- app_assoc. reflexivity. }
    assert (HB4 : Builder.Bytes b4 =
                  (Fr ++ vtable_bytes cur oo oe') ++ hdr ++ pad ++ Builder.Output b).
    { rewrite Hsplit at 1. rewrite Hout4, <- app_assoc. reflexivity. }
    assert (Hpos : len (Builder.Bytes b4) - oo = len (Fr ++ vtable_bytes cur oo oe')).
    { rewrite HB4 at 1. rewrite Hlen1. rewrite (len_app (Fr ++ _)). lia. }
    destruct (Write_inv _ _ _ _ _ HW) as (bs & Hpk).
    pose proof Hpk as Hpk'.
    apply pack_inv in Hpk'; [|discriminate]. destruct Hpk' as [Hr5 ->].
    change (packer.size packer.soffset) with 4%nat in *.
    change (packer.min_value packer.soffset) with (- 2 ^ 31) in Hr5.
    change (packer.max_value packer.soffset) with (2 ^ 31 - 1) in Hr5.
    rewrite Hpos, HB4 in HW.
    rewrite (Write_app packer.soffset _ hdr _ _ _ Hhdr Hpk) in HW. injection HW as <-.
    set (b5 := Builder.set_Bytes _ b4).
    destruct (Output_app b5 Fr (vtable_bytes cur oo oe'
                ++ le_split 4 (Builder.Offset b4 - oo) ++ pad ++ Builder.Output b))
      as [Hwf5 Hout5].
    { unfold b5. cbn [Builder.Bytes Builder.set_Bytes]. rewrite <- app_assoc. reflexivity. }
    { unfold b5. cbn [Builder.head Builder.set_Bytes]. symmetry. exact HlenF. }
    assert (Hoff5 : Builder.Offset b5 = Builder.Offset b4).
    { rewrite (wf_Offset b5 Hwf5), (wf_Offset b4 Hwf4), Hout5, Hout4.
      rewrite !len_app, len_le_split. unfold len at 5. rewrite Hhdr. lia. }
    assert (Hoff4' : Builder.Offset b4 = oo + (len cur + 2) * 2).
    { rewrite Hoff4, Hoff3, Hoff2. unfold field_entries, len.
      rewrite length_map. lia. }
    assert (Hoe : Builder.objectEnd b = Some oe').
    { rewrite <- Hoe1. destruct Hpush2 as (_ & _ & _ & <- & _). exact Hoe2. }
    unfold Builder.set_current_vtable, Builder.set_vtables.
    cbn [Builder.Bytes Builder.head Builder.vtables Builder.current_vtable].
    assert (Hvt5 : Builder.vtables b5 = Builder.vtables b).
    { unfold b5. cbn [Builder.vtables Builder.set_Bytes].
      destruct Hpush4 as (_ & _ & _ & _ & ->). destruct Hpush3 as (_ & _ & _ & _ & ->).
      destruct Hpush2 as (_ & _ & _ & _ & ->). exact Hvt1. }
    assert (EO : forall cv vts,
      Builder.Output (Builder.mk (Builder.Bytes b5) cv (Builder.head b5)
                        (Builder.minalign b5) (Builder.objectEnd b5) vts)
      = Builder.Output b5) by reflexivity.
    assert (EF : forall cv vts,
      Builder.Offset (Builder.mk (Builder.Bytes b5) cv (Builder.head b5)
                        (Builder.minalign b5) (Builder.objectEnd b5) vts)
      = Builder.Offset b5) by reflexivity.
    split; [apply Hwf5|]. split; [reflexivity|].
    exists oe'. rewrite EO, !EF, Hvt5, Hoff5.
    split; [exact Hoe|]. split; [exact Hout5|]. split; [reflexivity|].
    split; [exact Hoff4'|]. split; [lia|]. split; [|lia].
    unfold field_entries in *. rewrite map_rev in Hr2.
    apply Forall_rev in Hr2. rewrite rev_involutive in Hr2. exact Hr2.
Qed.

(** ** Reading a finished object *)

Lemma Get_tail p (buf1 buf2 suf pre1 pre2 : list byte) k :
  buf1 = pre1 ++ suf -> buf2 = pre2 ++ suf -> 0 <= k ->
  encode.Get p buf1 (len buf1 - len suf + k)
  = encode.Get p buf2 (len buf2 - len suf + k).
Proof.
  intros -> -> Hk. rewrite !len_app.
  replace (len pre1 + len suf - len suf + k) with (len pre1 + k) by lia.
  replace (len pre2 + len suf - len suf + k) with (len pre2 + k) by lia.
  rewrite !Get_skip by exact Hk. reflexivity.
Qed.

Lemma Bytes_ends_with b b0 bs :
  wf b0 -> Builder.Output b0 = bs ++ Builder.Output b ->
  exists pre, Builder.Bytes b0 = pre ++ Builder.Output b.
Proof.
  intros Hwf Ho. destruct (wf_Bytes_split b0 Hwf) as (Hs & _ & _).
  rewrite Ho, app_assoc in Hs. eauto.
Qed.

Lemma unpack_soffset_le_split n :
  - 2 ^ 31 <= n <= 2 ^ 31 - 1 -> packer.unpack packer.soffset (le_split 4 n) = n.
Proof.
  intros H. apply (unpack_le_split packer.int32); [discriminate|].
  change (packer.min_value packer.int32) with (- 2 ^ 31).
  change (packer.max_value packer.int32) with (2 ^ 31 - 1). exact H.
Qed.

(** The object whose header points to a vtable written earlier, read in
    any buffer [pre ++ Output()]. *)
Lemma Offset_found b b1 b' cur oo ev pad hdr cands pre :
  wf b -> wf b' -> pushed (hdr ++ pad) b b1 -> length hdr = 4%nat ->
  Builder.Offset b1 = oo ->
  Builder.find_existing cands (Builder.Bytes b1) (Some cur) oo = Ok (Some ev) ->
  Forall (fun ev => 0 < ev <= Builder.Offset b) cands ->
  Builder.Output b' = le_split 4 (ev - oo) ++ pad ++ Builder.Output b ->
  - 2 ^ 31 <= ev - oo <= 2 ^ 31 - 1 ->
  let buf := pre ++ Builder.Output b' in
  forall i e, nth_error cur i = Some e ->
    exists x,
      Table.Offset (Table.mk buf (len buf - oo)) (4 + 2 * Z.of_nat i) = Ok x /\
      ((x = 0 /\ e = 0) \/ x = oo - e).
Proof.
  intros Hwf Hwf' Hpush Hhdr Hoo Hfind Hall Hout Hr buf i e Hi.
  assert (Hwf1 : wf b1) by apply Hpush.
  destruct (find_existing_inv _ _ _ _ _ Hfind) as (Hin & vlen & HGv & HEq).
  rewrite Forall_forall in Hall. specialize (Hall ev Hin).
  pose proof (Get_voffset_range _ _ _ HGv) as Hvlen.
  destruct (vtableEqual_true_inv _ _ _ HEq) as (_ & Hent).
  destruct (Hent i e Hi) as (x & Hx & HP).
  pose proof (wf_Offset b Hwf) as HOb.
  assert (HO1 : Builder.Offset b1 = Builder.Offset b + 4 + len pad).
  { assert (len hdr = 4) by (unfold len; rewrite Hhdr; reflexivity).
    rewrite (pushed_Offset _ _ _ Hwf Hpush), len_app. lia. }
  assert (HO' : len (Builder.Output b') = oo).
  { rewrite Hout, !len_app, len_le_split. lia. }
  pose proof (len_nonneg pad) as Hpad.
  assert (Hpos1 : 0 <= len (Builder.Bytes b1) - ev)
    by (unfold wf, Builder.Offset in *; lia).
  apply Get_getslice in Hx; [|lia ..]. destruct Hx as [Hx Hlt].
  change (Z.of_nat (packer.size packer.voffset)) with 2 in Hlt.
  destruct (Bytes_ends_with b b1 (hdr ++ pad) Hwf1 (proj1 (proj2 Hpush))) as [pre1 Hb1].
  assert (Hb' : buf = (pre ++ le_split 4 (ev - oo) ++ pad) ++ Builder.Output b)
    by (unfold buf; rewrite Hout, <- !app_assoc; reflexivity).
  assert (Hmove : forall k, 0 <= k ->
    encode.Get packer.voffset buf (len buf - ev + k)
    = encode.Get packer.voffset (Builder.Bytes b1) (len (Builder.Bytes b1) - ev + k)).
  { intros k Hk.
    replace (len buf - ev + k)
      with (len buf - len (Builder.Output b) + (Builder.Offset b - ev + k)) by lia.
    replace (len (Builder.Bytes b1) - ev + k)
      with (len (Builder.Bytes b1) - len (Builder.Output b)
            + (Builder.Offset b - ev + k)) by lia.
    apply (Get_tail _ _ _ _ (pre ++ le_split 4 (ev - oo) ++ pad) pre1);
      [exact Hb' | exact Hb1 | lia]. }
  exists x. split; [|exact HP].
  unfold Table.Offset. cbn [Table.Bytes Table.Pos].
  change (packer_type SOffsetTFlags) with packer.soffset.
  change (packer_type VOffsetTFlags) with packer.voffset.
  assert (Hso : encode.Get packer.soffset buf (len buf - oo) = Ok (ev - oo)).
  { unfold buf at 1. rewrite Hout.
    rewrite Get_app; [|unfold buf; rewrite len_app; lia | apply length_le_split].
    rewrite unpack_soffset_le_split by exact Hr. reflexivity. }
  rewrite Hso. cbn [rbind].
  replace (len buf - oo - (ev - oo)) with (len buf - ev + 0) by lia.
  rewrite (Hmove 0) by lia. rewrite Z.add_0_r, HGv. cbn [rbind].
  destruct (Z.ltb_spec (4 + 2 * Z.of_nat i) vlen); [|lia].
  rewrite Z.add_0_r, (Hmove (4 + 2 * Z.of_nat i)) by lia.
  rewrite <- Hx. f_equal. lia.
Qed.

(** The object for which a vtable was written, read in any buffer
    [pre ++ Output()]. *)
Lemma Offset_new b b' cur oo oe pad pre :
  wf b' ->
  Builder.Output b' =
    vtable_bytes cur oo oe ++ le_split 4 (Builder.Offset b' - oo)
      ++ pad ++ Builder.Output b ->
  Builder.Offset b' = oo + (len cur + 2) * 2 ->
  0 <= (len cur + 2) * 2 <= 65535 ->
  Forall (fun v => 0 <= v <= 65535) (field_entries cur oo) ->
  - 2 ^ 31 <= Builder.Offset b' - oo <= 2 ^ 31 - 1 ->
  let buf := pre ++ Builder.Output b' in
  let t := Table.mk buf (len buf - oo) in
  (forall i e, nth_error cur i = Some e ->
     Table.Offset t (4 + 2 * Z.of_nat i)
     = Ok (if negb (e =? 0) then oo - e else e)) /\
  (forall v, (len cur + 2) * 2 <= v -> Table.Offset t v = Ok 0).
Proof.
  intros Hwf' Hout Hoff Hv Hent Hr buf t.
  pose proof (wf_Offset b' Hwf') as HO'.
  set (F := concat (map (le_split 2) (field_entries cur oo))).
  assert (HF : len F = 2 * len cur).
  { unfold F. rewrite len_vtable_fields. unfold field_entries, len.
    rewrite length_map. reflexivity. }
  assert (Hvb : vtable_bytes cur oo oe =
                le_split 2 ((len cur + 2) * 2) ++ le_split 2 (oo - oe) ++ F)
    by reflexivity.
  assert (Hlvb : len (vtable_bytes cur oo oe) = (len cur + 2) * 2).
  { rewrite Hvb, !len_app, !len_le_split, HF. lia. }
  assert (Hlb : len buf = len pre + Builder.Offset b')
    by (unfold buf; rewrite len_app; lia).
  assert (Hpos : len buf - oo = len (pre ++ vtable_bytes cur oo oe)).
  { rewrite len_app, Hlvb. lia. }
  assert (Hso : encode.Get packer.soffset buf (len buf - oo)
                = Ok (Builder.Offset b' - oo)).
  { unfold buf at 1. rewrite Hout, app_assoc.
    rewrite Get_app; [|exact Hpos | apply length_le_split].
    rewrite unpack_soffset_le_split by exact Hr. reflexivity. }
  assert (Hvt : len buf - oo - (Builder.Offset b' - oo) = len pre) by lia.
  assert (Hend : encode.Get packer.voffset buf (len pre)
                 = Ok ((len cur + 2) * 2)).
  { unfold buf. rewrite Hout, Hvb, <- !app_assoc.
    rewrite Get_app; [|reflexivity | apply length_le_split].
    rewrite unpack_voffset_le_split by exact Hv. reflexivity. }
  unfold t, Table.Offset. cbn [Table.Bytes Table.Pos].
  change (packer_type SOffsetTFlags) with packer.soffset.
  change (packer_type VOffsetTFlags) with packer.voffset.
  rewrite Hso. cbn [rbind]. rewrite Hvt, Hend. cbn [rbind].
  split.
  - intros i e Hi.
    assert (Hlt : Z.of_nat i < len cur)
      by (assert (nth_error cur i <> None) as Hn by congruence;
          apply nth_error_Some in Hn; unfold len; lia).
    destruct (Z.ltb_spec (4 + 2 * Z.of_nat i) ((len cur + 2) * 2)); [|lia].
    unfold buf. rewrite Hout, Hvb.
    replace (pre ++ (le_split 2 ((len cur + 2) * 2) ++ le_split 2 (oo - oe) ++ F)
               ++ le_split 4 (Builder.Offset b' - oo) ++ pad ++ Builder.Output b)
      with ((pre ++ le_split 2 ((len cur + 2) * 2) ++ le_split 2 (oo - oe))
              ++ F ++ le_split 4 (Builder.Offset b' - oo) ++ pad ++ Builder.Output b)
      by (rewrite <- !app_assoc; reflexivity).
    replace (len pre + (4 + 2 * Z.of_nat i))
      with (len (pre ++ le_split 2 ((len cur + 2) * 2) ++ le_split 2 (oo - oe))
            + 2 * Z.of_nat i)
      by (rewrite !len_app, !len_le_split; lia).
    apply Get_entry; [exact Hent|].
    unfold field_entries.
    apply (map_nth_error (fun off => if negb (off =? 0) then oo - off else off)).
    exact Hi.
  - intros v Hge.
    destruct (Z.ltb_spec v ((len cur + 2) * 2)); [lia | reflexivity].
Qed.

Lemma header_offset_above b : Builder.Offset b + 4 <= header_offset b.
Proof.
  unfold header_offset.
  pose proof (Z.mod_pos_bound (- Builder.Offset b) 4 ltac:(lia)). lia.
Qed.

(** X8.  [EndObject] on any Builder whose recorded vtables lie in the
    written region.  It returns the Offset of the object header (the
    current Offset aligned to 4, plus 4), only adds bytes in front of the
    written region, leaves [vtables] as it is or appends the Offset of the
    vtable just written, and keeps the recorded vtables inside the written
    region.  In any buffer that ends with the new [Output()], the [Table]
    at the returned Offset finds for slot [i] of the object the entry
    [objectOffset - fieldOffset] when the slot was set; for a slot that was
    not set it finds 0, or [objectOffset] if an earlier vtable that
    [vtableEqual] accepted holds that value there. *)
Theorem EndObject_field_offsets (b b' : Builder.t) (cur : list Z) (oo : Z)
    (pre : list byte) :
  wf b ->
  Builder.current_vtable b = Some cur ->
  Forall (fun ev => 0 < ev <= Builder.Offset b) (Builder.vtables b) ->
  Builder.EndObject b = Ok (oo, b') ->
  oo = header_offset b /\
  wf b' /\
  (exists new, Builder.Output b' = new ++ Builder.Output b) /\
  (Builder.vtables b' = Builder.vtables b \/
   Builder.vtables b' = Builder.vtables b ++ [Builder.Offset b']) /\
  Forall (fun ev => 0 < ev <= Builder.Offset b') (Builder.vtables b') /\
  forall i e, nth_error cur i = Some e ->
    exists x,
      Table.Offset
        (Table.mk (pre ++ Builder.Output b')
           (len (pre ++ Builder.Output b') - oo))
        (4 + 2 * Z.of_nat i) = Ok x /\
      (e <> 0 -> x = oo - e) /\
      (e = 0 -> x = 0 \/ x = oo).
Proof.
  intros Hwf Hcur Hall H.
  destruct (EndObject_inv b oo b' cur Hwf Hcur H)
    as (b1 & pad & hdr & ex & Hpush & Hhdr & Hoo1 & Hoo & Hfind & Hwf' & _ & Hex).
  pose proof (wf_Offset b Hwf) as HOb. pose proof (wf_Offset b' Hwf') as HOb'.
  pose proof (len_nonneg pad) as Hpad. pose proof (len_nonneg cur) as Hlc.
  pose proof (len_nonneg (Builder.Output b)) as Hlo.
  pose proof (header_offset_above b) as Habove.
  split; [exact Hoo|]. split; [exact Hwf'|].
  destruct ex as [ev|].
  - destruct Hex as (Hout & _ & Hvt & Hr).
    assert (Hge : Builder.Offset b <= Builder.Offset b')
      by (rewrite HOb', Hout, !len_app, len_le_split; lia).
    split; [exists (le_split 4 (ev - oo) ++ pad); rewrite Hout, <- app_assoc;
            reflexivity|].
    split; [left; exact Hvt|]. split.
    + rewrite Hvt. eapply Forall_impl; [|exact Hall]. cbv beta. intros; lia.
    + intros i e Hi.
      destruct (Offset_found b b1 b' cur oo ev pad hdr _ pre Hwf Hwf' Hpush Hhdr
                  Hoo1 Hfind (Forall_rev Hall) Hout Hr i e Hi) as (x & Hx & HP).
      exists x. split; [exact Hx|]. split; intros He.
      * destruct HP as [[_ HP] | HP]; [contradiction | exact HP].
      * destruct HP as [[HP _] | HP]; [left; exact HP | right; lia].
  - destruct Hex as (oe & _ & Hout & Hvt & Hoff & Hv & Hent & Hr).
    split; [exists (vtable_bytes cur oo oe ++ le_split 4 (Builder.Offset b' - oo)
                      ++ pad); rewrite Hout, <- !app_assoc; reflexivity|].
    split; [right; exact Hvt|]. split.
    + rewrite Hvt. apply Forall_app. split.
      * eapply Forall_impl; [|exact Hall]. cbv beta. intros; lia.
      * constructor; [lia | constructor].
    + intros i e Hi.
      destruct (Offset_new b b' cur oo oe pad pre Hwf' Hout Hoff Hv Hent Hr)
        as [Hread _].
      rewrite (Hread i e Hi).
      exists (if negb (e =? 0) then oo - e else e). split; [reflexivity|].
      destruct (Z.eqb_spec e 0); cbn [negb]; split; intros; auto; contradiction.
Qed.

Lemma EndObject_field_offsets_witness :
  exists x,
    Table.Offset
      (Table.mk ([] ++ Builder.Output (exec Builder.EndObject stat2_open))
         (len ([] ++ Builder.Output (exec Builder.EndObject stat2_open)) - 48))
      (4 + 2 * Z.of_nat 1) = Ok x /\
    (40 <> 0 -> x = 48 - 40) /\ (40 = 0 -> x = 0 \/ x = 48).
Proof.
  refine (proj2 (proj2 (proj2 (proj2 (proj2
    (EndObject_field_offsets stat2_open (exec Builder.EndObject stat2_open)
       [0; 40; 42] 48 [] _ _ _ _))))) 1%nat 40 eq_refl).
  - vm_compute. split; discriminate.
  - vm_compute. reflexivity.
  - vm_compute. constructor; [split; [reflexivity | discriminate] | constructor].
  - vm_compute. reflexivity.
Defined.

(** X9.  A field that was written and recorded in slot [i] is read back by
    [GetSlot]: if the value [x] of kind [flags] lies in the written region
    at the Offset recorded in [current_vtable[i]], then after [EndObject]
    the [Table] at the returned Offset, over any buffer that ends with the
    new [Output()], returns [x] from [GetSlot(flags, 4 + 2*i, d)], whatever
    the default [d] and whether or not an earlier vtable is reused. *)
Theorem GetSlot_reads_field (b b' : Builder.t) (cur : list Z) (oo : Z)
    (pre : list byte) (flags : TypeFlags) (i : nat) (e x d : Z) :
  wf b ->
  Builder.current_vtable b = Some cur ->
  Forall (fun ev => 0 < ev <= Builder.Offset b) (Builder.vtables b) ->
  Builder.EndObject b = Ok (oo, b') ->
  nth_error cur i = Some e ->
  0 < e <= Builder.Offset b ->
  encode.Get (packer_type flags) (Builder.Output b) (Builder.Offset b - e) = Ok x ->
  Table.GetSlot
    (Table.mk (pre ++ Builder.Output b') (len (pre ++ Builder.Output b') - oo))
    flags (4 + 2 * Z.of_nat i) d = Ok x.
Proof.
  intros Hwf Hcur Hall H Hi He Hval.
  destruct (EndObject_inv b oo b' cur Hwf Hcur H)
    as (b1 & pad & hdr & ex & Hpush & Hhdr & Hoo1 & Hoo & Hfind & Hwf' & _ & Hex).
  pose proof (wf_Offset b Hwf) as HOb.
  pose proof (header_offset_above b) as Habove.
  assert (Hoff : Table.Offset
            (Table.mk (pre ++ Builder.Output b')
               (len (pre ++ Builder.Output b') - oo))
            (4 + 2 * Z.of_nat i) = Ok (oo - e) /\
          exists new, Builder.Output b' = new ++ Builder.Output b).
  { destruct ex as [ev|].
    - destruct Hex as (Hout & _ & _ & Hr).
      destruct (Offset_found b b1 b' cur oo ev pad hdr _ pre Hwf Hwf' Hpush Hhdr
                  Hoo1 Hfind (Forall_rev Hall) Hout Hr i e Hi) as (y & Hy & HP).
      split.
      + rewrite Hy. f_equal. destruct HP as [[_ HP] | HP]; lia.
      + exists (le_split 4 (ev - oo) ++ pad). rewrite Hout, <- app_assoc.
        reflexivity.
    - destruct Hex as (oe & _ & Hout & _ & Hoff & Hv & Hent & Hr).
      destruct (Offset_new b b' cur oo oe pad pre Hwf' Hout Hoff Hv Hent Hr)
        as [Hread _].
      split.
      + rewrite (Hread i e Hi). destruct (Z.eqb_spec e 0); [lia | reflexivity].
      + exists (vtable_bytes cur oo oe ++ le_split 4 (Builder.Offset b' - oo)
                  ++ pad). rewrite Hout, <- !app_assoc. reflexivity. }
  destruct Hoff as [Hoff [new Hnew]].
  unfold Table.GetSlot. rewrite Hoff. cbn [rbind].
  destruct (Z.eqb_spec (oo - e) 0); [lia|].
  rewrite Table_Get_unfold. cbn [Table.Bytes Table.Pos].
  rewrite Hnew, app_assoc.
  replace (len ((pre ++ new) ++ Builder.Output b) - oo + (oo - e))
    with (len (pre ++ new) + (Builder.Offset b - e))
    by (rewrite (len_app (pre ++ new)); lia).
  rewrite Get_skip by lia. exact Hval.
Qed.

Lemma GetSlot_reads_field_witness :
  Table.GetSlot
    (Table.mk ([] ++ Builder.Output (exec Builder.EndObject stat2_open))
       (len ([] ++ Builder.Output (exec Builder.EndObject stat2_open)) - 48))
    Int64Flags (4 + 2 * Z.of_nat 1) 0 = Ok 100.
Proof.
  apply (GetSlot_reads_field stat2_open (exec Builder.EndObject stat2_open)
           [0; 40; 42] 48 [] Int64Flags 1 40 100 0).
  - vm_compute. split; discriminate.
  - vm_compute. reflexivity.
  - vm_compute. constructor; [split; [reflexivity | discriminate] | constructor].
  - vm_compute. reflexivity.
  - reflexivity.
  - vm_compute. split; [reflexivity | discriminate].
  - vm_compute. reflexivity.
Defined.

(** ** Offsets to earlier objects, and the root *)

Lemma unpack_uoffset_le_split n :
  0 <= n <= 2 ^ 32 - 1 -> packer.unpack packer.uoffset (le_split 4 n) = n.
Proof.
  intros H. apply (unpack_le_split packer.uint32); [discriminate|].
  change (packer.min_value packer.uint32) with 0.
  change (packer.max_value packer.uint32) with (2 ^ 32 - 1). exact H.
Qed.

(** [PrependUOffsetTRelative(off)], when it returns, has written the
    distance from the new Offset back to [off]. *)
Lemma PrependUOffsetTRelative_inv off b b1 :
  wf b ->
  Builder.PrependUOffsetTRelative off b = Ok (tt, b1) ->
  exists pad,
    pushed (le_split 4 (Builder.Offset b1 - off) ++ pad) b b1 /\
    len pad = (- Builder.Offset b) mod 4 /\
    Builder.Offset b1 = Builder.Offset b + len pad + 4 /\
    4 <= Builder.Offset b1 - off <= 2 ^ 32 - 1 /\
    Builder.minalign b1 = Z.max (Builder.minalign b) 4.
Proof.
  intros Hwf H.
  unfold Builder.PrependUOffsetTRelative, Builder.bind, Builder.gets in H.
  change (bytewidth UOffsetTFlags) with (2 ^ 2) in H.
  destruct (Builder.Prep (2 ^ 2) 0 b) as [[[] b0] | e] eqn:HP; [|discriminate].
  destruct (Prep_inv 2 0 b b0 Hwf) as (Hb0 & Hroom & pad & Hpush0 & Hpad);
    try lia; try exact HP.
  rewrite Z.add_0_r in Hpad. change (2 ^ 2) with 4 in *.
  assert (Hwf0 : wf b0) by apply Hpush0.
  pose proof (pushed_Offset _ _ _ Hwf Hpush0) as Hoff0.
  destruct (Z.geb_spec (Builder.Offset b0 - off) 0) as [Hge | Hlt];
    cbn [negb] in H; [|discriminate].
  destruct (Place_inv (Builder.Offset b0 - off + 4) UOffsetTFlags b0 b1 Hwf0 eq_refl)
    as (bs & Hp & Hpre); [cbn; lia | exact H |].
  apply pack_inv in Hp; [|discriminate]. destruct Hp as [Hr ->].
  change (packer.size (packer_type UOffsetTFlags)) with 4%nat in *.
  change (packer.max_value (packer_type UOffsetTFlags)) with (2 ^ 32 - 1) in Hr.
  assert (Hpush1 : pushed (le_split 4 (Builder.Offset b0 - off + 4)) b0 b1)
    by (apply prepended_pushed;
        [exact Hwf0 | rewrite len_le_split; cbn; lia | exact Hpre]).
  pose proof (pushed_Offset _ _ _ Hwf0 Hpush1) as Hoff1.
  rewrite len_le_split in Hoff1.
  assert (E : Builder.Offset b1 - off = Builder.Offset b0 - off + 4) by lia.
  exists pad. rewrite E.
  split; [eapply pushed_trans; eassumption|].
  split; [exact Hpad|]. split; [lia|]. split; [lia|].
  destruct Hpre as (_ & _ & _ & _ & _ & -> & _). rewrite Hb0. reflexivity.
Qed.

Lemma pow2_divides_4 k n :
  2 <= k -> n mod 2 ^ k = 0 -> n mod 4 = 0.
Proof.
  intros Hk H. apply Z.mod_divide in H; [|apply Z.pow_nonzero; lia].
  destruct H as [q ->].
  replace (2 ^ k) with (2 ^ (k - 2) * 4)
    by (change 4 with (2 ^ 2); rewrite <- Z.pow_add_r by lia; f_equal; lia).
  rewrite Z.mul_assoc. apply Z.mod_mul. lia.
Qed.

Lemma small_pow2_divides k n :
  0 <= k < 2 -> n mod 4 = 0 -> n mod 2 ^ k = 0.
Proof.
  intros Hk H. apply Z.mod_divide in H; [|lia]. destruct H as [q ->].
  assert (k = 0 \/ k = 1) as [-> | ->] by lia.
  - apply Z.mod_1_r.
  - change (2 ^ 1) with 2. replace (q * 4) with (q * 2 * 2) by lia.
    apply Z.mod_mul. lia.
Qed.

Lemma Finish_inv rootTable b h b' k :
  wf b -> 0 <= k -> Builder.minalign b = 2 ^ k ->
  Builder.Finish rootTable b = Ok (h, b') ->
  exists pad,
    pushed (le_split 4 (Builder.Offset b' - rootTable) ++ pad) b b' /\
    h = Builder.head b' /\
    4 <= Builder.Offset b' - rootTable <= 2 ^ 32 - 1 /\
    Builder.Offset b' mod 4 = 0 /\
    Builder.Offset b' mod 2 ^ k = 0.
Proof.
  intros Hwf Hk Hma H. unfold Builder.Finish in H.
  apply bind_inv in H. destruct H as (ma & b0' & E & H).
  unfold Builder.gets in E. injection E as <- <-.
  apply bind_inv in H. destruct H as ([] & b0 & HP & H).
  apply bind_inv in H. destruct H as ([] & b1 & HU & H).
  unfold Builder.gets in H. injection H as <- <-.
  rewrite Hma in HP. change (bytewidth UOffsetTFlags) with 4 in HP.
  destruct (Prep_inv k 4 b b0 Hwf Hk ltac:(lia) HP)
    as (_ & _ & pad0 & Hpush0 & Hpad0).
  assert (Hwf0 : wf b0) by apply Hpush0.
  pose proof (pushed_Offset _ _ _ Hwf Hpush0) as Hoff0.
  destruct (PrependUOffsetTRelative_inv rootTable b0 b1 Hwf0 HU)
    as (pad1 & Hpush1 & Hpad1 & Hoff1 & Hr & _).
  assert (Hpos : 0 < 2 ^ k) by (apply Z.pow_pos_nonneg; lia).
  assert (Hal0 : (Builder.Offset b0 + 4) mod 2 ^ k = 0).
  { rewrite Hoff0, Hpad0.
    replace (Builder.Offset b + (- (Builder.Offset b + 4)) mod 2 ^ k + 4)
      with (Builder.Offset b + 4 + (- (Builder.Offset b + 4)) mod 2 ^ k) by lia.
    rewrite Zplus_mod_idemp_r.
    replace (_ + _) with 0 by lia. apply Z.mod_0_l. lia. }
  exists (pad1 ++ pad0).
  split.
  { replace (le_split 4 (Builder.Offset b1 - rootTable) ++ pad1 ++ pad0)
      with ((le_split 4 (Builder.Offset b1 - rootTable) ++ pad1) ++ pad0)
      by (rewrite <- app_assoc; reflexivity).
    eapply pushed_trans; eassumption. }
  split; [reflexivity|]. split; [exact Hr|].
  assert (H4 : Builder.Offset b1 mod 4 = 0).
  { rewrite Hoff1, Hpad1.
    replace (Builder.Offset b0 + (- Builder.Offset b0) mod 4 + 4)
      with (Builder.Offset b0 + (- Builder.Offset b0) mod 4 + 1 * 4) by lia.
    rewrite Z.mod_add by lia. rewrite Zplus_mod_idemp_r.
    replace (_ + _) with 0 by lia. reflexivity. }
  split; [exact H4|].
  destruct (Z.lt_ge_cases k 2) as [Hsmall | Hbig].
  - apply small_pow2_divides; [lia | exact H4].
  - pose proof (pow2_divides_4 k _ Hbig Hal0) as Hd.
    assert (Hz : (- Builder.Offset b0) mod 4 = 0).
    { apply Z.mod_opp_l_z; [lia|].
      replace (Builder.Offset b0) with (Builder.Offset b0 + 4 + (-1) * 4) by lia.
      rewrite Z.mod_add by lia. exact Hd. }
    rewrite Hoff1, Hpad1, Hz, Z.add_0_r. exact Hal0.
Qed.

(** X10.  [Finish(rootTable)], when it returns, has written in front of the
    written region, after the pad bytes, the UOffset from the new start of
    the region to the root table, and returns the new [head].  The length of
    [Output()] is then a multiple of 4 and of [minalign], and
    [Table.GetRoot(Output(), 0)] is the table whose position lies
    [rootTable] bytes before the end of the buffer; so is
    [Table.GetRoot(Bytes, head)] when that position fits a UOffset. *)
Theorem Finish_GetRoot (rootTable : Z) (b b' : Builder.t) (h k : Z) :
  wf b -> 0 <= k -> Builder.minalign b = 2 ^ k ->
  Builder.Finish rootTable b = Ok (h, b') ->
  h = Builder.head b' /\
  wf b' /\
  (exists pad,
     Builder.Output b' =
       le_split 4 (len (Builder.Output b') - rootTable) ++ pad
         ++ Builder.Output b) /\
  len (Builder.Output b') mod 4 = 0 /\
  len (Builder.Output b') mod Builder.minalign b = 0 /\
  Table.GetRoot (Builder.Output b') 0
    = Ok (Table.mk (Builder.Output b') (len (Builder.Output b') - rootTable)) /\
  (len (Builder.Bytes b') - rootTable <= 2 ^ 32 - 1 ->
   Table.GetRoot (Builder.Bytes b') h
     = Ok (Table.mk (Builder.Bytes b') (len (Builder.Bytes b') - rootTable))).
Proof.
  intros Hwf Hk Hma H.
  destruct (Finish_inv rootTable b h b' k Hwf Hk Hma H)
    as (pad & Hpush & Hh & Hr & H4 & Hal).
  assert (Hwf' : wf b') by apply Hpush.
  pose proof (wf_Offset b' Hwf') as HO'.
  destruct Hpush as (_ & Hout & _).
  rewrite <- app_assoc in Hout.
  split; [exact Hh|]. split; [exact Hwf'|].
  split; [exists pad; rewrite <- HO'; exact Hout|].
  rewrite <- HO', Hma. split; [exact H4|]. split; [exact Hal|].
  assert (Hread : forall pre,
    encode.Get packer.uoffset (pre ++ Builder.Output b') (len pre)
    = Ok (Builder.Offset b' - rootTable)).
  { intros pre. rewrite Hout.
    rewrite Get_app; [|reflexivity | apply length_le_split].
    rewrite unpack_uoffset_le_split by lia. reflexivity. }
  split.
  - unfold Table.GetRoot. change (packer_type UOffsetTFlags) with packer.uoffset.
    pose proof (Hread []) as H0. cbn [app] in H0.
    change (len (@nil byte)) with 0 in H0.
    rewrite H0. cbn [rbind]. rewrite Z.add_0_r.
    apply Table_init_ok. lia.
  - intros Hfit. unfold Table.GetRoot.
    change (packer_type UOffsetTFlags) with packer.uoffset.
    destruct (wf_Bytes_split b' Hwf') as (Hs & HlF & _).
    set (Fr := firstn (Z.to_nat (Builder.head b')) (Builder.Bytes b')) in *.
    rewrite Hs at 1. rewrite Hh, <- HlF, Hread. cbn [rbind].
    replace (Builder.Offset b' - rootTable + len Fr)
      with (len (Builder.Bytes b') - rootTable)
      by (rewrite HlF; unfold Builder.Offset; lia).
    apply Table_init_ok. unfold wf, Builder.Offset in *. lia.
Qed.

Lemma Finish_GetRoot_witness :
  Table.GetRoot
    (Builder.Output
       (exec (Builder.Finish 4) (Builder.mk (bytearray 16) None 12 4 None []))) 0
  = Ok (Table.mk
          (Builder.Output
             (exec (Builder.Finish 4) (Builder.mk (bytearray 16) None 12 4 None [])))
          (len (Builder.Output
                  (exec (Builder.Finish 4)
                     (Builder.mk (bytearray 16) None 12 4 None []))) - 4)).
Proof.
  refine (proj1 (proj2 (proj2 (proj2 (proj2 (proj2
    (Finish_GetRoot 4 (Builder.mk (bytearray 16) None 12 4 None [])
       (exec (Builder.Finish 4) (Builder.mk (bytearray 16) None 12 4 None []))
       8 2 _ _ _ _))))))).
  - vm_compute. split; discriminate.
  - lia.
  - reflexivity.
  - vm_compute. reflexivity.
Defined.

(** ** Vectors *)

Lemma Prep_state_len_le k additionalBytes b :
  wf b -> 0 <= k -> 0 <= additionalBytes ->
  len (Builder.Bytes b) <= len (Builder.Bytes (Prep_state (2 ^ k) additionalBytes b))
  /\ len (Builder.Bytes (Prep_state (2 ^ k) additionalBytes b))
     <= Z.max 1024 (Z.max (2 * len (Builder.Bytes b))
                      (len (Builder.Bytes b) + 2 * 2 ^ k + additionalBytes)).
Proof.
  intros Hwf Hk Ha. unfold wf in Hwf.
  pose proof (alignSize_range k additionalBytes b Hk) as Hp.
  pose proof (len_nonneg (Builder.Bytes b)) as HL.
  unfold Prep_state. cbv zeta. cbn [Builder.Bytes].
  set (pad := alignSize (2 ^ k) additionalBytes b) in *.
  destruct (Z.ltb_spec (Builder.head b) (pad + 2 ^ k + additionalBytes)).
  - rewrite len_app, len_bytearray by (unfold grow_size; lia).
    unfold grow_size. lia.
  - rewrite len_app, len_bytearray by lia. lia.
Qed.

Lemma pad_nil (pad : list byte) : len pad = 0 -> pad = [].
Proof. destruct pad; [reflexivity | unfold len; cbn; lia]. Qed.

(** [StartVector]: the two [Prep] calls. *)
Lemma StartVector_ok elemSize numElems k b :
  wf b -> Builder.current_vtable b = None ->
  0 <= k <= 20 -> 0 <= elemSize * numElems < 2 ^ 28 ->
  len (Builder.Bytes b) < 2 ^ 28 ->
  exists b1 pad,
    Builder.StartVector elemSize numElems (2 ^ k) b = Ok (Builder.Offset b1, b1) /\
    pushed pad b b1 /\
    len pad < 4 + 2 ^ k /\
    (Builder.Offset b1 + elemSize * numElems) mod 4 = 0 /\
    (Builder.Offset b1 + elemSize * numElems) mod 2 ^ k = 0 /\
    elemSize * numElems + 4 <= Builder.head b1.
Proof.
  intros Hwf Hcur Hk Hn HL.
  set (n := elemSize * numElems) in *.
  pose proof (len_nonneg (Builder.Bytes b)) as HL0.
  assert (Hpk : 1 <= 2 ^ k <= 2 ^ 20).
  { split; [|apply Z.pow_le_mono_r; lia].
    pose proof (Z.pow_pos_nonneg 2 k ltac:(lia) ltac:(lia)). lia. }
  change (2 ^ 20) with 1048576 in Hpk. change (2 ^ 28) with 268435456 in *.
  change (2 ^ 31) with 2147483648 in *.
  (* Prep(4, n) *)
  assert (HP1 : Builder.Prep (2 ^ 2) n b = Ok (tt, Prep_state (2 ^ 2) n b)).
  { apply Prep_ok; try assumption; try lia;
      change (2 ^ 31) with 2147483648; change (2 ^ 2) with 4; lia. }
  destruct (Prep_inv 2 n b _ Hwf ltac:(lia) ltac:(lia) HP1)
    as (_ & Hroom1 & pad1 & Hpush1 & Hpad1).
  destruct (Prep_state_len_le 2 n b Hwf ltac:(lia) ltac:(lia)) as [_ Hlen1].
  set (b0 := Prep_state (2 ^ 2) n b) in *.
  change (2 ^ 2) with 4 in *.
  assert (Hwf0 : wf b0) by apply Hpush1.
  pose proof (pushed_Offset _ _ _ Hwf Hpush1) as Hoff0.
  assert (Hal0 : (Builder.Offset b0 + n) mod 4 = 0).
  { rewrite Hoff0, Hpad1.
    replace (Builder.Offset b + (- (Builder.Offset b + n)) mod 4 + n)
      with (Builder.Offset b + n + (- (Builder.Offset b + n)) mod 4) by lia.
    rewrite Zplus_mod_idemp_r. replace (_ + _) with 0 by lia. reflexivity. }
  (* Prep(alignment, n) *)
  assert (HP2 : Builder.Prep (2 ^ k) n b0 = Ok (tt, Prep_state (2 ^ k) n b0)).
  { apply Prep_ok; try assumption; try lia; change (2 ^ 31) with 2147483648; lia. }
  destruct (Prep_inv k n b0 _ Hwf0 ltac:(lia) ltac:(lia) HP2)
    as (Hb1 & Hroom2 & pad2 & Hpush2 & Hpad2).
  set (b1 := Prep_state (2 ^ k) n b0) in *.
  assert (Hwf1 : wf b1) by apply Hpush2.
  pose proof (pushed_Offset _ _ _ Hwf0 Hpush2) as Hoff1.
  assert (Hal1 : (Builder.Offset b1 + n) mod 2 ^ k = 0).
  { rewrite Hoff1, Hpad2.
    replace (Builder.Offset b0 + (- (Builder.Offset b0 + n)) mod 2 ^ k + n)
      with (Builder.Offset b0 + n + (- (Builder.Offset b0 + n)) mod 2 ^ k) by lia.
    rewrite Zplus_mod_idemp_r. replace (_ + _) with 0 by lia.
    apply Z.mod_0_l. lia. }
  assert (Hr1 : 0 <= len pad1 < 4) by (rewrite Hpad1; apply Z.mod_pos_bound; lia).
  assert (Hr2 : 0 <= len pad2 < 2 ^ k) by (rewrite Hpad2; apply Z.mod_pos_bound; lia).
  exists b1, (pad2 ++ pad1).
  split.
  { unfold Builder.StartVector, Builder.bind, Builder.assertNotNested, Builder.gets.
    rewrite Hcur. change (bytewidth Uint32Flags) with 4. fold n.
    rewrite HP1, HP2. reflexivity. }
  split; [eapply pushed_trans; eassumption|].
  split; [rewrite len_app; lia|].
  destruct (Z.lt_ge_cases k 2) as [Hsmall | Hbig].
  - (* alignment 1 or 2: the second Prep does nothing more *)
    assert (Hz : len pad2 = 0).
    { rewrite Hpad2. apply Z.mod_opp_l_z; [lia|].
      apply small_pow2_divides; [lia | exact Hal0]. }
    assert (2 ^ k <= 2)
      by (assert (k = 0 \/ k = 1) as [-> | ->] by lia; cbn; lia).
    split; [rewrite Hoff1, Hz, Z.add_0_r; exact Hal0|].
    split; [exact Hal1|].
    assert (Hhead : Builder.head b1 = Builder.head b0).
    { assert (Ha : alignSize (2 ^ k) n b0 = 0)
        by (rewrite alignSize_mod by lia; rewrite <- Hz, Hpad2; reflexivity).
      unfold b1, Prep_state. cbv zeta. cbn [Builder.head]. rewrite Ha.
      destruct (Z.ltb_spec (Builder.head b0) (0 + 2 ^ k + n)); lia. }
    lia.
  - split; [apply (pow2_divides_4 k); [exact Hbig | exact Hal1]|].
    split; [exact Hal1|].
    assert (4 <= 2 ^ k)
      by (change 4 with (2 ^ 2); apply Z.pow_le_mono_r; lia).
    lia.
Qed.

(** X11.  [StartVector(elemSize, numElems, alignment)] with a power-of-two
    alignment, on a Builder with no object in progress and the sizes well
    below the limit, only adds pad bytes, returns the Offset, and leaves the
    Offset such that, once the [elemSize * numElems] bytes of the elements
    are written, it is a multiple of 4 and of the alignment, with 4 bytes of
    room left below [head]: [EndVector(numElems)], which places the count
    without calling [Prep], then returns the 4-aligned Offset of the count,
    right in front of the elements.  Through a UOffset that points to the
    count, [VectorLen] reads [numElems] and [Vector] gives the position of
    the first element. *)
Theorem Vector_roundtrip (elemSize numElems k : Z) (b : Builder.t) :
  wf b -> Builder.current_vtable b = None ->
  0 <= k <= 20 -> 0 <= elemSize * numElems < 2 ^ 28 ->
  0 <= numElems <= 2 ^ 32 - 1 ->
  len (Builder.Bytes b) < 2 ^ 28 ->
  exists b1 pad,
    Builder.StartVector elemSize numElems (2 ^ k) b = Ok (Builder.Offset b1, b1) /\
    wf b1 /\
    Builder.Output b1 = pad ++ Builder.Output b /\
    (Builder.Offset b1 + elemSize * numElems) mod 2 ^ k = 0 /\
    forall b2 elems,
      wf b2 ->
      Builder.Output b2 = elems ++ Builder.Output b1 ->
      len elems = elemSize * numElems ->
      len (Builder.Bytes b1) <= len (Builder.Bytes b2) ->
      exists b3,
        Builder.EndVector numElems b2 = Ok (Builder.Offset b3, b3) /\
        wf b3 /\
        Builder.Output b3 = le_split 4 numElems ++ elems ++ Builder.Output b1 /\
        Builder.Offset b3 mod 4 = 0 /\
        forall pre Pos off,
          uoffset_target (pre ++ Builder.Output b3) (Pos + off) = Ok (len pre) ->
          let t := Table.mk (pre ++ Builder.Output b3) Pos in
          Table.VectorLen t off = Ok numElems /\
          Table.Vector t off = Ok (len pre + 4 - Pos) /\
          getslice (pre ++ Builder.Output b3) (len pre + 4)
            (len pre + 4 + elemSize * numElems) = elems.
Proof.
  intros Hwf Hcur Hk Hn Hcnt HL.
  destruct (StartVector_ok elemSize numElems k b Hwf Hcur Hk Hn HL)
    as (b1 & pad & HS & Hpush & _ & Hal4 & Halk & Hroom).
  assert (Hwf1 : wf b1) by apply Hpush.
  exists b1, pad. split; [exact HS|]. split; [exact Hwf1|].
  split; [apply Hpush|]. split; [exact Halk|].
  intros b2 elems Hwf2 Hout2 Hlen HL2.
  set (n := elemSize * numElems) in *.
  assert (Hoff2 : Builder.Offset b2 = Builder.Offset b1 + n).
  { rewrite (wf_Offset b2 Hwf2), (wf_Offset b1 Hwf1), Hout2, len_app. lia. }
  assert (Hroom2 : 4 <= Builder.head b2) by (unfold Builder.Offset in *; lia).
  destruct (Place_prepended numElems UOffsetTFlags b2 (le_split 4 numElems)
              Hwf2 eq_refl) as (b3 & HPl & Hpre).
  { change (bytewidth UOffsetTFlags) with 4. exact Hroom2. }
  { apply (pack_in_range packer.uint32); [discriminate|].
    change (packer.min_value packer.uint32) with 0.
    change (packer.max_value packer.uint32) with (2 ^ 32 - 1). exact Hcnt. }
  assert (Hwf3 : wf b3)
    by (apply (prepended_wf (le_split 4 numElems) b2 b3 Hwf2);
        [rewrite len_le_split; lia | exact Hpre]).
  pose proof (prepended_Offset _ _ _ Hpre) as Hoff3. rewrite len_le_split in Hoff3.
  assert (Hout3 : Builder.Output b3
                  = le_split 4 numElems ++ elems ++ Builder.Output b1).
  { destruct Hpre as (_ & _ & _ & -> & _). rewrite Hout2. reflexivity. }
  exists b3. split.
  { unfold Builder.EndVector, Builder.bind, Builder.gets. rewrite HPl. reflexivity. }
  split; [exact Hwf3|]. split; [exact Hout3|]. split.
  { rewrite Hoff3, Hoff2.
    replace (Builder.Offset b1 + n + Z.of_nat 4)
      with (Builder.Offset b1 + n + 1 * 4) by lia.
    rewrite Z.mod_add by lia. exact Hal4. }
  intros pre Pos off Ht t. unfold t.
  unfold uoffset_target, read_uoffset in Ht.
  destruct (encode.Get packer.uoffset _ (Pos + off)) as [u | e] eqn:Hu;
    cbn [rbind] in Ht; [|discriminate].
  injection Ht as Ht.
  assert (Hcount : encode.Get packer.uoffset (pre ++ Builder.Output b3) (len pre)
                   = Ok numElems).
  { rewrite Hout3. rewrite Get_app; [|reflexivity | apply length_le_split].
    rewrite unpack_uoffset_le_split by exact Hcnt. reflexivity. }
  unfold Table.VectorLen, Table.Vector. rewrite !Table_Get_unfold.
  cbn [Table.Bytes Table.Pos]. change (packer_type UOffsetTFlags) with packer.uoffset.
  rewrite Hu. cbn [rbind]. rewrite Table_Get_unfold. cbn [Table.Bytes Table.Pos].
  change (packer_type UOffsetTFlags) with packer.uoffset.
  replace (Pos + (off + u)) with (len pre) by lia.
  rewrite Hcount. cbn [rbind]. split; [reflexivity|].
  split; [f_equal; change (bytewidth UOffsetTFlags) with 4; lia|].
  rewrite Hout3.
  replace (pre ++ le_split 4 numElems ++ elems ++ Builder.Output b1)
    with ((pre ++ le_split 4 numElems) ++ elems ++ Builder.Output b1)
    by (rewrite <- app_assoc; reflexivity).
  apply getslice_app_middle; rewrite len_app, len_le_split; lia.
Qed.

Lemma Vector_roundtrip_witness :
  exists b1 (pad : list byte),
    Builder.StartVector 1 3 (2 ^ 0) (Builder.mk (bytearray 32) None 32 1 None [])
      = Ok (Builder.Offset b1, b1) /\
    (Builder.Offset b1 + 1 * 3) mod 2 ^ 0 = 0.
Proof.
  destruct (Vector_roundtrip 1 3 0 (Builder.mk (bytearray 32) None 32 1 None []))
    as (b1 & pad & H1 & _ & _ & H2 & _).
  - vm_compute. split; discriminate.
  - reflexivity.
  - lia.
  - lia.
  - lia.
  - vm_compute. reflexivity.
  - exists b1, pad. split; [exact H1 | exact H2].
Defined.

(** ** Writing the fields of an object *)

Lemma Prep_minalign size additionalBytes b b' :
  Builder.Prep size additionalBytes b = Ok (tt, b') ->
  Builder.minalign b' = Z.max (Builder.minalign b) size.
Proof.
  rewrite Prep_unfold. cbv zeta. destruct (_ && _); [discriminate|].
  intros H. injection H as <-. reflexivity.
Qed.

Lemma aligned_max b j m :
  aligned b -> 0 <= j -> m = Z.max (Builder.minalign b) (2 ^ j) ->
  exists k, 0 <= k /\ m = 2 ^ k.
Proof.
  intros (k & Hk & E) Hj ->. rewrite E.
  destruct (Z.le_ge_cases k j) as [H | H].
  - exists j. split; [exact Hj|]. apply Z.max_r. apply Z.pow_le_mono_r; lia.
  - exists k. split; [exact Hk|]. apply Z.max_l. apply Z.pow_le_mono_r; lia.
Qed.

Lemma Place_minalign x flags b b' :
  Builder.Place x flags b = Ok (tt, b') -> Builder.minalign b' = Builder.minalign b.
Proof.
  unfold Builder.Place. destruct (encode.Write _ _ _ _); [|discriminate].
  cbn [rbind]. intros H. injection H as <-. reflexivity.
Qed.

Lemma Prepend_minalign flags x b b' :
  Builder.Prepend flags x b = Ok (tt, b') ->
  Builder.minalign b' = Z.max (Builder.minalign b) (bytewidth flags).
Proof.
  unfold Builder.Prepend. intros H.
  apply bind_inv in H. destruct H as ([] & b0 & HP & H).
  rewrite (Place_minalign _ _ _ _ H). apply (Prep_minalign _ _ _ _ HP).
Qed.

Lemma StartObject_inv numfields b b' :
  Builder.StartObject numfields b = Ok (tt, b') ->
  Builder.current_vtable b = None /\
  b' = Builder.mk (Builder.Bytes b) (Some (repeat 0 (Z.to_nat numfields)))
         (Builder.head b) 1 (Some (Builder.Offset b)) (Builder.vtables b).
Proof.
  unfold Builder.StartObject, Builder.bind, Builder.assertNotNested, Builder.modify.
  destruct (Builder.current_vtable b); [discriminate|].
  intros H. injection H as <-. auto.
Qed.

Lemma Slot_inv o b b' :
  Builder.Slot o b = Ok (tt, b') ->
  exists cur cur',
    Builder.current_vtable b = Some cur /\
    setitem cur o (Builder.Offset b) = Ok cur' /\
    b' = Builder.set_current_vtable (Some cur') b.
Proof.
  unfold Builder.Slot. destruct (Builder.current_vtable b) as [cur|]; [|discriminate].
  destruct (setitem cur o (Builder.Offset b)) as [cur'|] eqn:E; [|discriminate].
  cbn [rbind]. intros H. injection H as <-. eauto.
Qed.

Lemma setitem_inv {A} (l : list A) i v l' :
  0 <= i -> setitem l i v = Ok l' ->
  i < len l /\ length l' = length l /\
  nth_error l' (Z.to_nat i) = Some v /\
  forall j, j <> Z.to_nat i -> nth_error l' j = nth_error l j.
Proof.
  intros Hi H. unfold setitem in H.
  destruct (Z.ltb_spec i 0); [lia|].
  destruct (Z.leb_spec 0 i); [|lia].
  destruct (Z.ltb_spec i (len l)); [|discriminate].
  cbn [andb] in H. injection H as <-.
  split; [assumption|]. apply nth_error_update. unfold len in *. lia.
Qed.

Lemma field_holds_pushed bs b b' p e v :
  wf b -> pushed bs b b' -> field_holds b p e v -> field_holds b' p e v.
Proof.
  intros Hwf Hpush [He Hv].
  pose proof (pushed_Offset _ _ _ Hwf Hpush) as Ho.
  pose proof (len_nonneg bs) as Hbs.
  destruct Hpush as (_ & Hout & _).
  split; [lia|].
  rewrite Hout, Ho.
  replace (Builder.Offset b + len bs - e) with (len bs + (Builder.Offset b - e)) by lia.
  rewrite Get_skip by lia. exact Hv.
Qed.

Lemma field_holds_head bs rest b' p v :
  wf b' -> Builder.Output b' = bs ++ rest ->
  length bs = packer.size p -> packer.unpack p bs = v ->
  field_holds b' p (Builder.Offset b') v.
Proof.
  intros Hwf Hout Hlen Hv.
  pose proof (wf_Offset b' Hwf) as Ho. pose proof (size_pos p) as Hs.
  split.
  - rewrite Ho at 2 3. rewrite Ho, Hout, len_app. unfold len at 1 2.
    pose proof (len_nonneg rest). lia.
  - rewrite Z.sub_diag, Hout.
    change (bs ++ rest) with ([] ++ bs ++ rest).
    rewrite Get_app; [rewrite Hv; reflexivity | reflexivity | exact Hlen].
Qed.

(** [PrependInt8], when it returns. *)
Lemma PrependInt8_inv x b b' :
  wf b -> Builder.PrependInt8 x b = Ok (tt, b') ->
  pushed [byte.of_Z x] b b' /\
  Builder.minalign b' = Z.max (Builder.minalign b) 1.
Proof.
  intros Hwf H. unfold Builder.PrependInt8 in H.
  apply bind_inv in H. destruct H as ([] & b0 & HP & H).
  change (bytewidth Int8Flags) with (2 ^ 0) in HP.
  pose proof (Prep_minalign _ _ _ _ HP) as Hm.
  destruct (Prep_inv 0 0 b b0 Hwf ltac:(lia) ltac:(lia) HP)
    as (_ & Hroom & pad & Hpush0 & Hpad).
  change (2 ^ 0) with 1 in *. rewrite Z.mod_1_r in Hpad.
  assert (pad = []) by (destruct pad; [reflexivity | unfold len in Hpad; cbn in Hpad; lia]).
  subst pad.
  assert (Hwf0 : wf b0) by apply Hpush0.
  assert (Hland : 0 <= Z.land x 255 < 256).
  { change 255 with (Z.ones 8). rewrite Z.land_ones by lia.
    apply Z.mod_pos_bound. lia. }
  destruct (put_byte_prepended b0 (Z.land x 255) Hwf0 ltac:(lia) Hland)
    as (b'' & HS & Hpre).
  unfold Builder.PlaceInt8 in H. rewrite HS in H. injection H as <-.
  rewrite byte_of_Z_land in Hpre.
  split.
  - change [byte.of_Z x] with ([byte.of_Z x] ++ []).
    eapply pushed_trans; [exact Hpush0|].
    apply prepended_pushed; [exact Hwf0 | cbn; lia | exact Hpre].
  - destruct Hpre as (_ & _ & _ & _ & _ & -> & _). exact Hm.
Qed.

(** [Prepend] of a codec kind, when it returns. *)
Lemma Prepend_inv flags k x b b' :
  wf b -> 0 <= k ->
  bytewidth flags = 2 ^ k ->
  bytewidth flags = Z.of_nat (packer.size (packer_type flags)) ->
  packer_type flags <> packer.boolean ->
  Builder.Prepend flags x b = Ok (tt, b') ->
  exists pad,
    pushed (le_split (packer.size (packer_type flags)) x ++ pad) b b' /\
    packer.min_value (packer_type flags) <= x <= packer.max_value (packer_type flags).
Proof.
  intros Hwf Hk Hw Hs Hnb H. unfold Builder.Prepend in H.
  apply bind_inv in H. destruct H as ([] & b0 & HP & H).
  rewrite Hw in HP.
  destruct (Prep_inv k 0 b b0 Hwf Hk) as (_ & Hroom & pad & Hpush0 & _);
    [lia | exact HP |].
  assert (Hwf0 : wf b0) by apply Hpush0.
  destruct (Place_inv x flags b0 b' Hwf0 Hs) as (bs & Hp & Hpre);
    [lia | exact H |].
  pose proof (pack_length _ _ _ Hp) as Hlen.
  apply pack_inv in Hp; [|exact Hnb]. destruct Hp as [Hr ->].
  exists pad. split; [|exact Hr].
  eapply pushed_trans; [exact Hpush0|].
  apply prepended_pushed; [exact Hwf0 | unfold len; lia | exact Hpre].
Qed.

(** ** [minalign] through [EndObject] *)

Lemma PrependVOffsetT_minalign v b b' :
  2 <= Builder.minalign b ->
  Builder.PrependVOffsetT v b = Ok (tt, b') ->
  Builder.minalign b' = Builder.minalign b.
Proof.
  intros Hm H. unfold Builder.PrependVOffsetT in H.
  rewrite (Prepend_minalign _ _ _ _ H). change (bytewidth VOffsetTFlags) with 2. lia.
Qed.

Lemma write_fields_minalign oo : forall offs b b',
  2 <= Builder.minalign b ->
  Builder.write_fields offs oo b = Ok (tt, b') ->
  Builder.minalign b' = Builder.minalign b.
Proof.
  induction offs as [|off rest IH]; intros b b' Hm H.
  - cbn in H. injection H as <-. reflexivity.
  - cbn [Builder.write_fields] in H.
    apply bind_inv in H. destruct H as ([] & b0 & HP & H).
    pose proof (PrependVOffsetT_minalign _ _ _ Hm HP) as E.
    rewrite (IH b0 b') by (exact H || lia). exact E.
Qed.

Lemma EndObject_minalign b oo b' :
  Builder.EndObject b = Ok (oo, b') ->
  Builder.minalign b' = Z.max (Builder.minalign b) 4.
Proof.
  unfold Builder.EndObject. destruct (Builder.current_vtable b); [|discriminate].
  unfold Builder.WriteVtable. intros H.
  apply bind_inv in H. destruct H as ([] & b1 & H1 & H).
  assert (Hm1 : Builder.minalign b1 = Z.max (Builder.minalign b) 4).
  { unfold Builder.PrependSOffsetTRelative in H1.
    apply bind_inv in H1. destruct H1 as ([] & b0 & HP & H1).
    apply bind_inv in H1. destruct H1 as (off2 & b0' & E & H1).
    unfold Builder.gets in E. injection E as <- <-.
    destruct (negb _); [discriminate|].
    rewrite (Place_minalign _ _ _ _ H1). apply (Prep_minalign _ _ _ _ HP). }
  apply bind_inv in H. destruct H as (oo' & b1' & E & H).
  unfold Builder.gets in E. injection E as <- <-.
  apply bind_inv in H. destruct H as (ex & b1' & Hex & H).
  destruct (Builder.find_existing _ _ _ _) as [ex'|]; [|discriminate].
  cbn [rbind] in Hex. injection Hex as <- <-.
  apply bind_inv in H. destruct H as ([] & b6 & Hbr & H).
  cbn in H. injection H as <- <-.
  cbn [Builder.minalign Builder.set_current_vtable].
  assert (Hge : 2 <= Builder.minalign b1) by lia.
  rewrite <- Hm1. clear Hm1.
  destruct ex' as [ev|].
  - apply bind_inv in Hbr. destruct Hbr as ([] & b2 & Hm & Hw).
    unfold Builder.modify in Hm. injection Hm as <-.
    destruct (encode.Write _ _ _ _); [|discriminate].
    cbn [rbind] in Hw. injection Hw as <-. reflexivity.
  - apply bind_inv in Hbr. destruct Hbr as (cur' & b1' & E & Hbr).
    destruct (Builder.current_vtable b1); [|discriminate]. injection E as <- <-.
    apply bind_inv in Hbr. destruct Hbr as ([] & b2 & H2 & Hbr).
    pose proof (write_fields_minalign _ _ _ _ Hge H2) as E2.
    apply bind_inv in Hbr. destruct Hbr as (oe & b2' & E & Hbr).
    destruct (Builder.objectEnd b2); [|discriminate]. injection E as <- <-.
    apply bind_inv in Hbr. destruct Hbr as ([] & b3 & H3 & Hbr).
    assert (E3 : Builder.minalign b3 = Builder.minalign b2)
      by (eapply PrependVOffsetT_minalign; [|exact H3]; lia).
    apply bind_inv in Hbr. destruct Hbr as ([] & b4 & H4 & Hbr).
    assert (E4 : Builder.minalign b4 = Builder.minalign b3)
      by (eapply PrependVOffsetT_minalign; [|exact H4]; lia).
    apply bind_inv in Hbr. destruct Hbr as ([] & b5 & Hw & Hm).
    unfold Builder.modify in Hm. injection Hm as <-.
    destruct (encode.Write _ _ _ _); [|discriminate].
    cbn [rbind] in Hw. injection Hw as <-.
    cbn [Builder.minalign Builder.set_vtables Builder.set_Bytes]. lia.
Qed.

(** ** The table of a finished object *)

(** A slot that was set, in any buffer that ends with the new [Output()]. *)
Lemma Offset_after_EndObject b b' cur oo pre i e :
  wf b ->
  Builder.current_vtable b = Some cur ->
  Forall (fun ev => 0 < ev <= Builder.Offset b) (Builder.vtables b) ->
  Builder.EndObject b = Ok (oo, b') ->
  nth_error cur i = Some e -> 0 < e <= Builder.Offset b ->
  Table.Offset
    (Table.mk (pre ++ Builder.Output b') (len (pre ++ Builder.Output b') - oo))
    (4 + 2 * Z.of_nat i) = Ok (oo - e) /\
  oo - e <> 0 /\
  wf b' /\
  exists new, Builder.Output b' = new ++ Builder.Output b.
Proof.
  intros Hwf Hcur Hall H Hi He.
  destruct (EndObject_inv b oo b' cur Hwf Hcur H)
    as (b1 & pad & hdr & ex & Hpush & Hhdr & Hoo1 & Hoo & Hfind & Hwf' & _ & Hex).
  pose proof (header_offset_above b) as Habove.
  split; [|split; [lia|split; [exact Hwf'|]]].
  - destruct ex as [ev|].
    + destruct Hex as (Hout & _ & _ & Hr).
      destruct (Offset_found b b1 b' cur oo ev pad hdr _ pre Hwf Hwf' Hpush Hhdr
                  Hoo1 Hfind (Forall_rev Hall) Hout Hr i e Hi) as (y & Hy & HP).
      rewrite Hy. f_equal. destruct HP as [[_ HP] | HP]; lia.
    + destruct Hex as (oe & _ & Hout & _ & Hoff & Hv & Hent & Hr).
      destruct (Offset_new b b' cur oo oe pad pre Hwf' Hout Hoff Hv Hent Hr)
        as [Hread _].
      rewrite (Hread i e Hi). destruct (Z.eqb_spec e 0); [lia | reflexivity].
  - destruct ex as [ev|].
    + destruct Hex as (Hout & _).
      exists (le_split 4 (ev - oo) ++ pad). rewrite Hout, <- app_assoc. reflexivity.
    + destruct Hex as (oe & _ & Hout & _).
      exists (vtable_bytes cur oo oe ++ le_split 4 (Builder.Offset b' - oo) ++ pad).
      rewrite Hout, <- !app_assoc. reflexivity.
Qed.

(** A slot that was not set, for the first object of a buffer. *)
Lemma Offset_absent_first b b' cur oo pre i :
  wf b ->
  Builder.current_vtable b = Some cur ->
  Builder.vtables b = [] ->
  Builder.EndObject b = Ok (oo, b') ->
  nth_error cur i = Some 0 ->
  Table.Offset
    (Table.mk (pre ++ Builder.Output b') (len (pre ++ Builder.Output b') - oo))
    (4 + 2 * Z.of_nat i) = Ok 0.
Proof.
  intros Hwf Hcur Hvt H Hi.
  destruct (EndObject_inv b oo b' cur Hwf Hcur H)
    as (b1 & pad & hdr & ex & Hpush & Hhdr & Hoo1 & Hoo & Hfind & Hwf' & _ & Hex).
  rewrite Hvt in Hfind. cbn in Hfind. injection Hfind as <-.
  destruct Hex as (oe & _ & Hout & _ & Hoff & Hv & Hent & Hr).
  destruct (Offset_new b b' cur oo oe pad pre Hwf' Hout Hoff Hv Hent Hr)
    as [Hread _].
  rewrite (Hread i 0 Hi). reflexivity.
Qed.

(** A field of a finished object, read in any buffer that ends with the new
    [Output()]. *)
Lemma Get_after_EndObject b b' oo pre new p e v :
  wf b -> Builder.Output b' = new ++ Builder.Output b ->
  field_holds b p e v ->
  encode.Get p (pre ++ Builder.Output b')
    (len (pre ++ Builder.Output b') - oo + (oo - e)) = Ok v.
Proof.
  intros Hwf Hnew [He Hv]. pose proof (wf_Offset b Hwf) as HOb.
  rewrite Hnew, app_assoc.
  replace (len ((pre ++ new) ++ Builder.Output b) - oo + (oo - e))
    with (len (pre ++ new) + (Builder.Offset b - e))
    by (rewrite (len_app (pre ++ new)); lia).
  rewrite Get_skip by lia. exact Hv.
Qed.

(** The root, in [Output()]. *)
Lemma GetRoot_after_Finish rootTable b h b' :
  wf b -> aligned b ->
  Builder.Finish rootTable b = Ok (h, b') ->
  exists pre,
    Builder.Output b' = pre ++ Builder.Output b /\
    Table.GetRoot (Builder.Output b') 0
    = Ok (Table.mk (Builder.Output b') (len (Builder.Output b') - rootTable)).
Proof.
  intros Hwf (k & Hk & Hma) H.
  destruct (Finish_inv rootTable b h b' k Hwf Hk Hma H)
    as (pad & Hpush & _ & Hr & _ & _).
  assert (Hwf' : wf b') by apply Hpush.
  pose proof (wf_Offset b' Hwf') as HO'.
  destruct Hpush as (_ & Hout & _).
  exists (le_split 4 (Builder.Offset b' - rootTable) ++ pad).
  split; [exact Hout|].
  unfold Table.GetRoot. change (packer_type UOffsetTFlags) with packer.uoffset.
  rewrite Hout at 1. rewrite <- app_assoc.
  change (le_split 4 (Builder.Offset b' - rootTable) ++ pad ++ Builder.Output b)
    with ([] ++ le_split 4 (Builder.Offset b' - rootTable)
            ++ pad ++ Builder.Output b).
  rewrite Get_app; [|reflexivity | apply length_le_split].
  rewrite unpack_uoffset_le_split by lia. cbn [rbind]. rewrite Z.add_0_r, <- HO'.
  apply Table_init_ok. lia.
Qed.

(** ** Generated code: [TestSimpleTableWithEnum] *)

Lemma set_current_vtable_pushed cv b0 :
  wf b0 ->
  wf (Builder.set_current_vtable cv b0) /\
  Builder.Output (Builder.set_current_vtable cv b0) = Builder.Output b0 /\
  Builder.Offset (Builder.set_current_vtable cv b0) = Builder.Offset b0 /\
  Builder.vtables (Builder.set_current_vtable cv b0) = Builder.vtables b0 /\
  Builder.minalign (Builder.set_current_vtable cv b0) = Builder.minalign b0 /\
  Builder.current_vtable (Builder.set_current_vtable cv b0) = cv.
Proof. intros H. repeat split; apply H. Qed.

Lemma field_holds_set_current_vtable cv b0 p e v :
  field_holds b0 p e v -> field_holds (Builder.set_current_vtable cv b0) p e v.
Proof. intros H. exact H. Qed.

(** X12.  [CreateTestSimpleTableWithEnum(builder, color)] as the first
    object of a buffer, followed by [Finish] of the Offset it returned:
    whenever both return, [GetRootAsTestSimpleTableWithEnum(Output(), 0)]
    is a table whose [Color()] is the [color] passed, for every int8 value,
    and the schema default 2 when [color] was left at [None]; a [color]
    equal to the default is not stored and is read back all the same. *)
Theorem TestSimpleTableWithEnum_roundtrip (color : option Z)
    (b b1 b2 : Builder.t) (o h : Z) :
  wf b ->
  Builder.vtables b = [] ->
  (forall c, color = Some c -> -128 <= c <= 127) ->
  TestSimpleTableWithEnum.CreateTestSimpleTableWithEnum color b = Ok (o, b1) ->
  Builder.Finish o b1 = Ok (h, b2) ->
  exists t,
    TestSimpleTableWithEnum.GetRootAsTestSimpleTableWithEnum (Builder.Output b2) 0
      = Ok t /\
    TestSimpleTableWithEnum.Color t
      = Ok (match color with Some c => c | None => 2 end).
Proof.
  intros Hwf Hvt Hrange HC HF.
  unfold TestSimpleTableWithEnum.CreateTestSimpleTableWithEnum in HC.
  apply bind_inv in HC. destruct HC as ([] & bs & HS & HC).
  apply bind_inv in HC. destruct HC as ([] & bf & HA & HE).
  destruct (StartObject_inv _ _ _ HS) as [_ ->].
  set (bs := Builder.mk (Builder.Bytes b) (Some (repeat 0 (Z.to_nat 1)))
               (Builder.head b) 1 (Some (Builder.Offset b)) (Builder.vtables b)) in *.
  assert (Hwfs : wf bs) by exact Hwf.
  (* the state in which [EndObject] is called *)
  assert (Hbf : wf bf /\ Builder.vtables bf = [] /\ Builder.minalign bf = 1 /\
    exists cur, Builder.current_vtable bf = Some cur /\
      match color with
      | Some c =>
          if c =? 2 then nth_error cur 0 = Some 0
          else exists e, nth_error cur 0 = Some e /\
                         field_holds bf packer.int8 e c
      | None => nth_error cur 0 = Some 0
      end).
  { destruct color as [c|].
    - unfold Builder.PrependInt8Slot in HA.
      destruct (Z.eqb_spec c 2) as [-> | Hc]; cbn [negb] in HA.
      + injection HA as <-.
        split; [exact Hwfs|]. split; [exact Hvt|]. split; [reflexivity|].
        exists [0]. split; reflexivity.
      + apply bind_inv in HA. destruct HA as ([] & b0 & HP & HSl).
        destruct (PrependInt8_inv c bs b0 Hwfs HP) as [Hpush Hm].
        assert (Hwf0 : wf b0) by apply Hpush.
        destruct (Slot_inv _ _ _ HSl) as (cur & cur' & Hcur & Hset & ->).
        destruct (setitem_inv cur 0 _ cur' (Z.le_refl 0) Hset) as (_ & _ & Hnth & _).
        destruct Hpush as (_ & Hout & _ & _ & Hv).
        split; [exact Hwf0|]. split; [rewrite <- Hvt; exact Hv|].
        split; [exact Hm|].
        exists cur'. split; [reflexivity|].
        exists (Builder.Offset b0). split; [exact Hnth|].
        apply field_holds_set_current_vtable.
        apply (field_holds_head [byte.of_Z c] ([] ++ Builder.Output bs));
          [exact Hwf0 | exact Hout | reflexivity |].
        rewrite unpack_int8_byte. specialize (Hrange c eq_refl).
        rewrite Z.mod_small by lia. lia.
    - injection HA as <-.
      split; [exact Hwfs|]. split; [exact Hvt|]. split; [reflexivity|].
      exists [0]. split; reflexivity. }
  destruct Hbf as (Hwff & Hvtf & Hmf & cur & Hcur & Hslot).
  (* the root *)
  assert (Hal : aligned b1).
  { exists 2. split; [lia|]. rewrite (EndObject_minalign _ _ _ HE), Hmf. reflexivity. }
  assert (Hwf1 : wf b1).
  { destruct (EndObject_inv bf o b1 cur Hwff Hcur HE)
      as (_ & _ & _ & _ & _ & _ & _ & _ & _ & H & _). exact H. }
  destruct (GetRoot_after_Finish o b1 h b2 Hwf1 Hal HF) as (pre & Hout2 & Hroot).
  unfold TestSimpleTableWithEnum.GetRootAsTestSimpleTableWithEnum.
  rewrite Hroot. cbn [rbind]. eexists. split; [reflexivity|].
  unfold TestSimpleTableWithEnum.Color. cbn [TestSimpleTableWithEnum._tab].
  rewrite Hout2. change 4 with (4 + 2 * Z.of_nat 0) at 1.
  assert (Hdefault : nth_error cur 0 = Some 0 ->
    (let! o0 := Table.Offset
                 (Table.mk (pre ++ Builder.Output b1)
                    (len (pre ++ Builder.Output b1) - o)) (4 + 2 * Z.of_nat 0) in
     if negb (o0 =? 0)
     then Table.GetInt8
            (Table.mk (pre ++ Builder.Output b1)
               (len (pre ++ Builder.Output b1) - o)) o0
     else Ok 2) = Ok 2).
  { intros H0.
    rewrite (Offset_absent_first bf b1 cur o pre 0 Hwff Hcur Hvtf HE H0).
    reflexivity. }
  destruct color as [c|]; [|exact (Hdefault Hslot)].
  destruct (Z.eqb_spec c 2) as [-> | Hc]; [exact (Hdefault Hslot)|].
  destruct Hslot as (e & Hnth & Hfield).
  destruct (Offset_after_EndObject bf b1 cur o pre 0 e Hwff Hcur)
    as (Hoff & Hne & _ & new & Hnew);
    [rewrite Hvtf; constructor | exact HE | exact Hnth | apply Hfield |].
  rewrite Hoff. cbn [rbind].
  destruct (Z.eqb_spec (o - e) 0); [contradiction|]. cbn [negb].
  unfold Table.GetInt8. rewrite Table_Get_unfold. cbn [Table.Bytes Table.Pos].
  apply (Get_after_EndObject bf b1 o pre new); assumption.
Qed.

Lemma TestSimpleTableWithEnum_roundtrip_witness :
  exists t,
    TestSimpleTableWithEnum.GetRootAsTestSimpleTableWithEnum
      (Builder.Output
         (exec (Builder.Finish 8)
            (exec (TestSimpleTableWithEnum.CreateTestSimpleTableWithEnum (Some (-3)))
               (Builder.mk (bytearray 64) None 64 1 None [])))) 0 = Ok t /\
    TestSimpleTableWithEnum.Color t = Ok (-3).
Proof.
  apply (TestSimpleTableWithEnum_roundtrip (Some (-3))
           (Builder.mk (bytearray 64) None 64 1 None [])
           (exec (TestSimpleTableWithEnum.CreateTestSimpleTableWithEnum (Some (-3)))
              (Builder.mk (bytearray 64) None 64 1 None []))
           (exec (Builder.Finish 8)
              (exec (TestSimpleTableWithEnum.CreateTestSimpleTableWithEnum (Some (-3)))
                 (Builder.mk (bytearray 64) None 64 1 None [])))
           8 44).
  - vm_compute. split; discriminate.
  - reflexivity.
  - intros c H. injection H as <-. lia.
  - vm_compute. reflexivity.
  - vm_compute. reflexivity.
Defined.

(** ** Generated code: [Stat] *)

Lemma string_at_pushed bs b b' e s :
  wf b -> pushed bs b b' -> string_at b e s -> string_at b' e s.
Proof.
  intros Hwf Hpush (He & Hs & front & rest & Hout & Hfront).
  pose proof (pushed_Offset _ _ _ Hwf Hpush) as Ho.
  pose proof (len_nonneg bs) as Hbs.
  destruct Hpush as (_ & Hout' & _).
  split; [lia|]. split; [exact Hs|].
  exists (bs ++ front), rest. split.
  - rewrite Hout', Hout, <- app_assoc. reflexivity.
  - rewrite len_app. lia.
Qed.

Lemma stepped_refl b cur :
  wf b -> Builder.current_vtable b = Some cur -> stepped b b cur.
Proof.
  intros Hwf Hcur. exists b, []. split; [apply pushed_refl, Hwf|].
  split; [|auto]. destruct b. cbn in Hcur. subst. reflexivity.
Qed.

Lemma stepped_facts b b' cur' :
  wf b -> stepped b b' cur' ->
  wf b' /\
  Builder.current_vtable b' = Some cur' /\
  Builder.vtables b' = Builder.vtables b /\
  (aligned b -> aligned b') /\
  (forall p e v, field_holds b p e v -> field_holds b' p e v) /\
  (forall e s, string_at b e s -> string_at b' e s).
Proof.
  intros Hwf (b0 & bs & Hpush & -> & Hal).
  split; [apply Hpush|]. split; [reflexivity|].
  split; [apply Hpush|]. split; [exact Hal|]. split.
  - intros p e v H. apply field_holds_set_current_vtable.
    eapply field_holds_pushed; eassumption.
  - intros e s H. exact (string_at_pushed bs b b0 e s Hwf Hpush H).
Qed.

(** [Prepend<K>Slot(o, x, d)] for a kind that goes through the codec. *)
Lemma PrependSlot_step flags k o x d b b' cur :
  wf b -> 0 <= k ->
  bytewidth flags = 2 ^ k ->
  bytewidth flags = Z.of_nat (packer.size (packer_type flags)) ->
  packer_type flags <> packer.boolean ->
  Builder.current_vtable b = Some cur -> 0 <= o ->
  Builder.PrependSlot flags o x d b = Ok (tt, b') ->
  exists cur',
    stepped b b' cur' /\
    (forall j, j <> Z.to_nat o -> nth_error cur' j = nth_error cur j) /\
    ((x = d /\ nth_error cur' (Z.to_nat o) = nth_error cur (Z.to_nat o)) \/
     (x <> d /\ exists e, nth_error cur' (Z.to_nat o) = Some e /\
                          field_holds b' (packer_type flags) e x)).
Proof.
  intros Hwf Hk Hw Hs Hnb Hcur Ho H. unfold Builder.PrependSlot in H.
  destruct (Z.eqb_spec x d) as [Hx | Hx]; cbn [negb] in H.
  - injection H as <-. exists cur. split; [apply stepped_refl; assumption|].
    split; [reflexivity|]. left. auto.
  - apply bind_inv in H. destruct H as ([] & b0 & HP & HSl).
    destruct (Prepend_inv flags k x b b0 Hwf Hk Hw Hs Hnb HP) as (pad & Hpush & Hr).
    pose proof (Prepend_minalign _ _ _ _ HP) as Hm.
    assert (Hwf0 : wf b0) by apply Hpush.
    destruct (Slot_inv _ _ _ HSl) as (cur0 & cur' & Hcur0 & Hset & ->).
    assert (cur0 = cur).
    { destruct Hpush as (_ & _ & Hc & _). congruence. }
    subst cur0.
    destruct (setitem_inv cur o _ cur' Ho Hset) as (_ & _ & Hnth & Hother).
    exists cur'. split.
    + exists b0, (le_split (packer.size (packer_type flags)) x ++ pad).
      split; [exact Hpush|]. split; [reflexivity|].
      intros Hal. rewrite Hw in Hm. exact (aligned_max b k _ Hal Hk Hm).
    + split; [exact Hother|]. right. split; [exact Hx|].
      exists (Builder.Offset b0). split; [exact Hnth|].
      apply field_holds_set_current_vtable.
      destruct Hpush as (_ & Hout & _).
      apply (field_holds_head (le_split (packer.size (packer_type flags)) x)
               (pad ++ Builder.Output b));
        [exact Hwf0 | rewrite Hout, <- app_assoc; reflexivity
        | apply length_le_split | apply unpack_le_split; assumption].
Qed.

(** [PrependUOffsetTRelativeSlot(o, x, d)]. *)
Lemma PrependUOffsetTRelativeSlot_step o x d b b' cur :
  wf b -> Builder.current_vtable b = Some cur -> 0 <= o ->
  Builder.PrependUOffsetTRelativeSlot o x d b = Ok (tt, b') ->
  exists cur',
    stepped b b' cur' /\
    (forall j, j <> Z.to_nat o -> nth_error cur' j = nth_error cur j) /\
    ((x = d /\ nth_error cur' (Z.to_nat o) = nth_error cur (Z.to_nat o)) \/
     (x <> d /\ exists e, nth_error cur' (Z.to_nat o) = Some e /\
                          field_holds b' packer.uoffset e (e - x))).
Proof.
  intros Hwf Hcur Ho H. unfold Builder.PrependUOffsetTRelativeSlot in H.
  destruct (Z.eqb_spec x d) as [Hx | Hx]; cbn [negb] in H.
  - injection H as <-. exists cur. split; [apply stepped_refl; assumption|].
    split; [reflexivity|]. left. auto.
  - apply bind_inv in H. destruct H as ([] & b0 & HP & HSl).
    destruct (PrependUOffsetTRelative_inv x b b0 Hwf HP)
      as (pad & Hpush & _ & _ & Hr & Hm).
    assert (Hwf0 : wf b0) by apply Hpush.
    destruct (Slot_inv _ _ _ HSl) as (cur0 & cur' & Hcur0 & Hset & ->).
    assert (cur0 = cur).
    { destruct Hpush as (_ & _ & Hc & _). congruence. }
    subst cur0.
    destruct (setitem_inv cur o _ cur' Ho Hset) as (_ & _ & Hnth & Hother).
    exists cur'. split.
    + exists b0, (le_split 4 (Builder.Offset b0 - x) ++ pad).
      split; [exact Hpush|]. split; [reflexivity|].
      intros Hal. exact (aligned_max b 2 _ Hal ltac:(lia) Hm).
    + split; [exact Hother|]. right. split; [exact Hx|].
      exists (Builder.Offset b0). split; [exact Hnth|].
      apply field_holds_set_current_vtable.
      destruct Hpush as (_ & Hout & _).
      apply (field_holds_head (le_split 4 (Builder.Offset b0 - x))
               (pad ++ Builder.Output b));
        [exact Hwf0 | rewrite Hout, <- app_assoc; reflexivity
        | apply length_le_split | apply unpack_uoffset_le_split; lia].
Qed.

(** What a generated scalar accessor returns for a slot of the first object
    of a buffer. *)
Lemma accessor_reads bf b1 cur o pre i flags v d :
  wf bf -> Builder.current_vtable bf = Some cur -> Builder.vtables bf = [] ->
  Builder.EndObject bf = Ok (o, b1) ->
  slot_reads bf cur i (packer_type flags) v d ->
  (let! o0 := Table.Offset
               (Table.mk (pre ++ Builder.Output b1)
                  (len (pre ++ Builder.Output b1) - o)) (4 + 2 * Z.of_nat i) in
   if negb (o0 =? 0)
   then Table.Get
          (Table.mk (pre ++ Builder.Output b1)
             (len (pre ++ Builder.Output b1) - o)) flags o0
   else Ok d) = Ok v.
Proof.
  intros Hwf Hcur Hvt HE (e & Hnth & [[-> ->] | Hfield]).
  - rewrite (Offset_absent_first bf b1 cur o pre i Hwf Hcur Hvt HE Hnth).
    reflexivity.
  - destruct (Offset_after_EndObject bf b1 cur o pre i e Hwf Hcur)
      as (Hoff & Hne & _ & new & Hnew);
      [rewrite Hvt; constructor | exact HE | exact Hnth | apply Hfield |].
    rewrite Hoff. cbn [rbind].
    destruct (Z.eqb_spec (o - e) 0); [contradiction|]. cbn [negb].
    rewrite Table_Get_unfold. cbn [Table.Bytes Table.Pos].
    apply (Get_after_EndObject bf b1 o pre new); assumption.
Qed.

(** What a generated string accessor returns for a slot of the first object
    of a buffer. *)
Lemma string_accessor_reads bf b1 cur o pre i s :
  wf bf -> Builder.current_vtable bf = Some cur -> Builder.vtables bf = [] ->
  Builder.EndObject bf = Ok (o, b1) ->
  slot_reads_string bf cur i s ->
  (let! o0 := Table.Offset
               (Table.mk (pre ++ Builder.Output b1)
                  (len (pre ++ Builder.Output b1) - o)) (4 + 2 * Z.of_nat i) in
   if negb (o0 =? 0)
   then Table.String
          (Table.mk (pre ++ Builder.Output b1)
             (len (pre ++ Builder.Output b1) - o)) o0
   else Ok []) = Ok s.
Proof.
  intros Hwf Hcur Hvt HE (e & Hnth & [[-> ->] | (id & Hfield & Hstr)]).
  - rewrite (Offset_absent_first bf b1 cur o pre i Hwf Hcur Hvt HE Hnth).
    reflexivity.
  - destruct (Offset_after_EndObject bf b1 cur o pre i e Hwf Hcur)
      as (Hoff & Hne & _ & new & Hnew);
      [rewrite Hvt; constructor | exact HE | exact Hnth | apply Hfield |].
    rewrite Hoff. cbn [rbind].
    destruct (Z.eqb_spec (o - e) 0); [contradiction|]. cbn [negb].
    pose proof (Get_after_EndObject bf b1 o pre new packer.uoffset e (e - id)
                  Hwf Hnew Hfield) as Hu.
    destruct Hstr as (Hid & Hs & front & rest & Hout & Hfront).
    pose proof (wf_Offset bf Hwf) as HOb.
    assert (Hbuf : pre ++ Builder.Output b1
                   = (pre ++ new ++ front) ++ le_split 4 (len s) ++ s ++ rest).
    { rewrite Hnew, Hout, <- !app_assoc. reflexivity. }
    assert (Hlen : len (pre ++ Builder.Output b1) = len (pre ++ new ++ front) + id).
    { rewrite Hnew, !len_app. lia. }
    revert Hu. rewrite Hlen. rewrite Hbuf. intros Hu.
    apply String_reads; [pose proof (len_nonneg s); lia|].
    unfold uoffset_target, read_uoffset. rewrite Hu. cbn [rbind].
    f_equal. lia.
Qed.

Lemma slot_reads_stepped b b' cur cur' i p v d :
  wf b -> stepped b b' cur' -> nth_error cur' i = nth_error cur i ->
  slot_reads b cur i p v d -> slot_reads b' cur' i p v d.
Proof.
  intros Hwf Hst Hnth (e & He & Hv).
  destruct (stepped_facts b b' cur' Hwf Hst) as (_ & _ & _ & _ & Hf & _).
  exists e. split; [congruence|].
  destruct Hv as [Hv | Hv]; [left; exact Hv | right; apply Hf, Hv].
Qed.

Lemma slot_reads_string_stepped b b' cur cur' i s :
  wf b -> stepped b b' cur' -> nth_error cur' i = nth_error cur i ->
  slot_reads_string b cur i s -> slot_reads_string b' cur' i s.
Proof.
  intros Hwf Hst Hnth (e & He & Hv).
  destruct (stepped_facts b b' cur' Hwf Hst) as (_ & _ & _ & _ & Hf & Hs).
  exists e. split; [congruence|].
  destruct Hv as [Hv | (id & Hu & Hstr)]; [left; exact Hv|].
  right. exists id. split; [apply Hf, Hu | apply Hs, Hstr].
Qed.

(** [if x is not None: builder.Prepend<K>Slot(o, x, d)] *)
Lemma optional_field_step flags k o (x : option Z) d b b' cur :
  wf b -> 0 <= k ->
  bytewidth flags = 2 ^ k ->
  bytewidth flags = Z.of_nat (packer.size (packer_type flags)) ->
  packer_type flags <> packer.boolean ->
  Builder.current_vtable b = Some cur -> 0 <= o ->
  nth_error cur (Z.to_nat o) = Some 0 ->
  match x with
  | Some x => Builder.PrependSlot flags o x d
  | None => Builder.ret tt
  end b = Ok (tt, b') ->
  exists cur',
    stepped b b' cur' /\
    (forall j, j <> Z.to_nat o -> nth_error cur' j = nth_error cur j) /\
    slot_reads b' cur' (Z.to_nat o) (packer_type flags)
      (match x with Some x => x | None => d end) d.
Proof.
  intros Hwf Hk Hw Hs Hnb Hcur Ho Hzero H.
  destruct x as [x|].
  - destruct (PrependSlot_step flags k o x d b b' cur Hwf Hk Hw Hs Hnb Hcur Ho H)
      as (cur' & Hst & Hother & Hslot).
    exists cur'. split; [exact Hst|]. split; [exact Hother|].
    destruct Hslot as [[-> Hsame] | (_ & e & Hnth & Hfield)].
    + exists 0. split; [congruence | left; auto].
    + exists e. split; [exact Hnth | right; exact Hfield].
  - injection H as <-. exists cur.
    split; [apply stepped_refl; assumption|]. split; [reflexivity|].
    exists 0. split; [exact Hzero | left; auto].
Qed.

(** [if id is not None: builder.PrependUOffsetTRelativeSlot(o, id, 0)], with
    [id] the Offset of a string. *)
Lemma optional_string_step o (id : option Z) s b b' cur :
  wf b -> Builder.current_vtable b = Some cur -> 0 <= o ->
  nth_error cur (Z.to_nat o) = Some 0 ->
  match id with Some i => string_at b i s | None => s = [] end ->
  match id with
  | Some id => Builder.PrependUOffsetTRelativeSlot o id 0
  | None => Builder.ret tt
  end b = Ok (tt, b') ->
  exists cur',
    stepped b b' cur' /\
    (forall j, j <> Z.to_nat o -> nth_error cur' j = nth_error cur j) /\
    slot_reads_string b' cur' (Z.to_nat o) s.
Proof.
  intros Hwf Hcur Ho Hzero Hid H.
  destruct id as [i|].
  - destruct (PrependUOffsetTRelativeSlot_step o i 0 b b' cur Hwf Hcur Ho H)
      as (cur' & Hst & Hother & Hslot).
    exists cur'. split; [exact Hst|]. split; [exact Hother|].
    destruct Hslot as [[-> _] | (_ & e & Hnth & Hfield)].
    + destruct Hid as [Hi _]. lia.
    + destruct (stepped_facts b b' cur' Hwf Hst) as (_ & _ & _ & _ & _ & Hstr).
      exists e. split; [exact Hnth|]. right. exists i.
      split; [exact Hfield | apply Hstr, Hid].
  - injection H as <-. subst s. exists cur.
    split; [apply stepped_refl; assumption|]. split; [reflexivity|].
    exists 0. split; [exact Hzero | left; auto].
Qed.

(** X13.  [CreateStat(builder, id, val, count)] as the first object of a
    buffer, with [id] the Offset of a string written before, followed by
    [Finish] of the Offset it returned: whenever both return,
    [GetRootAsStat(Output(), 0)] is a table whose [Val()] and [Count()] are
    the values passed (the default 0 for an argument left at [None]) and
    whose [Id()] is the string ([b""] without [id]). *)
Theorem Stat_roundtrip (id val count : option Z) (s : list byte)
    (b b1 b2 : Builder.t) (o h : Z) :
  wf b ->
  Builder.vtables b = [] ->
  match id with Some i => string_at b i s | None => s = [] end ->
  Stat.CreateStat id val count b = Ok (o, b1) ->
  Builder.Finish o b1 = Ok (h, b2) ->
  exists t,
    Stat.GetRootAsStat (Builder.Output b2) 0 = Ok t /\
    Stat.Id t = Ok s /\
    Stat.Val t = Ok (match val with Some v => v | None => 0 end) /\
    Stat.Count t = Ok (match count with Some c => c | None => 0 end).
Proof.
  intros Hwf Hvt Hid HC HF.
  unfold Stat.CreateStat in HC.
  apply bind_inv in HC. destruct HC as ([] & bs & HS & HC).
  apply bind_inv in HC. destruct HC as ([] & bi & HI & HC).
  apply bind_inv in HC. destruct HC as ([] & bv & HV & HC).
  apply bind_inv in HC. destruct HC as ([] & bc & HCt & HE).
  destruct (StartObject_inv _ _ _ HS) as [_ ->].
  set (bs := Builder.mk (Builder.Bytes b) (Some (repeat 0 (Z.to_nat 3)))
               (Builder.head b) 1 (Some (Builder.Offset b)) (Builder.vtables b)) in *.
  assert (Hwfs : wf bs) by exact Hwf.
  assert (Hals : aligned bs) by (exists 0; split; [lia | reflexivity]).
  assert (Hcurs : Builder.current_vtable bs = Some [0; 0; 0]) by reflexivity.
  assert (Hids : match id with Some i => string_at bs i s | None => s = [] end)
    by (destruct id; exact Hid).
  (* id, slot 0 *)
  destruct (optional_string_step 0 id s bs bi [0; 0; 0] Hwfs Hcurs
              (Z.le_refl 0) eq_refl Hids HI) as (cur1 & Hst1 & Ho1 & Hs1).
  destruct (stepped_facts bs bi cur1 Hwfs Hst1) as (Hwfi & Hcuri & Hvti & Hali & _).
  (* val, slot 1 *)
  destruct (optional_field_step Int64Flags 3 1 val 0 bi bv cur1 Hwfi)
    as (cur2 & Hst2 & Ho2 & Hs2);
    try reflexivity; try lia; try discriminate; try assumption.
  { change (Z.to_nat 1) with 1%nat.
    rewrite (Ho1 1%nat) by (cbn; lia). reflexivity. }
  destruct (stepped_facts bi bv cur2 Hwfi Hst2) as (Hwfv & Hcurv & Hvtv & Halv & _).
  (* count, slot 2 *)
  destruct (optional_field_step Uint16Flags 1 2 count 0 bv bc cur2 Hwfv)
    as (cur3 & Hst3 & Ho3 & Hs3);
    try reflexivity; try lia; try discriminate; try assumption.
  { change (Z.to_nat 2) with 2%nat.
    rewrite (Ho2 2%nat), (Ho1 2%nat) by (cbn; lia). reflexivity. }
  destruct (stepped_facts bv bc cur3 Hwfv Hst3) as (Hwfc & Hcurc & Hvtc & Halc & _).
  (* the three slots when [EndObject] is called *)
  assert (Hid3 : slot_reads_string bc cur3 0 s).
  { apply (slot_reads_string_stepped bv bc cur2 cur3 0 s Hwfv Hst3);
      [apply Ho3; cbn; lia|].
    apply (slot_reads_string_stepped bi bv cur1 cur2 0 s Hwfi Hst2);
      [apply Ho2; cbn; lia | exact Hs1]. }
  assert (Hval3 : slot_reads bc cur3 1 packer.int64
                    (match val with Some v => v | None => 0 end) 0).
  { apply (slot_reads_stepped bv bc cur2 cur3 1 _ _ _ Hwfv Hst3);
      [apply Ho3; cbn; lia | exact Hs2]. }
  assert (Hvtc0 : Builder.vtables bc = [])
    by (rewrite Hvtc, Hvtv, Hvti; exact Hvt).
  (* the root *)
  assert (Hal1 : aligned b1).
  { pose proof (EndObject_minalign _ _ _ HE) as Hm.
    apply (aligned_max bc 2 _ (Halc (Halv (Hali Hals))) ltac:(lia) Hm). }
  assert (Hwf1 : wf b1).
  { destruct (EndObject_inv bc o b1 cur3 Hwfc Hcurc HE)
      as (_ & _ & _ & _ & _ & _ & _ & _ & _ & H & _). exact H. }
  destruct (GetRoot_after_Finish o b1 h b2 Hwf1 Hal1 HF) as (pre & Hout2 & Hroot).
  unfold Stat.GetRootAsStat. rewrite Hroot. cbn [rbind].
  eexists. split; [reflexivity|].
  unfold Stat.Id, Stat.Val, Stat.Count. cbn [Stat._tab]. rewrite Hout2.
  split; [|split].
  - exact (string_accessor_reads bc b1 cur3 o pre 0 s Hwfc Hcurc Hvtc0 HE Hid3).
  - exact (accessor_reads bc b1 cur3 o pre 1 Int64Flags _ 0 Hwfc Hcurc Hvtc0 HE Hval3).
  - exact (accessor_reads bc b1 cur3 o pre 2 Uint16Flags _ 0 Hwfc Hcurc Hvtc0 HE Hs3).
Qed.

Lemma Stat_roundtrip_witness :
  exists t,
    Stat.GetRootAsStat (Builder.Output stat_id_finished) 0 = Ok t /\
    Stat.Id t = Ok [Byte.x61; Byte.x62] /\
    Stat.Val t = Ok 100 /\
    Stat.Count t = Ok 5.
Proof.
  apply (Stat_roundtrip (Some 8) (Some 100) (Some 5) [Byte.x61; Byte.x62]
           stat_id_start stat_id_created stat_id_finished 32 16).
  - vm_compute. split; discriminate.
  - reflexivity.
  - split; [vm_compute; split; [reflexivity | discriminate]|].
    split; [vm_compute; discriminate|].
    exists [], [Byte.x00; Byte.x00]. split; vm_compute; reflexivity.
  - vm_compute. reflexivity.
  - vm_compute. reflexivity.
Defined.

(** ** The descriptors of [number_types.py] *)

Lemma valid_enforce lo hi n :
  let ok := (lo <=? n) && (n <=? hi) in
  ((if negb ok then Raise TypeError else Ok tt) = Ok tt <-> Ok ok = Ok true) /\
  ((if negb ok then Raise TypeError else Ok tt) = Raise TypeError
   <-> Ok ok = Ok false) /\
  (@Ok bool ok = Ok true <-> lo <= n <= hi).
Proof.
  cbv zeta.
  destruct (Z.leb_spec lo n) as [H1 | H1]; destruct (Z.leb_spec n hi) as [H2 | H2];
    cbn [andb negb];
    (split; [|split]); split; intros H; try reflexivity; try discriminate; lia.
Qed.

(** X14.  For [BoolFlags] and the eight integer descriptors,
    [enforce_number(n)] returns exactly when [valid_number(n)] is [True] and
    raises [TypeError] exactly when it is [False].  For an integer
    descriptor of [bytewidth] [w], [valid_number] accepts exactly the values
    that fit [w] bytes, in two's complement for the signed ones: the bounds
    of the table are [-2^(8w-1), 2^(8w-1) - 1] or [0, 2^(8w) - 1], and they
    are the bounds of the codec the descriptor names, which has width
    [w]. *)
Theorem number_types_ranges (flags : TypeFlags) :
  In flags (BoolFlags :: integer_flags) ->
  (forall n, enforce_number flags n = Ok tt <-> valid_number flags n = Ok true) /\
  (forall n, enforce_number flags n = Raise TypeError
             <-> valid_number flags n = Ok false) /\
  bytewidth flags = Z.of_nat (packer.size (packer_type flags)) /\
  (In flags integer_flags ->
   let w := bytewidth flags in
   exists signed : bool,
     packer.signed (packer_type flags) = signed /\
     forall n,
       valid_number flags n = Ok true <->
       if signed then - 2 ^ (8 * w - 1) <= n <= 2 ^ (8 * w - 1) - 1
       else 0 <= n <= 2 ^ (8 * w) - 1).
Proof.
  intros Hin.
  assert (Hb : exists lo hi, min_val flags = Some lo /\ max_val flags = Some hi /\
            bytewidth flags = Z.of_nat (packer.size (packer_type flags)) /\
            (In flags integer_flags ->
             lo = packer.min_value (packer_type flags) /\
             hi = packer.max_value (packer_type flags) /\
             packer.bits (packer_type flags) = 8 * bytewidth flags)).
  { cbn in Hin.
    repeat (destruct Hin as [<- | Hin];
            [eexists; eexists; split; [reflexivity|]; split; [reflexivity|];
             split; [reflexivity|]; intros Hi;
             first [ split; [reflexivity|]; split; reflexivity
                   | exfalso; cbn in Hi;
                     repeat (destruct Hi as [Hi | Hi]; [discriminate Hi|]);
                     exact Hi ] |]).
    contradiction. }
  destruct Hb as (lo & hi & Hlo & Hhi & Hw & Hint).
  unfold enforce_number, valid_number. rewrite Hlo, Hhi.
  split; [intros n; apply (valid_enforce lo hi n)|].
  split; [intros n; apply (valid_enforce lo hi n)|].
  split; [exact Hw|].
  intros Hi. cbv zeta. destruct (Hint Hi) as (-> & -> & Hbits).
  exists (packer.signed (packer_type flags)). split; [reflexivity|].
  intros n. rewrite (proj2 (proj2 (valid_enforce _ _ n))).
  unfold packer.min_value, packer.max_value. rewrite Hbits.
  destruct (packer.signed (packer_type flags)); reflexivity.
Qed.

Lemma number_types_ranges_witness :
  (enforce_number Int16Flags 40000 = Raise TypeError
   <-> valid_number Int16Flags 40000 = Ok false) /\
  bytewidth Int16Flags = 2.
Proof.
  destruct (number_types_ranges Int16Flags) as (_ & H & Hw & _).
  - cbn. auto 10.
  - split; [apply H | exact Hw].
Defined.

(** ** What no call does to the written region *)

Lemma builder_inv_pushed bs b b0 :
  builder_inv b -> pushed bs b b0 -> aligned b0 ->
  builder_inv b0 /\ exists new, Builder.Output b0 = new ++ Builder.Output b.
Proof.
  intros (Hwf & _ & Hall) Hpush Hal.
  pose proof (pushed_Offset _ _ _ Hwf Hpush) as Ho.
  pose proof (len_nonneg bs) as Hbs.
  destruct Hpush as (Hwf0 & Hout & _ & _ & Hvt).
  split; [|exists bs; exact Hout].
  split; [exact Hwf0|]. split; [exact Hal|].
  rewrite Hvt. eapply Forall_impl; [|exact Hall]. cbv beta. intros; lia.
Qed.

Lemma builder_inv_set_current_vtable cv b0 :
  builder_inv b0 -> builder_inv (Builder.set_current_vtable cv b0).
Proof. intros H. exact H. Qed.

Lemma builder_inv_same b :
  builder_inv b ->
  builder_inv b /\ exists new, Builder.Output b = new ++ Builder.Output b.
Proof. intros H. split; [exact H | exists []; reflexivity]. Qed.

(** [PrependByte], [PrependUint8] and [PrependBool], when they return. *)
Lemma PrependByte_inv x b b' :
  wf b -> Builder.PrependByte x b = Ok (tt, b') ->
  pushed [byte.of_Z x] b b' /\
  Builder.minalign b' = Z.max (Builder.minalign b) 1.
Proof.
  intros Hwf H. unfold Builder.PrependByte in H.
  apply bind_inv in H. destruct H as ([] & b0 & HP & H).
  change (bytewidth Uint8Flags) with (2 ^ 0) in HP.
  pose proof (Prep_minalign _ _ _ _ HP) as Hm.
  destruct (Prep_inv 0 0 b b0 Hwf ltac:(lia) ltac:(lia) HP)
    as (_ & Hroom & pad & Hpush0 & Hpad).
  change (2 ^ 0) with 1 in *. rewrite Z.mod_1_r in Hpad.
  assert (pad = []) by (destruct pad; [reflexivity | unfold len in Hpad; cbn in Hpad; lia]).
  subst pad.
  assert (Hwf0 : wf b0) by apply Hpush0.
  unfold Builder.PlaceUint8 in H.
  assert (Hx : 0 <= x < 256).
  { destruct (Z.le_gt_cases 0 x) as [H0 | H0];
      [destruct (Z.lt_ge_cases x 256) as [H1 | H1]; [lia|]|];
      rewrite setbyte_bad_value in H by (unfold wf in Hwf0; lia);
      discriminate. }
  destruct (put_byte_prepended b0 x Hwf0 ltac:(lia) Hx) as (b'' & HS & Hpre).
  rewrite HS in H. injection H as <-.
  split.
  - change [byte.of_Z x] with ([byte.of_Z x] ++ []).
    eapply pushed_trans; [exact Hpush0|].
    apply prepended_pushed; [exact Hwf0 | cbn; lia | exact Hpre].
  - destruct Hpre as (_ & _ & _ & _ & _ & -> & _). exact Hm.
Qed.

(** [CreateString], when it returns. *)
Lemma CreateString_inv s b off b' :
  wf b -> Builder.CreateString s b = Ok (off, b') ->
  exists pad,
    pushed (le_split 4 (len s) ++ s ++ [Byte.x00] ++ pad) b b' /\
    off = Builder.Offset b' /\
    Builder.minalign b' = Z.max (Builder.minalign b) 4 /\
    string_at b' off s.
Proof.
  intros Hwf H. pose proof (len_nonneg s) as Hs.
  unfold Builder.CreateString in H.
  apply bind_inv in H. destruct H as ([] & b0 & HN & H).
  unfold Builder.assertNotNested in HN.
  destruct (Builder.current_vtable b) eqn:Hcur; [discriminate|].
  injection HN as <-.
  apply bind_inv in H. destruct H as ([] & b1 & HP & H).
  change (bytewidth UOffsetTFlags) with (2 ^ 2) in HP.
  pose proof (Prep_minalign _ _ _ _ HP) as Hm.
  destruct (Prep_inv 2 (len s + 1) b b1 Hwf ltac:(lia) ltac:(lia) HP)
    as (_ & Hroom & pad & Hpush1 & _).
  change (2 ^ 2) with 4 in *.
  assert (Hwf1 : wf b1) by apply Hpush1.
  apply bind_inv in H. destruct H as ([] & b2 & HPad & H).
  destruct (Pad_1_prepended b1 Hwf1 ltac:(lia)) as (b2' & HPad' & Hpre2).
  rewrite HPad' in HPad. injection HPad as <-.
  assert (Hwf2 : wf b2').
  { eapply prepended_wf; [exact Hwf1 | | exact Hpre2].
    change (len [Byte.x00]) with 1. lia. }
  assert (Hh2 : Builder.head b2' = Builder.head b1 - 1)
    by (destruct Hpre2 as [E _]; exact E).
  apply bind_inv in H. destruct H as ([] & b3a & Hm1 & H).
  unfold Builder.modify in Hm1. injection Hm1 as <-.
  apply bind_inv in H. destruct H as ([] & b3 & Hm2 & H).
  unfold Builder.modify in Hm2. injection Hm2 as <-.
  pose proof (setslice_prepended s b2' Hwf2 ltac:(lia)) as Hpre3.
  cbn [Builder.Bytes Builder.head Builder.set_head] in H.
  set (b3 := Builder.set_Bytes _ _) in *.
  assert (Hwf3 : wf b3).
  { eapply prepended_wf; [exact Hwf2 | | exact Hpre3]. lia. }
  assert (Hh3 : Builder.head b3 = Builder.head b2' - len s)
    by (destruct Hpre3 as [E _]; exact E).
  unfold Builder.EndVector in H.
  apply bind_inv in H. destruct H as ([] & b4 & HPl & H).
  unfold Builder.gets in H. injection H as <- <-.
  destruct (Place_inv (len s) UOffsetTFlags b3 b4 Hwf3 eq_refl)
    as (bs & Hp & Hpre4); [change (bytewidth UOffsetTFlags) with 4; lia | exact HPl |].
  apply pack_inv in Hp; [|discriminate]. destruct Hp as [Hr ->].
  change (packer.size (packer_type UOffsetTFlags)) with 4%nat in *.
  change (packer.max_value (packer_type UOffsetTFlags)) with (2 ^ 32 - 1) in Hr.
  assert (Hpush : pushed (le_split 4 (len s) ++ s ++ [Byte.x00] ++ pad) b b4).
  { replace (le_split 4 (len s) ++ s ++ [Byte.x00] ++ pad)
      with (le_split 4 (len s) ++ (s ++ ([Byte.x00] ++ pad))) by reflexivity.
    eapply pushed_trans; [|apply prepended_pushed;
      [exact Hwf3 | rewrite len_le_split; lia | exact Hpre4]].
    eapply pushed_trans; [|apply prepended_pushed;
      [exact Hwf2 | lia | exact Hpre3]].
    eapply pushed_trans; [exact Hpush1|].
    apply prepended_pushed; [exact Hwf1 | change (len [Byte.x00]) with 1; lia
                            | exact Hpre2]. }
  assert (Hwf4 : wf b4) by apply Hpush.
  exists pad. split; [exact Hpush|]. split; [reflexivity|].
  split.
  { destruct Hpre4 as (_ & _ & _ & _ & _ & -> & _).
    destruct Hpre3 as (_ & _ & _ & _ & _ & -> & _).
    destruct Hpre2 as (_ & _ & _ & _ & _ & -> & _). exact Hm. }
  pose proof (wf_Offset b4 Hwf4) as HO4.
  pose proof (pushed_Offset _ _ _ Hwf Hpush) as HO.
  rewrite len_app, len_le_split in HO.
  pose proof (len_nonneg (s ++ [Byte.x00] ++ pad)) as Hrest.
  pose proof (wf_Offset b Hwf) as HOb.
  pose proof (len_nonneg (Builder.Output b)) as HOb0.
  split; [lia|split; [lia|]].
  exists [], ([Byte.x00] ++ pad ++ Builder.Output b). split.
  - destruct Hpush as (_ & -> & _). rewrite <- !app_assoc. reflexivity.
  - change (len (@nil byte)) with 0. lia.
Qed.

Lemma aligned_max_1 b m :
  aligned b -> m = Z.max (Builder.minalign b) 1 -> exists k, 0 <= k /\ m = 2 ^ k.
Proof. intros Hal Hm. exact (aligned_max b 0 m Hal (Z.le_refl 0) Hm). Qed.

Lemma aligned_max_4 b m :
  aligned b -> m = Z.max (Builder.minalign b) 4 -> exists k, 0 <= k /\ m = 2 ^ k.
Proof. intros Hal Hm. exact (aligned_max b 2 m Hal ltac:(lia) Hm). Qed.

Lemma Finish_minalign rootTable b h b' :
  wf b -> aligned b ->
  Builder.Finish rootTable b = Ok (h, b') ->
  Builder.minalign b' = Z.max (Builder.minalign b) 4.
Proof.
  intros Hwf (k & Hk & Hma) H. unfold Builder.Finish in H.
  apply bind_inv in H. destruct H as (ma & b0' & E & H).
  unfold Builder.gets in E. injection E as <- <-.
  apply bind_inv in H. destruct H as ([] & b0 & HP & H).
  apply bind_inv in H. destruct H as ([] & b1 & HU & H).
  unfold Builder.gets in H. injection H as <- <-.
  pose proof (Prep_minalign _ _ _ _ HP) as Hm0.
  rewrite Hma in HP. change (bytewidth UOffsetTFlags) with 4 in HP.
  destruct (Prep_inv k 4 b b0 Hwf Hk ltac:(lia) HP) as (_ & _ & pad0 & Hpush0 & _).
  assert (Hwf0 : wf b0) by apply Hpush0.
  destruct (PrependUOffsetTRelative_inv rootTable b0 b1 Hwf0 HU)
    as (_ & _ & _ & _ & _ & Hm1).
  rewrite Hm1, Hm0. lia.
Qed.

Lemma Prepend_call_inv flags x b b' :
  In flags integer_flags -> builder_inv b ->
  Builder.Prepend flags x b = Ok (tt, b') ->
  builder_inv b' /\ exists new, Builder.Output b' = new ++ Builder.Output b.
Proof.
  intros Hin Hinv H.
  destruct (integer_flags_shape flags Hin) as ((k & Hk & Hw) & Hs & Hnb & _).
  destruct (Prepend_inv flags k x b b' (proj1 Hinv) (proj1 Hk) Hw Hs Hnb H)
    as (pad & Hpush & _).
  pose proof (Prepend_minalign _ _ _ _ H) as Hm. rewrite Hw in Hm.
  eapply builder_inv_pushed; [exact Hinv | exact Hpush|].
  exact (aligned_max b k _ (proj1 (proj2 Hinv)) (proj1 Hk) Hm).
Qed.

Lemma Slot_call_inv o b b' :
  builder_inv b -> Builder.Slot o b = Ok (tt, b') ->
  builder_inv b' /\ exists new, Builder.Output b' = new ++ Builder.Output b.
Proof.
  intros Hinv H. destruct (Slot_inv _ _ _ H) as (cur & cur' & _ & _ & ->).
  split; [apply builder_inv_set_current_vtable, Hinv | exists []; reflexivity].
Qed.

Lemma then_Slot_inv (m : Builder.M unit) o b b' :
  builder_inv b ->
  (forall b0, m b = Ok (tt, b0) ->
     builder_inv b0 /\ exists new, Builder.Output b0 = new ++ Builder.Output b) ->
  Builder.bind m (fun _ => Builder.Slot o) b = Ok (tt, b') ->
  builder_inv b' /\ exists new, Builder.Output b' = new ++ Builder.Output b.
Proof.
  intros Hinv Hm H.
  apply bind_inv in H. destruct H as ([] & b0 & H0 & HS).
  destruct (Hm b0 H0) as (Hinv0 & new & Hnew).
  destruct (Slot_call_inv o b0 b' Hinv0 HS) as (Hinv' & new' & Hnew').
  split; [exact Hinv'|]. exists (new' ++ new).
  rewrite Hnew', Hnew, app_assoc. reflexivity.
Qed.

Lemma EndObject_call_inv b oo b' :
  builder_inv b -> Builder.EndObject b = Ok (oo, b') ->
  builder_inv b' /\ exists new, Builder.Output b' = new ++ Builder.Output b.
Proof.
  intros (Hwf & Hal & Hall) H.
  destruct (Builder.current_vtable b) as [cur|] eqn:Hcur;
    [|unfold Builder.EndObject in H; rewrite Hcur in H; discriminate].
  pose proof (EndObject_minalign _ _ _ H) as Hm.
  destruct (EndObject_inv b oo b' cur Hwf Hcur H)
    as (b1 & pad & hdr & ex & Hpush & Hhdr & Hoo1 & Hoo & Hfind & Hwf' & _ & Hex).
  pose proof (wf_Offset b Hwf) as HOb. pose proof (wf_Offset b' Hwf') as HOb'.
  pose proof (len_nonneg pad) as Hpad. pose proof (len_nonneg cur) as Hlc.
  pose proof (len_nonneg (Builder.Output b)) as Hlo.
  pose proof (header_offset_above b) as Habove.
  assert (Hal' : aligned b') by exact (aligned_max_4 b _ Hal Hm).
  destruct ex as [ev|].
  - destruct Hex as (Hout & _ & Hvt & Hr).
    assert (Hge : Builder.Offset b <= Builder.Offset b')
      by (rewrite HOb', Hout, !len_app, len_le_split; lia).
    split; [|exists (le_split 4 (ev - oo) ++ pad); rewrite Hout, <- app_assoc;
             reflexivity].
    split; [exact Hwf'|]. split; [exact Hal'|].
    rewrite Hvt. eapply Forall_impl; [|exact Hall]. cbv beta. intros; lia.
  - destruct Hex as (oe & _ & Hout & Hvt & Hoff & Hv & Hent & Hr).
    split; [|exists (vtable_bytes cur oo oe ++ le_split 4 (Builder.Offset b' - oo)
                       ++ pad); rewrite Hout, <- !app_assoc; reflexivity].
    split; [exact Hwf'|]. split; [exact Hal'|].
    rewrite Hvt. apply Forall_app. split.
    + eapply Forall_impl; [|exact Hall]. cbv beta. intros; lia.
    + constructor; [lia | constructor].
Qed.

(** One call. *)
Lemma run_call_inv c b b' :
  call_ok c -> builder_inv b -> run_call c b = Ok (tt, b') ->
  builder_inv b' /\ exists new, Builder.Output b' = new ++ Builder.Output b.
Proof.
  intros Hok Hinv H. pose proof Hinv as (Hwf & Hal & Hall).
  destruct c; cbn [run_call call_ok] in *.
  - (* StartObject *)
    destruct (StartObject_inv _ _ _ H) as [_ ->].
    split; [|exists []; reflexivity].
    split; [exact Hwf|]. split; [|exact Hall].
    exists 0. split; [lia | reflexivity].
  - exact (Slot_call_inv _ _ _ Hinv H).
  - exact (Prepend_call_inv _ _ _ _ Hok Hinv H).
  - (* PrependByte *)
    destruct (PrependByte_inv x b b' Hwf H) as [Hpush Hm].
    eapply builder_inv_pushed; [exact Hinv | exact Hpush|].
    exact (aligned_max_1 b _ Hal Hm).
  - (* PrependInt8 *)
    destruct (PrependInt8_inv x b b' Hwf H) as [Hpush Hm].
    eapply builder_inv_pushed; [exact Hinv | exact Hpush|].
    exact (aligned_max_1 b _ Hal Hm).
  - (* PrependSlot *)
    unfold Builder.PrependSlot in H. destruct (negb (x =? d)).
    + apply (then_Slot_inv (Builder.Prepend flags x) o b b' Hinv); [|exact H].
      intros b0 H0. exact (Prepend_call_inv _ _ _ _ Hok Hinv H0).
    + injection H as <-. apply builder_inv_same, Hinv.
  - (* PrependUOffsetTRelative *)
    destruct (PrependUOffsetTRelative_inv off b b' Hwf H)
      as (pad & Hpush & _ & _ & _ & Hm).
    eapply builder_inv_pushed; [exact Hinv | exact Hpush|].
    exact (aligned_max_4 b _ Hal Hm).
  - (* PrependUOffsetTRelativeSlot *)
    unfold Builder.PrependUOffsetTRelativeSlot in H. destruct (negb (x =? d)).
    + apply (then_Slot_inv (Builder.PrependUOffsetTRelative x) o b b' Hinv);
        [|exact H].
      intros b0 H0.
      destruct (PrependUOffsetTRelative_inv x b b0 Hwf H0)
        as (pad & Hpush & _ & _ & _ & Hm).
      eapply builder_inv_pushed; [exact Hinv | exact Hpush|].
      exact (aligned_max_4 b _ Hal Hm).
    + injection H as <-. apply builder_inv_same, Hinv.
  - (* PrependStructSlot *)
    unfold Builder.PrependStructSlot in H. destruct (negb (x =? d)).
    + apply (then_Slot_inv (Builder.assertNested x) v b b' Hinv); [|exact H].
      intros b0 H0. unfold Builder.assertNested in H0.
      destruct (negb _); [discriminate|]. injection H0 as <-.
      apply builder_inv_same, Hinv.
    + injection H as <-. apply builder_inv_same, Hinv.
  - (* CreateString *)
    apply bind_inv in H. destruct H as (off & b0 & HC & H).
    cbn in H. injection H as <-.
    destruct (CreateString_inv s b off b0 Hwf HC) as (pad & Hpush & _ & Hm & _).
    eapply builder_inv_pushed; [exact Hinv | exact Hpush|].
    exact (aligned_max_4 b _ Hal Hm).
  - (* EndObject *)
    apply bind_inv in H. destruct H as (oo & b0 & HE & H).
    cbn in H. injection H as <-.
    exact (EndObject_call_inv b oo b0 Hinv HE).
  - (* Finish *)
    apply bind_inv in H. destruct H as (h & b0 & HF & H).
    cbn in H. injection H as <-.
    pose proof (Finish_minalign _ _ _ _ Hwf Hal HF) as Hm.
    destruct Hal as (k & Hk & Hma).
    destruct (Finish_inv rootTable b h b0 k Hwf Hk Hma HF) as (pad & Hpush & _).
    eapply builder_inv_pushed; [exact Hinv | exact Hpush|].
    apply (aligned_max_4 b); [exists k; auto | exact Hm].
Qed.

(** X15.  The states of a Builder keep an invariant, and the written region
    only grows at the front.  A new [Builder(initialSize)] and any Builder
    after [Reset()] have [head] inside the buffer, a power of two in
    [minalign] and no recorded vtable, with an empty written region.  Every
    sequence of calls among [StartObject], [Slot], [Prepend] and
    [PrependSlot] on the integer descriptors, [PrependByte] /
    [PrependUint8] / [PrependBool], [PrependInt8], [PrependUOffsetTRelative]
    and its [Slot] form, [PrependStructSlot], [CreateString], [EndObject]
    and [Finish] that runs without raising keeps [head] inside the buffer,
    [minalign] a power of two and every recorded vtable inside the written
    region, and leaves every byte that was in the written region where it
    was, counted from the end of the buffer. *)
Theorem calls_append_only :
  (forall n b, Builder.__init__ n = Ok b ->
     builder_inv b /\ Builder.Output b = []) /\
  (forall b b', Builder.Reset b = Ok (tt, b') ->
     builder_inv b' /\ Builder.Output b' = [] /\
     Builder.Bytes b' = Builder.Bytes b) /\
  (forall cs b b',
     Forall call_ok cs -> builder_inv b -> run_calls cs b = Ok (tt, b') ->
     builder_inv b' /\
     exists new, Builder.Output b' = new ++ Builder.Output b).
Proof.
  assert (Hempty : forall bytes cv ma oe vts,
    let b := Builder.mk bytes cv (len bytes) ma oe vts in
    wf b /\ Builder.Output b = []).
  { intros bytes cv ma oe vts b. pose proof (len_nonneg bytes).
    assert (Hwf : wf b) by (unfold wf, b; cbn; lia).
    split; [exact Hwf|]. rewrite (Output_inside b Hwf). unfold b. cbn.
    apply skipn_all2. unfold len. lia. }
  split; [|split].
  - intros n b H. unfold Builder.__init__ in H.
    destruct (negb _); [discriminate|]. injection H as <-.
    destruct (Hempty (bytearray n) None 1 None []) as [Hwf Hout].
    split; [|exact Hout].
    split; [exact Hwf|]. split; [exists 0; split; [lia | reflexivity]|].
    constructor.
  - intros b b' H. unfold Builder.Reset, Builder.modify in H. injection H as <-.
    destruct (Hempty (Builder.Bytes b) None 1 None []) as [Hwf Hout].
    split; [|split; [exact Hout | reflexivity]].
    split; [exact Hwf|]. split; [exists 0; split; [lia | reflexivity]|].
    constructor.
  - induction cs as [|c cs IH]; intros b b' Hok Hinv H.
    + cbn in H. injection H as <-. apply builder_inv_same, Hinv.
    + cbn [run_calls] in H. apply bind_inv in H.
      destruct H as ([] & b0 & Hc & Hrest).
      inversion Hok as [|c' cs' Hokc Hokcs]; subst.
      destruct (run_call_inv c b b0 Hokc Hinv Hc) as (Hinv0 & new0 & Hnew0).
      destruct (IH b0 b' Hokcs Hinv0 Hrest) as (Hinv' & new & Hnew).
      split; [exact Hinv'|]. exists (new ++ new0).
      rewrite Hnew, Hnew0, app_assoc. reflexivity.
Qed.

Lemma calls_append_only_witness :
  exists new,
    Builder.Output
      (exec (run_calls [CStartObject 1; CPrependSlot Int16Flags 0 7 0; CEndObject])
         (Builder.mk (bytearray 32) None 30 1 None []))
    = new ++ Builder.Output (Builder.mk (bytearray 32) None 30 1 None []).
Proof.
  refine (proj2 (proj2 (proj2 calls_append_only)
    [CStartObject 1; CPrependSlot Int16Flags 0 7 0; CEndObject]
    (Builder.mk (bytearray 32) None 30 1 None [])
    (exec (run_calls [CStartObject 1; CPrependSlot Int16Flags 0 7 0; CEndObject])
       (Builder.mk (bytearray 32) None 30 1 None [])) _ _ _)).
  - constructor; [exact I|]. constructor; [cbn; auto 10|].
    constructor; [exact I | constructor].
  - split; [vm_compute; split; discriminate|].
    split; [exists 0; split; [lia | reflexivity] | constructor].
  - vm_compute. reflexivity.
Defined.
